(** * BLACKSITE: room codes, the join flow, comment threading, post loading

    A shallow embedding of the client logic of the BLACKSITE application
    (TypeScript / React over a hosted Postgres service) together with the
    properties its specification states about it.

    Conventions of the embedding
    - A JavaScript string is a [string]; a character is one code unit below
      256 (the inputs the properties need are ASCII).
    - A timestamp ([Date.getTime()], a [timestamptz] column) is a [Z]:
      milliseconds since the epoch.
    - [null] / [undefined] is [None]; JavaScript truthiness of an optional
      string is [truthy].
    - A React component is a record of its state variables; an event handler
      is a function from the state (and the answers of the backing service)
      to the new state and the list of effects it performed, in order.
    - The backing service is a record of tables; a request is [Served],
      [Refused] (the client gets [{ error }]) or [Crashed] (the promise
      rejects). *)

From Stdlib Require Import ZArith QArith Qround String Ascii List Lia Permutation Sorted.
From stdpp Require Import gmap strings list pretty.

Close Scope Q_scope.
Open Scope string_scope.
Open Scope list_scope.

(** ** JavaScript string primitives *)

Module JS.

(** White space removed by [String.prototype.trim], restricted to the code
    units below 256: TAB, LF, VT, FF, CR, SPACE, NBSP. *)
Definition isWhiteSpace (c : ascii) : bool :=
  let n := nat_of_ascii c in
  (Nat.leb 9 n && Nat.leb n 13) || Nat.eqb n 32 || Nat.eqb n 160.

Fixpoint trimStart (s : string) : string :=
  match s with
  | String c s' => if isWhiteSpace c then trimStart s' else s
  | EmptyString => EmptyString
  end.

Fixpoint trimEnd (s : string) : string :=
  match s with
  | String c s' =>
      match trimEnd s' with
      | EmptyString => if isWhiteSpace c then EmptyString else String c EmptyString
      | t => String c t
      end
  | EmptyString => EmptyString
  end.

(** [s.trim()] *)
Definition trim (s : string) : string := trimEnd (trimStart s).

(** [s.slice(0, n)] *)
Definition slice0 (n : nat) (s : string) : string := String.substring 0 n s.

(** [s.charAt(i)]: the empty string when [i] is out of range. *)
Definition charAt (s : string) (i : Z) : string :=
  if (i <? 0)%Z then ""
  else match String.get (Z.to_nat i) s with
       | Some c => String c ""
       | None => ""
       end.

(** Truthiness of a string: only the empty string is falsy. *)
Definition nonEmpty (s : string) : bool :=
  match s with EmptyString => false | _ => true end.

(** Truthiness of an optional string ([null], [undefined] and [""] are
    falsy). *)
Definition truthy (o : option string) : bool :=
  match o with Some s => nonEmpty s | None => false end.

(** [a === b] on values that are a string or [null]. *)
Definition strictEq (a b : option string) : bool :=
  match a, b with
  | Some x, Some y => String.eqb x y
  | None, None => true
  | _, _ => false
  end.

(** *** Regular expressions of the shape used by the application:
    a sequence of single-character atoms with a fixed repetition count,
    anchored at both ends ([^ ... $], no [m] flag). *)

Inductive Atom : Type :=
| Class (ranges : list (ascii * ascii))   (* [a-bc-d] *)
| Lit (c : ascii).                        (* a literal character *)

Definition inRange (c : ascii) (r : ascii * ascii) : bool :=
  Nat.leb (nat_of_ascii (fst r)) (nat_of_ascii c) && Nat.leb (nat_of_ascii c) (nat_of_ascii (snd r)).

Definition atomMatches (a : Atom) (c : ascii) : bool :=
  match a with
  | Class ranges => existsb (inRange c) ranges
  | Lit c' => if ascii_dec c c' then true else false
  end.

(** [matchRep a n s]: consume exactly [n] characters matching [a]. *)
Fixpoint matchRep (a : Atom) (n : nat) (s : string) : option string :=
  match n with
  | O => Some s
  | S n' =>
      match s with
      | String c s' => if atomMatches a c then matchRep a n' s' else None
      | EmptyString => None
      end
  end.

(** [^ a1{n1} a2{n2} ... $] against the whole of [s]. *)
Fixpoint matchAnchored (re : list (Atom * nat)) (s : string) : bool :=
  match re with
  | [] => match s with EmptyString => true | _ => false end
  | (a, n) :: re' =>
      match matchRep a n s with
      | Some rest => matchAnchored re' rest
      | None => false
      end
  end.

End JS.

(** ** [src/lib/room-utils.ts] *)

Module RoomUtils.
Import JS.

(** The alphabet of [generateRoomCode]. *)
Definition chars : string := "ABCDEFGHIJKLMNPQRSTUVWXYZ23456789".

(** [Math.floor(Math.random() * chars.length)] for a draw [r]. *)
Definition randomIndex (r : Q) : Z :=
  Qfloor (r * inject_Z (Z.of_nat (String.length chars))).

(** One iteration of the loop body of [generateRoomCode]. *)
Definition generateRoomCode_step (random : nat -> Q) (code : string) (i : nat) : string :=
  let code := if Nat.eqb i 4 then code +:+ "-" else code in
  code +:+ charAt chars (randomIndex (random i)).

(** [generateRoomCode()]; [random i] is the value of the [i]-th call of
    [Math.random()] (one call per iteration, [i = 0 .. 7]). *)
Definition generateRoomCode (random : nat -> Q) : string :=
  fold_left (generateRoomCode_step random) (seq 0 8) "".

(** [/^[A-Z0-9]{4}-[A-Z0-9]{4}$/] *)
Definition upperAlnum : Atom := Class [("A"%char, "Z"%char); ("0"%char, "9"%char)].
Definition roomCodeRegex : list (Atom * nat) :=
  [(upperAlnum, 4); (Lit "-"%char, 1); (upperAlnum, 4)].

Definition isValidRoomCode (code : string) : bool :=
  matchAnchored roomCodeRegex code.

(** [formatDisplayName]: [name.trim().slice(0, 25)] *)
Definition formatDisplayName (name : string) : string :=
  slice0 25 (trim name).

End RoomUtils.

(** ** Stable sort with a JavaScript comparator

    [Array.prototype.sort(cmp)] is stable; [cmp a b < 0] puts [a] first. *)

Module JSArray.

Section Sort.
Context {A : Type} (cmp : A -> A -> Z).

Fixpoint insertSorted (x : A) (l : list A) : list A :=
  match l with
  | [] => [x]
  | y :: ys => if (cmp y x <? 0)%Z then y :: insertSorted x ys else x :: y :: ys
  end.

Definition sort (l : list A) : list A := foldr insertSorted [] l.
End Sort.

End JSArray.

(** ** The backing service: tables, row security, requests *)

Module Supabase.

Record RoomRow := {
  room_id : string;
  room_code : string;
  room_title : string;
  room_description : option string;
  owner_token_hash : string;
  is_ephemeral : bool;
  expiry_at : option Z;
  password_hash : option string;
  room_created_at : Z
}.

Record PostRow := {
  post_id : string;
  post_room_id : string;
  post_author_display : string;
  post_content : string;
  post_media : option (list string);   (* [None]: the JSON value is not an array *)
  post_pinned : bool;
  post_created_at : Z;
  post_edited_at : option Z;
  post_deleted_at : option Z
}.

(** A row of [comments]; also the run-time shape of the [Comment] objects
    the hook receives from [select('*, comments:comments( * )')]. *)
Record Comment := {
  id : string;
  comment_post_id : string;
  parent_comment_id : option string;
  author_display : string;
  content : string;
  created_at : Z;
  deleted_at : option Z
}.

Record BanRow := {
  ban_id : string;
  ban_room_id : string;
  ban_display_name : string;
  ban_created_at : Z;
  ban_expires_at : option Z
}.

(** The tables as the client's role reads them. [posts] and [comments]
    hold every stored row, their SELECT policies are applied by the
    queries below; [bans] holds the ban rows the client's SELECT can see.
    [db_now] is the database clock, [now()]. *)
Record Database := {
  rooms : list RoomRow;
  posts : list PostRow;
  comments : list Comment;
  bans : list BanRow;
  db_now : Z
}.

(** Fate of one request. *)
Inductive Outcome := Served | Refused | Crashed.

(** What the awaiting code observes: [{ data, error: null }],
    [{ data: null, error }] or a rejected promise. *)
Inductive Reply (A : Type) :=
| Data (a : A)
| Err
| Thrown.
Arguments Data {A} a.
Arguments Err {A}.
Arguments Thrown {A}.

Definition request {A} (o : Outcome) (result : option A) : Reply A :=
  match o with
  | Served => match result with Some a => Data a | None => Err end
  | Refused => Err
  | Crashed => Thrown
  end.

(** [.single()]: exactly one row, otherwise an error. *)
Definition single {A} (rows : list A) : option A :=
  match rows with
  | [r] => Some r
  | _ => None
  end.

Definition isNull {A} (o : option A) : bool :=
  match o with None => true | Some _ => false end.

(** Row-security policies of the migration, [FOR SELECT USING (...)]. *)
Definition rooms_select_policy (r : RoomRow) : bool := true.
Definition posts_select_policy (p : PostRow) : bool := isNull (post_deleted_at p).
Definition comments_select_policy (c : Comment) : bool := isNull (deleted_at c).

(** [from('rooms').select(...).eq('code', code).single()] *)
Definition selectRoomByCode (db : Database) (o : Outcome) (code : string) : Reply RoomRow :=
  request o
    (single (List.filter (fun r => String.eqb (room_code r) code)
               (List.filter rooms_select_policy (rooms db)))).

(** [from('bans').select('id').eq('room_id', roomId).eq('display_name', displayName)
      .or('expires_at.is.null,expires_at.gt.now()').limit(1)] *)
Definition activeBan (db : Database) (roomId displayName : string) (b : BanRow) : bool :=
  String.eqb (ban_room_id b) roomId
  && String.eqb (ban_display_name b) displayName
  && match ban_expires_at b with
     | None => true
     | Some t => (db_now db <? t)%Z
     end.

Definition selectBans (db : Database) (o : Outcome) (roomId displayName : string)
  : Reply (list BanRow) :=
  request o (Some (take 1 (List.filter (activeBan db roomId displayName) (bans db)))).

(** [from('posts').select('*, comments:comments( * )').eq('room_id', roomId)
      .is('deleted_at', null).order('created_at', { ascending: false })]:
    each visible post with its visible comments embedded. *)
Definition embeddedComments (db : Database) (p : PostRow) : list Comment :=
  List.filter (fun c => String.eqb (comment_post_id c) (post_id p))
    (List.filter comments_select_policy (comments db)).

Definition postsQueryFilter (roomId : string) (p : PostRow) : bool :=
  String.eqb (post_room_id p) roomId && isNull (post_deleted_at p).

Definition selectPosts (db : Database) (o : Outcome) (roomId : string)
  : Reply (list (PostRow * list Comment)) :=
  request o
    (Some (map (fun p => (p, embeddedComments db p))
             (JSArray.sort (fun a b => (post_created_at b - post_created_at a)%Z)
                (List.filter (postsQueryFilter roomId)
                   (List.filter posts_select_policy (posts db)))))).

End Supabase.

(** ** Effects a handler performs, in the order it performs them *)

Module Effects.

Record Session := {
  session_roomCode : string;
  session_displayName : string;
  session_joinedAt : Z
}.

(** A value kept in [localStorage]: the JSON of a session, or a plain
    string (an owner token). *)
Inductive Stored :=
| SessionJSON (s : Session)
| Plain (s : string).

Inductive Effect :=
| Toast (title : string) (destructive : bool)
| ConsoleError (msg : string)
| SelectRoom (code : string)
| SelectBans (roomId displayName : string)
| SelectPostsOf (roomId : string)
| SetItem (key : string) (value : Stored)
| OnJoinSuccess (roomCode displayName : string)
| OnOpenChange (open : bool)
| UploadFile (path : string)
| InsertUpload (url : string)
| InsertPost (roomId author content : string) (media : list (string * string * Z))
| OnPostCreated.

Definition isToast (e : Effect) : bool :=
  match e with Toast _ _ => true | _ => false end.

Definition isInsertPost (e : Effect) : bool :=
  match e with InsertPost _ _ _ _ => true | _ => false end.

Definition isSelect (e : Effect) : bool :=
  match e with SelectRoom _ | SelectBans _ _ | SelectPostsOf _ => true | _ => false end.

(** [localStorage.setItem('blacksite_session', ...)] was called. *)
Definition storesSession (e : Effect) : bool :=
  match e with
  | SetItem key (SessionJSON _) => String.eqb key "blacksite_session"
  | _ => false
  end.

Definition isJoinSuccess (e : Effect) : bool :=
  match e with OnJoinSuccess _ _ => true | _ => false end.

(** The effects of uploading: storage uploads, rows of [uploads], logs. *)
Definition isUploadStep (e : Effect) : bool :=
  match e with UploadFile _ | InsertUpload _ | ConsoleError _ => true | _ => false end.

End Effects.

(** ** [isDisplayNameBanned] of [src/lib/room-utils.ts] *)

Module Bans.
Import Supabase.

(** [return !error && data && data.length > 0]; [None] when the request
    rejects, which propagates to the caller. *)
Definition isDisplayNameBanned (db : Database) (o : Outcome) (roomId displayName : string)
  : option bool :=
  match selectBans db o roomId displayName with
  | Data data => Some (negb (Nat.eqb (length data) 0))
  | Err => Some false
  | Thrown => None
  end.

End Bans.

(** ** The join dialog ([JoinRoomModal]) *)

Module JoinRoomModal.
Import JS RoomUtils Supabase Effects Bans.

Inductive Step := code | details.

Record RoomInfo := {
  title : string;
  description : option string;
  requiresPassword : bool
}.

Record State := {
  roomCode : string;
  displayName : string;
  password : string;
  isJoining : bool;
  step : Step;
  roomInfo : option RoomInfo
}.

Definition setIsJoining (b : bool) (s : State) : State :=
  {| roomCode := roomCode s; displayName := displayName s; password := password s;
     isJoining := b; step := step s; roomInfo := roomInfo s |}.

Definition setRoomInfo (i : option RoomInfo) (s : State) : State :=
  {| roomCode := roomCode s; displayName := displayName s; password := password s;
     isJoining := isJoining s; step := step s; roomInfo := i |}.

Definition setStep (st : Step) (s : State) : State :=
  {| roomCode := roomCode s; displayName := displayName s; password := password s;
     isJoining := isJoining s; step := st; roomInfo := roomInfo s |}.

(** [resetModal]: every field back to its initial value; the caller adds
    [onOpenChange(false)]. *)
Definition resetModal (s : State) : State :=
  {| roomCode := ""; displayName := ""; password := "";
     isJoining := isJoining s; step := code; roomInfo := None |}.

Definition destructive := true.

(** [validateRoomCode]; [now] is [new Date()]. *)
Definition validateRoomCode (db : Database) (o : Outcome) (now : Z) (s : State)
  : State * list Effect :=
  if negb (nonEmpty (trim (roomCode s))) then
    (s, [Toast "Room code required" destructive])
  else if negb (isValidRoomCode (roomCode s)) then
    (s, [Toast "Invalid format" destructive])
  else
    let s1 := setIsJoining true s in
    let finally := setIsJoining false in
    match selectRoomByCode db o (roomCode s) with
    | Thrown =>
        (finally s1,
         [SelectRoom (roomCode s); ConsoleError "Error validating room:";
          Toast "Error" destructive])
    | Err =>
        (finally s1, [SelectRoom (roomCode s); Toast "Room not found" destructive])
    | Data roomData =>
        if match expiry_at roomData with
           | Some t => (t <? now)%Z
           | None => false
           end
        then
          (finally s1, [SelectRoom (roomCode s); Toast "Room expired" destructive])
        else
          (finally
             (setStep details
                (setRoomInfo
                   (Some {| title := room_title roomData;
                            description := room_description roomData;
                            requiresPassword := truthy (password_hash roomData) |})
                   s1)),
           [SelectRoom (roomCode s)])
    end.

(** [roomInfo?.requiresPassword] *)
Definition roomInfoRequiresPassword (s : State) : bool :=
  match roomInfo s with
  | Some i => requiresPassword i
  | None => false
  end.

Section JoinRoom.
(** [hashString]: the hex SHA-256 digest of its argument. *)
Variable hashString : string -> string.
(** Whether the [onJoinSuccess] prop was supplied. *)
Variable hasOnJoinSuccess : bool.

(** The tail of [joinRoom], from the ban check on. *)
Definition joinRoom_fromBanCheck (db : Database) (oBans : Outcome) (now : Z)
    (s s1 : State) (roomData : RoomRow) (formattedName : string)
  : State * list Effect :=
  let finally := setIsJoining false in
  match isDisplayNameBanned db oBans (room_id roomData) formattedName with
  | None =>
      (finally s1,
       [SelectBans (room_id roomData) formattedName;
        ConsoleError "Error joining room:"; Toast "Error joining room" destructive])
  | Some isBanned =>
      if isBanned then
        (finally s1,
         [SelectBans (room_id roomData) formattedName;
          Toast "Display name banned" destructive])
      else
        (finally (resetModal s1),
         [SelectBans (room_id roomData) formattedName;
          SetItem "blacksite_session"
            (SessionJSON {| session_roomCode := roomCode s;
                            session_displayName := formattedName;
                            session_joinedAt := now |});
          Toast "Joined room successfully!" false]
         ++ (if hasOnJoinSuccess then [OnJoinSuccess (roomCode s) formattedName] else [])
         ++ [OnOpenChange false])
  end.

(** [joinRoom]; [oRoom] and [oBans] are the fates of its two requests. *)
Definition joinRoom (db : Database) (oRoom oBans : Outcome) (now : Z) (s : State)
  : State * list Effect :=
  let formattedName := formatDisplayName (displayName s) in
  if negb (nonEmpty formattedName) then
    (s, [Toast "Display name required" destructive])
  else if roomInfoRequiresPassword s && negb (nonEmpty (trim (password s))) then
    (s, [Toast "Password required" destructive])
  else
    let s1 := setIsJoining true s in
    let finally := setIsJoining false in
    match selectRoomByCode db oRoom (roomCode s) with
    | Thrown =>
        (finally s1,
         [SelectRoom (roomCode s); ConsoleError "Error joining room:";
          Toast "Error joining room" destructive])
    | Err =>
        (finally s1, [SelectRoom (roomCode s); Toast "Room not found" destructive])
    | Data roomData =>
        if truthy (password_hash roomData) && nonEmpty (password s)
           && negb (strictEq (Some (hashString (password s))) (password_hash roomData))
        then
          (finally s1,
           [SelectRoom (roomCode s); Toast "Incorrect password" destructive])
        else
          let '(s', effects) :=
            joinRoom_fromBanCheck db oBans now s s1 roomData formattedName in
          (s', SelectRoom (roomCode s) :: effects)
    end.
End JoinRoom.

End JoinRoomModal.

(** ** The inline join gate of [RoomPage] *)

Module RoomPage.
Import JS RoomUtils Effects.

Record PageSession := {
  displayName : string;
  isOwner : bool;
  ownerToken : option string
}.

Record State := {
  joinName : string;
  joining : bool;
  session : option PageSession
}.

(** [localStorage.getItem(key)] for a key holding a plain string. *)
Definition getItem (ls : gmap string Stored) (key : string) : option string :=
  match ls !! key with
  | Some (Plain v) => Some v
  | _ => None
  end.

(** [ownerData || undefined] *)
Definition orUndefined (o : option string) : option string :=
  if truthy o then o else None.

(** The [onClick] handler of the join button shown when there is no
    session; [roomCode] is the route parameter, [ls] the local storage. *)
Definition joinClick (roomCode : string) (ls : gmap string Stored) (now : Z) (s : State)
  : State * list Effect :=
  let name := formatDisplayName (joinName s) in
  if negb (nonEmpty name) then (s, [])
  else
    let stored := SessionJSON {| session_roomCode := roomCode;
                                 session_displayName := name;
                                 session_joinedAt := now |} in
    let ls' := <["blacksite_session" := stored]> ls in
    let ownerData := getItem ls' ("blacksite_owner_" +:+ roomCode) in
    ({| joinName := joinName s;
        joining := false;
        session := Some {| displayName := name;
                           isOwner := truthy ownerData;
                           ownerToken := orUndefined ownerData |} |},
     [SetItem "blacksite_session" stored; Toast "Welcome" false]).

End RoomPage.

(** ** The room hook ([useRoom]): comment threading and post loading *)

Module UseRoom.
Import JS Supabase Effects.

(** An object of [commentMap]: the fields of the comment and its [replies]
    array. The arrays hold references to objects of [commentMap]; every
    object lives in the map under its id from the end of the first pass
    on, so a reference is the id it is stored under. *)
Record Node := {
  comment : Comment;
  replies : list string
}.

(** What [organizeComments] returns: the array of root references and
    the objects they lead to. *)
Record Forest := {
  rootComments : list string;
  commentMap : gmap string Node
}.

(** First pass: [commentMap.set(comment.id, { ...comment, replies: [] })]. *)
Definition firstPass (flatComments : list Comment) : gmap string Node :=
  fold_left (fun m c => <[id c := {| comment := c; replies := [] |}]> m)
    flatComments ∅.

(** [parent.replies.push(ref)] on the object stored under [p]. *)
Definition pushReply (p ref : string) (m : gmap string Node) : gmap string Node :=
  match m !! p with
  | Some parent =>
      <[p := {| comment := comment parent; replies := replies parent ++ [ref] |}]> m
  | None => m
  end.

(** Second pass, one comment. *)
Definition secondPass_step (st : gmap string Node * list string) (c : Comment)
  : gmap string Node * list string :=
  let '(m, roots) := st in
  let commentWithReplies := id c in
  if truthy (parent_comment_id c) then
    match parent_comment_id c with
    | Some p => (pushReply p commentWithReplies m, roots)
    | None => (m, roots)
    end
  else (m, roots ++ [commentWithReplies]).

(** [new Date(x.created_at).getTime()] of the object behind a reference. *)
Definition timeOf (m : gmap string Node) (ref : string) : Z :=
  match m !! ref with
  | Some n => created_at (comment n)
  | None => 0
  end.

Definition organizeComments (flatComments : list Comment) : Forest :=
  let '(m, roots) :=
    fold_left secondPass_step flatComments (firstPass flatComments, []) in
  {| rootComments := JSArray.sort (fun a b => (timeOf m a - timeOf m b)%Z) roots;
     commentMap := m |}.

(** *** Reading the result as a tree *)

(** The [replies] array behind a reference. *)
Definition repliesOf (f : Forest) (ref : string) : list string :=
  match commentMap f !! ref with
  | Some n => replies n
  | None => []
  end.

(** The references at depth [d] of the returned tree, left to right:
    depth 0 is the returned array, depth [d + 1] the concatenation of the
    [replies] arrays of depth [d]. *)
Fixpoint level (f : Forest) (d : nat) : list string :=
  match d with
  | O => rootComments f
  | S d' => flat_map (repliesOf f) (level f d')
  end.

(** Number of places of the tree, at depth [d], holding the comment [k]. *)
Definition occurrences (f : Forest) (d : nat) (k : string) : nat :=
  count_occ string_dec (level f d) k.

(** *** Loading posts *)

Record Room := {
  r_id : string;
  r_code : string;
  r_title : string
}.

(** A processed post: the row, [media] forced to an array,
    [comment_count] and the threaded [comments]. *)
Record Post := {
  row : PostRow;
  media : list string;
  comment_count : nat;
  post_comments : Forest
}.

Record State := {
  room : option Room;
  posts : list Post;
  loading : bool;
  error : option string
}.

Definition setPosts (l : list Post) (s : State) : State :=
  {| room := room s; posts := l; loading := loading s; error := error s |}.

Definition processPost (r : PostRow * list Comment) : Post :=
  let '(post, comments) := r in
  {| row := post;
     media := match post_media post with Some a => a | None => [] end;
     comment_count := length comments;
     post_comments := organizeComments comments |}.

Definition loadPosts (db : Database) (o : Outcome) (roomId : string) (s : State)
  : State * list Effect :=
  match selectPosts db o roomId with
  | Thrown => (s, [SelectPostsOf roomId; ConsoleError "Failed to load posts:"])
  | Err => (s, [SelectPostsOf roomId; ConsoleError "Error loading posts:"])
  | Data postsData => (setPosts (map processPost postsData) s, [SelectPostsOf roomId])
  end.

End UseRoom.

(** ** The post composer ([PostComposer], plain-text version) *)

Module PostComposer.
Import JS Supabase Effects.

Record File := {
  name : string;
  type : string;
  size : Z
}.

Record Uploaded := {
  url : string;
  kind : string;      (* "image" | "video" *)
  up_size : Z;
  mime : string
}.

Record State := {
  content : string;
  files : list File;
  isPosting : bool
}.

Definition setIsPosting (b : bool) (s : State) : State :=
  {| content := content s; files := files s; isPosting := b |}.

(** [setContent(""); setFiles([])] *)
Definition clearComposer (s : State) : State :=
  {| content := ""; files := []; isPosting := isPosting s |}.

(** [name.split(".").pop()] *)
Fixpoint hasDot (s : string) : bool :=
  match s with
  | String c s' => (if ascii_dec c "."%char then true else false) || hasDot s'
  | EmptyString => false
  end.

Fixpoint lastDotSegment (s : string) : string :=
  match s with
  | String c s' =>
      if hasDot s' then lastDotSegment s'
      else if ascii_dec c "."%char then s' else s
  | EmptyString => EmptyString
  end.

(** [toLowerCase] on code units below 256. *)
Definition lowerChar (c : ascii) : ascii :=
  let n := nat_of_ascii c in
  if (Nat.leb 65 n && Nat.leb n 90)
     || (Nat.leb 192 n && Nat.leb n 222 && negb (Nat.eqb n 215))
  then ascii_of_nat (n + 32) else c.

Fixpoint toLowerCase (s : string) : string :=
  match s with
  | String c s' => String (lowerChar c) (toLowerCase s')
  | EmptyString => EmptyString
  end.

Section Handlers.
(** Props. *)
Variable roomId displayName : string.
Variable hasOnPostCreated : bool.
(** The environment: the id drawn for the [i]-th file, the public URL
    of a storage path, and the fates of the [i]-th storage upload, of
    the [i]-th insert into [uploads] and of the insert into [posts]. *)
Variable fileId : nat -> string.
Variable getPublicUrl : string -> string.
Variable uploadOutcome recordOutcome : nat -> Outcome.
Variable insertOutcome : Outcome.

(** The loop of [uploadSelectedFiles]; [None] when it throws. *)
Fixpoint uploadLoop (i : nat) (fs : list File) (uploaded : list Uploaded)
  : option (list Uploaded) * list Effect :=
  match fs with
  | [] => (Some uploaded, [])
  | f :: fs' =>
      let ext := toLowerCase (lastDotSegment (name f)) in
      let path := roomId +:+ "/" +:+ fileId i +:+ "." +:+ ext in
      match uploadOutcome i with
      | Served =>
          let publicUrl := getPublicUrl path in
          let item := {| url := publicUrl;
                         kind := if String.prefix "image/" (type f) then "image" else "video";
                         up_size := size f;
                         mime := type f |} in
          match recordOutcome i with
          | Crashed => (None, [UploadFile path; InsertUpload publicUrl])
          | _ =>
              let '(r, effects) := uploadLoop (S i) fs' (uploaded ++ [item]) in
              (r, UploadFile path :: InsertUpload publicUrl :: effects)
          end
      | Refused => (None, [UploadFile path; ConsoleError "Upload error"])
      | Crashed => (None, [UploadFile path])
      end
  end.

Definition uploadSelectedFiles (s : State) : option (list Uploaded) * list Effect :=
  uploadLoop 0 (files s) [].

Definition handlePost (s : State) : State * list Effect :=
  if negb (nonEmpty (trim (content s))) && Nat.eqb (length (files s)) 0 then
    (s, [Toast "Content required" true])
  else
    let s1 := setIsPosting true s in
    let finally := setIsPosting false in
    let caught := [ConsoleError "Error creating post:"; Toast "Error" true] in
    match uploadSelectedFiles s with
    | (None, effects) => (finally s1, effects ++ caught)
    | (Some mediaUploads, effects) =>
        let insert :=
          InsertPost roomId displayName (trim (content s))
            (map (fun m => (url m, kind m, up_size m)) mediaUploads) in
        match insertOutcome with
        | Served =>
            (finally (clearComposer s1),
             effects ++ [insert]
             ++ (if hasOnPostCreated then [OnPostCreated] else [])
             ++ [Toast "Post created" false])
        | _ => (finally s1, effects ++ [insert] ++ caught)
        end
    end.
End Handlers.

End PostComposer.

(** ** The wording of the specification, for comparison with the code *)

Module Spec.
Import JS Supabase UseRoom.

(** "uppercase letters A-Z and digits 0-9" *)
Definition isUpperOrDigit (c : ascii) : Prop :=
  (65 <= nat_of_ascii c <= 90) \/ (48 <= nat_of_ascii c <= 57).

(** "exactly four such characters, then a hyphen, then four more" *)
Definition roomCodeShape (s : string) : Prop :=
  exists a b : list ascii,
    s = string_of_list_ascii a +:+ "-" +:+ string_of_list_ascii b
    /\ length a = 4 /\ length b = 4
    /\ Forall isUpperOrDigit a /\ Forall isUpperOrDigit b.

(** "appears exactly once in the tree", "is dropped from the output" *)
Definition appearsExactlyOnce (f : Forest) (k : string) : Prop :=
  exists d, occurrences f d k = 1 /\ forall d', d' <> d -> occurrences f d' k = 0.

Definition absent (f : Forest) (k : string) : Prop :=
  forall d, occurrences f d k = 0.

(** Every comment in a root comment's [replies] has empty [replies]. *)
Definition singleLevel (f : Forest) : Prop :=
  forall root reply,
    In root (rootComments f) -> In reply (repliesOf f root) -> repliesOf f reply = [].

(** The comment of the flat list with a given id. *)
Definition findComment (flatComments : list Comment) (k : string) : option Comment :=
  find (fun c => String.eqb (id c) k) flatComments.

(** [reachesRoot flat d k]: following [parent_comment_id] from the comment
    [k] through comments of the list, [d] steps lead to a comment without
    a parent. *)
Fixpoint reachesRoot (flatComments : list Comment) (d : nat) (k : string) : bool :=
  match findComment flatComments k with
  | None => false
  | Some c =>
      match d with
      | O => negb (truthy (parent_comment_id c))
      | S d' =>
          truthy (parent_comment_id c)
          && match parent_comment_id c with
             | Some p => reachesRoot flatComments d' p
             | None => false
             end
      end
  end.

(** The comments of the flat list that the second pass pushes onto the
    [replies] of [k], and those it pushes onto [rootComments]. *)
Definition isChildOf (k : string) (c : Comment) : bool :=
  truthy (parent_comment_id c)
  && strictEq (parent_comment_id c) (Some k).

Definition childrenOf (flatComments : list Comment) (k : string) : list string :=
  map id (List.filter (isChildOf k) flatComments).

Definition isRoot (c : Comment) : bool :=
  negb (truthy (parent_comment_id c)).

Definition rootsOf (flatComments : list Comment) : list string :=
  map id (List.filter isRoot flatComments).

(** "parent_comment_id equals the id of some comment in the list" *)
Definition parentInList (flatComments : list Comment) (c : Comment) : Prop :=
  exists d, In d flatComments /\ parent_comment_id c = Some (id d).

(** No comment of the list is a reply to a reply. *)
Definition repliesOnlyToRoots (flatComments : list Comment) : Prop :=
  forall c d, In c flatComments -> In d flatComments ->
    truthy (parent_comment_id c) = true ->
    parent_comment_id c = Some (id d) ->
    truthy (parent_comment_id d) = false.

(** Every draw of [Math.random()] made by the loop lies in [0, 1). *)
Definition unitDraws (random : nat -> Q) : Prop :=
  forall i, i < 8 -> (0 <= random i)%Q /\ (random i < 1)%Q.

(** The characters that are easy to confuse. *)
Definition confusable : list ascii := ["O"; "0"; "I"; "1"]%char.

Fixpoint containsChar (c : ascii) (s : string) : bool :=
  match s with
  | String c' s' => (if ascii_dec c c' then true else false) || containsChar c s'
  | EmptyString => false
  end.

End Spec.

(** ** [calculateExpiry] of [src/lib/room-utils.ts] *)

Module Expiry.
Import JS.

(** A [Date] object: a time value, or the invalid date (time value NaN).
    [new Date(x)] is valid for [|x| <= 8.64e15]; below that bound every
    integer, product and sum computed here is exact in double precision,
    and above it the result is invalid whatever the rounding. *)
Inductive JSDate :=
| ValidDate (t : Z)
| InvalidDate.

Definition maxTime : Z := 8640000000000000.

Definition newDate (x : Z) : JSDate :=
  if (Z.abs x <=? maxTime)%Z then ValidDate x else InvalidDate.

(** [\d] and [[hd]] *)
Definition isDigit (c : ascii) : bool := inRange c ("0"%char, "9"%char).
Definition isUnit (c : ascii) : bool :=
  (if ascii_dec c "h" then true else false) || (if ascii_dec c "d" then true else false).

(** [\d*[hd]$] from the start of [s]: the digits and the unit. *)
Fixpoint digitsThenUnit (s : string) : option (string * ascii) :=
  match s with
  | EmptyString => None
  | String c EmptyString => if isUnit c then Some (EmptyString, c) else None
  | String c rest =>
      if isDigit c then
        match digitsThenUnit rest with
        | Some (ds, u) => Some (String c ds, u)
        | None => None
        end
      else None
  end.

(** [expiryOption.match(/^(\d+)([hd])$/)]: the two groups. *)
Definition matchExpiry (s : string) : option (string * ascii) :=
  match digitsThenUnit s with
  | Some (ds, u) => if nonEmpty ds then Some (ds, u) else None
  | None => None
  end.

(** [parseInt] on a string of decimal digits. *)
Definition digitValue (c : ascii) : Z := (Z.of_nat (nat_of_ascii c) - 48)%Z.

Fixpoint parseDigits (acc : Z) (ds : string) : Z :=
  match ds with
  | String c ds' => parseDigits (acc * 10 + digitValue c)%Z ds'
  | EmptyString => acc
  end.

Definition parseInt (ds : string) : Z := parseDigits 0 ds.

(** [calculateExpiry(expiryOption)]; [now] is [new Date().getTime()]. *)
Definition calculateExpiry (now : Z) (expiryOption : string) : option JSDate :=
  if String.eqb expiryOption "never" then None
  else
    match matchExpiry expiryOption with
    | None => None
    | Some (digits, unit) =>
        let value := parseInt digits in
        if ascii_dec unit "h" then Some (newDate (now + value * 60 * 60 * 1000)%Z)
        else if ascii_dec unit "d" then Some (newDate (now + value * 24 * 60 * 60 * 1000)%Z)
        else None
    end.

End Expiry.

(** ** The room-code input of the join dialog ([formatRoomCode]) *)

Module RoomCodeInput.
Import JS RoomUtils JoinRoomModal.

(** [value.replace(/[^A-Z0-9]/g, '')] *)
Fixpoint keepUpperAlnum (s : string) : string :=
  match s with
  | String c s' =>
      if atomMatches upperAlnum c then String c (keepUpperAlnum s') else keepUpperAlnum s'
  | EmptyString => EmptyString
  end.

(** [toUpperCase] of one code unit below 256. The sharp s becomes "SS";
    the micro sign and y with diaeresis, whose capitals lie above 255,
    are kept as they are. *)
Definition upperChar (c : ascii) : string :=
  let n := nat_of_ascii c in
  if Nat.eqb n 223 then "SS"
  else if (Nat.leb 97 n && Nat.leb n 122)
          || (Nat.leb 224 n && Nat.leb n 254 && negb (Nat.eqb n 247))
       then String (ascii_of_nat (n - 32)) ""
       else String c "".

Fixpoint toUpperCase (s : string) : string :=
  match s with
  | String c s' => upperChar c +:+ toUpperCase s'
  | EmptyString => EmptyString
  end.

(** [s.slice(from, to)] for [0 <= from <= to]. *)
Definition slice (from to : nat) (s : string) : string :=
  String.substring from (to - from) s.

Definition formatRoomCode (value : string) : string :=
  let cleaned := toUpperCase (keepUpperAlnum value) in
  if Nat.leb (String.length cleaned) 4 then cleaned
  else slice 0 4 cleaned +:+ "-" +:+ slice 4 8 cleaned.

(** [handleRoomCodeChange]: the input shows what [formatRoomCode] makes
    of the typed text. *)
Definition handleRoomCodeChange (value : string) (s : State) : State :=
  {| roomCode := formatRoomCode value; displayName := displayName s;
     password := password s; isJoining := isJoining s; step := step s;
     roomInfo := roomInfo s |}.

End RoomCodeInput.

(** ** [RoomPage]: session loading, time labels, post order, expanded
    comments *)

Module RoomPageView.
Import JS RoomUtils Supabase Effects.

(** What [JSON.parse] makes of a plain string found under the session
    key: it throws (or reading a property of the result does), or yields
    an object whose [roomCode] is a string or something else and whose
    [displayName] is read as a string. *)
Inductive Parsed :=
| ParseThrows
| ParsedObject (roomCode : option string) (displayName : string).

Record Loaded := {
  page : RoomPage.State;
  storage : gmap string Stored;
  sessionLoading : bool;
  warnings : list string
}.

(** [localStorage.getItem(key)] as a truthy-or-not value: the owner token
    kept as a plain string. *)
Definition ownerDataOf (ls : gmap string Stored) (roomCode : string) : option string :=
  RoomPage.getItem ls ("blacksite_owner_" +:+ roomCode).

Definition withSession (displayName : string) (ownerData : option string)
    (s : RoomPage.State) : RoomPage.State :=
  {| RoomPage.joinName := RoomPage.joinName s;
     RoomPage.joining := RoomPage.joining s;
     RoomPage.session :=
       Some {| RoomPage.displayName := displayName;
               RoomPage.isOwner := truthy ownerData;
               RoomPage.ownerToken := RoomPage.orUndefined ownerData |} |}.

Section LoadSession.
Variable JSON_parse : string -> Parsed.

(** The effect that loads the session from [localStorage] when the page
    opens for [roomCode]. *)
Definition loadSession (roomCode : string) (ls : gmap string Stored) (s : RoomPage.State)
  : Loaded :=
  let ownerData := ownerDataOf ls roomCode in
  let unchanged := {| page := s; storage := ls; sessionLoading := false; warnings := [] |} in
  let parsed :=
    match ls !! "blacksite_session" with
    | None => None
    | Some (SessionJSON v) =>
        Some (ParsedObject (Some (session_roomCode v)) (session_displayName v))
    | Some (Plain raw) => if nonEmpty raw then Some (JSON_parse raw) else None
    end in
  match parsed with
  | None => unchanged
  | Some ParseThrows =>
      {| page := s; storage := delete "blacksite_session" ls; sessionLoading := false;
         warnings := ["Invalid session in localStorage, clearing."] |}
  | Some (ParsedObject code name) =>
      if strictEq code (Some roomCode)
      then {| page := withSession name ownerData s; storage := ls;
              sessionLoading := false; warnings := [] |}
      else unchanged
  end.
End LoadSession.

(** The local storage after the [setItem] calls of a list of effects. *)
Definition storageAfter (effects : list Effect) (ls : gmap string Stored)
  : gmap string Stored :=
  fold_left (fun m e => match e with SetItem key v => <[key := v]> m | _ => m end)
    effects ls.

(** [toggleComments]: a copy of the set with [postId] removed if it was
    there and added if it was not. *)
Definition toggleComments (postId : string) (expandedComments : gset string) : gset string :=
  if decide (postId ∈ expandedComments)
  then expandedComments ∖ {[postId]}
  else expandedComments ∪ {[postId]}.

(** [formatTimestamp]; both times are valid dates less than 2^53 ms
    apart. *)
Inductive TimeLabel :=
| JustNow
| MinutesAgo (m : Z)
| HoursAgo (h : Z)
| LocaleDate (t : Z).

Definition formatTimestamp (now timestamp : Z) : TimeLabel :=
  let diffInHours := ((now - timestamp) / (1000 * 60 * 60))%Z in
  if (diffInHours <? 1)%Z then
    let diffInMinutes := ((now - timestamp) / (1000 * 60))%Z in
    if (diffInMinutes <? 1)%Z then JustNow else MinutesAgo diffInMinutes
  else if (diffInHours <? 24)%Z then HoursAgo diffInHours
  else LocaleDate timestamp.

(** [orderedPosts]: pinned posts first. *)
Definition isPinned (p : UseRoom.Post) : bool := post_pinned (UseRoom.row p).

Definition orderedPosts (posts : list UseRoom.Post) : list UseRoom.Post :=
  List.filter isPinned posts ++ List.filter (fun p => negb (isPinned p)) posts.

End RoomPageView.

(** ** File selection of the post composer ([onPickFiles]) *)

Module FilePicker.
Import JS Effects PostComposer.

Definition MAX_IMAGE_BYTES : Z := 8 * 1024 * 1024.
Definition MAX_VIDEO_BYTES : Z := 50 * 1024 * 1024.
Definition ALLOWED_IMAGE : list string := ["image/jpeg"; "image/png"; "image/webp"].
Definition ALLOWED_VIDEO : list string := ["video/mp4"; "video/webm"].

(** [list.includes(x)] *)
Definition includes (l : list string) (x : string) : bool := existsb (String.eqb x) l.

(** The checks of the loop body: the title of the toast shown for a
    rejected file, [None] for a file that is kept. *)
Definition rejection (f : File) : option string :=
  let isImage := String.prefix "image/" (type f) in
  let isVideo := String.prefix "video/" (type f) in
  if negb isImage && negb isVideo then Some "Unsupported file"
  else if isImage && negb (includes ALLOWED_IMAGE (type f)) then Some "Unsupported image type"
  else if isVideo && negb (includes ALLOWED_VIDEO (type f)) then Some "Unsupported video type"
  else if isImage && (MAX_IMAGE_BYTES <? size f)%Z then Some "Image too large"
  else if isVideo && (MAX_VIDEO_BYTES <? size f)%Z then Some "Video too large"
  else None.

(** The loop over the incoming files: the valid ones and the toasts. *)
Fixpoint pickLoop (incoming : list File) (valid : list File) (effects : list Effect)
  : list File * list Effect :=
  match incoming with
  | [] => (valid, effects)
  | f :: rest =>
      match rejection f with
      | Some title => pickLoop rest valid (effects ++ [Toast title true])
      | None => pickLoop rest (valid ++ [f]) effects
      end
  end.

Definition onPickFiles (incoming : list File) (s : State) : State * list Effect :=
  match incoming with
  | [] => (s, [])
  | _ =>
      let '(valid, effects) := pickLoop incoming [] [] in
      ({| content := content s; files := files s ++ valid; isPosting := isPosting s |},
       effects)
  end.

End FilePicker.

(** ** The comment composer ([CommentComposer]) *)

Module CommentComposer.
Import JS Supabase.

Record State := {
  content : string;
  isPosting : bool
}.

Inductive Effect :=
| Toast (title : string) (destructive : bool)
| ConsoleError (msg : string)
| InsertComment (post_id : string) (parent_comment_id : option string)
    (author_display content : string)
| OnCommentCreated.

Definition isToast (e : Effect) : bool :=
  match e with Toast _ _ => true | _ => false end.

Definition isInsertComment (e : Effect) : bool :=
  match e with InsertComment _ _ _ _ => true | _ => false end.


Section Handlers.
(** Props. *)
Variable postId : string.
Variable parentCommentId : option string.
Variable displayName : string.
Variable hasOnCommentCreated : bool.

End Handlers.


End CommentComposer.

(** ** The create dialog ([CreateRoomModal]) and [generateOwnerToken] *)

Module CreateRoomModal.
Import JS RoomUtils Supabase Expiry.

Record CreatedRoom := {
  code : string;
  ownerToken : string;
  joinUrl : string
}.

Record State := {
  title : string;
  description : string;
  password : string;
  ephemeral : bool;
  expiry : string;
  isCreating : bool;
  createdRoom : option CreatedRoom
}.

(** The object handed to [from('rooms').insert(...)]. *)
Record NewRoom := {
  new_code : string;
  new_title : string;
  new_description : option string;
  new_owner_token_hash : string;
  new_is_ephemeral : bool;
  new_expiry_at : option Z;
  new_password_hash : option string
}.

Inductive Effect :=
| Common (e : Effects.Effect)
| InsertRoom (r : NewRoom)
| Navigate (url : string).

Definition common (l : list Effects.Effect) : list Effect := map Common l.

(** The effects on [localStorage], toasts and logs among a list. *)
Fixpoint commonOf (l : list Effect) : list Effects.Effect :=
  match l with
  | Common e :: l' => e :: commonOf l'
  | _ :: l' => commonOf l'
  | [] => []
  end.

Definition setIsCreating (b : bool) (s : State) : State :=
  {| title := title s; description := description s; password := password s;
     ephemeral := ephemeral s; expiry := expiry s; isCreating := b;
     createdRoom := createdRoom s |}.

(** [generateOwnerToken]: [r36] is [Math.random().toString(36).substring(2)],
    [dateNow] is [Date.now()]. *)
Definition generateOwnerToken (r36 : string) (dateNow : Z) : string :=
  "owner_" +:+ r36 +:+ "_" +:+ pretty dateNow.

(** [expiryAt?.toISOString() || null]: the stored time; [toISOString]
    throws on an invalid date. *)
Definition expiryColumn (expiryAt : option JSDate) : option (option Z) :=
  match expiryAt with
  | None => Some None
  | Some (ValidDate t) => Some (Some t)
  | Some InvalidDate => None
  end.

(** [description.trim() || null] *)
Definition orNullString (s : string) : option string :=
  if nonEmpty s then Some s else None.

Section Handlers.
Variable hashString : string -> string.
(** The environment: the draws of [Math.random()] ([8 k + i] is draw [i]
    of the [k]-th code), the fate of the [k]-th uniqueness lookup and of
    the insert, the two values behind the owner token, the clock read by
    [calculateExpiry] and [window.location.origin]. *)
Variable random : nat -> Q.
Variable lookupOutcome : nat -> Outcome.
Variable insertOutcome : Outcome.
Variable r36 : string.
Variable dateNow : Z.
Variable now : Z.
Variable origin : string.

(** Whether a room with that code is stored. *)
Definition codeStored (db : Database) (roomCode : string) : bool :=
  existsb (fun r => String.eqb (room_code r) roomCode) (rooms db).

(** The loop [do { roomCode = generateRoomCode(); ... } while (codeExists)]
    from its [k]-th turn, at most [fuel] turns: the code it ends with
    ([None] inside when the lookup rejects) and the lookups it sent;
    [None] when [fuel] turns did not end it. *)
Fixpoint uniqueCode (fuel k : nat) (db : Database)
  : option (option string * list Effects.Effect) :=
  match fuel with
  | O => None
  | S fuel' =>
      let roomCode := generateRoomCode (fun i => random (8 * k + i)) in
      match lookupOutcome k with
      | Crashed => Some (None, [Effects.SelectRoom roomCode])
      | Refused => Some (Some roomCode, [Effects.SelectRoom roomCode])
      | Served =>
          if codeStored db roomCode then
            match uniqueCode fuel' (S k) db with
            | Some (r, effects) => Some (r, Effects.SelectRoom roomCode :: effects)
            | None => None
            end
          else Some (Some roomCode, [Effects.SelectRoom roomCode])
      end
  end.

(** The answer to the insert: the [code] column is UNIQUE. *)
Definition insertAccepted (db : Database) (r : NewRoom) : bool :=
  match insertOutcome with
  | Served => negb (codeStored db (new_code r))
  | _ => false
  end.

Definition handleCreate (fuel : nat) (db : Database) (s : State)
  : option (State * list Effect) :=
  if negb (nonEmpty (trim (title s))) then
    Some (s, common [Effects.Toast "Title required" true])
  else
    let finally := setIsCreating false in
    let caught := common [Effects.ConsoleError "Error creating room:";
                          Effects.Toast "Error creating room" true] in
    match uniqueCode fuel 0 db with
    | None => None
    | Some (None, lookups) => Some (finally s, common lookups ++ caught)
    | Some (Some roomCode, lookups) =>
        let ownerToken := generateOwnerToken r36 dateNow in
        let ownerTokenHash := hashString ownerToken in
        let expiryAt := calculateExpiry now (expiry s) in
        let passwordHash :=
          if nonEmpty (password s) then Some (hashString (password s)) else None in
        match expiryColumn expiryAt with
        | None => Some (finally s, common lookups ++ caught)
        | Some expiry_at =>
            let r := {| new_code := roomCode;
                        new_title := trim (title s);
                        new_description := orNullString (trim (description s));
                        new_owner_token_hash := ownerTokenHash;
                        new_is_ephemeral := ephemeral s;
                        new_expiry_at := expiry_at;
                        new_password_hash := passwordHash |} in
            if insertAccepted db r then
              let joinUrl := origin +:+ "/#/room/" +:+ roomCode in
              Some ({| title := title s; description := description s;
                       password := password s; ephemeral := ephemeral s;
                       expiry := expiry s; isCreating := false;
                       createdRoom := Some {| code := roomCode; ownerToken := ownerToken;
                                              joinUrl := joinUrl |} |},
                    common lookups
                    ++ [InsertRoom r]
                    ++ common [Effects.SetItem ("blacksite_owner_" +:+ roomCode)
                                 (Effects.Plain ownerToken);
                               Effects.Toast "Room created successfully!" false])
            else Some (finally s, common lookups ++ [InsertRoom r] ++ caught)
        end
    end.
End Handlers.

(** The "Open Room" button, shown once [createdRoom] is set. *)
Definition openRoom (clock : Z) (created : CreatedRoom) : list Effect :=
  [Common (Effects.SetItem "blacksite_session"
             (Effects.SessionJSON {| Effects.session_roomCode := code created;
                                     Effects.session_displayName := "Room Creator";
                                     Effects.session_joinedAt := clock |}));
   Navigate (joinUrl created)].

(** The row the database keeps for an accepted insert: it supplies the
    id and the creation time. *)
Definition roomRow (newId : string) (createdAt : Z) (r : NewRoom) : RoomRow :=
  {| room_id := newId; room_code := new_code r; room_title := new_title r;
     room_description := new_description r;
     owner_token_hash := new_owner_token_hash r;
     is_ephemeral := new_is_ephemeral r; expiry_at := new_expiry_at r;
     password_hash := new_password_hash r; room_created_at := createdAt |}.

Definition withRoom (db : Database) (row : RoomRow) : Database :=
  {| rooms := rooms db ++ [row]; posts := posts db; comments := comments db;
     bans := bans db; db_now := db_now db |}.

End CreateRoomModal.

(** * Properties *)

(** ** Room codes *)

Section RoomCodeFacts.
Import JS RoomUtils Spec.

Lemma append_cons c (s t : string) : String c s +:+ t = String c (s +:+ t).
Proof. reflexivity. Qed.

Lemma append_nil (t : string) : "" +:+ t = t.
Proof. reflexivity. Qed.

Lemma append_empty_r (s : string) : s +:+ "" = s.
Proof.
  induction s as [|c s IH]; [reflexivity|].
  rewrite append_cons, IH. reflexivity.
Qed.

Lemma matchRep_Some a n s rest :
  matchRep a n s = Some rest ->
  exists pre, length pre = n /\ Forall (fun c => atomMatches a c = true) pre
              /\ s = string_of_list_ascii pre +:+ rest.
Proof.
  revert s. induction n as [|n IH]; intros s H; simpl in H.
  - exists []. injection H as ->. repeat split. constructor.
  - destruct s as [|c s]; [discriminate|].
    destruct (atomMatches a c) eqn:Hc; [|discriminate].
    destruct (IH _ H) as (pre & Hlen & Hall & ->).
    exists (c :: pre). cbn [length string_of_list_ascii]. rewrite append_cons.
    repeat split; [now rewrite Hlen | now constructor].
Qed.

Lemma matchRep_prepend a pre rest :
  Forall (fun c => atomMatches a c = true) pre ->
  matchRep a (length pre) (string_of_list_ascii pre +:+ rest) = Some rest.
Proof.
  induction 1 as [|c pre Hc _ IH]; [reflexivity|].
  cbn [length string_of_list_ascii]. rewrite append_cons. cbn [matchRep].
  now rewrite Hc.
Qed.

Lemma upperAlnum_spec c : atomMatches upperAlnum c = true <-> isUpperOrDigit c.
Proof.
  unfold isUpperOrDigit, upperAlnum, atomMatches, inRange. cbn [existsb fst snd].
  change (nat_of_ascii "A") with 65. change (nat_of_ascii "Z") with 90.
  change (nat_of_ascii "0") with 48. change (nat_of_ascii "9") with 57.
  rewrite orb_false_r, orb_true_iff, !andb_true_iff, !Nat.leb_le. tauto.
Qed.

Lemma hyphen_spec c : atomMatches (Lit "-") c = true <-> c = "-"%char.
Proof.
  simpl. destruct (ascii_dec c "-"); split; intros; congruence.
Qed.

Lemma isValidRoomCode_shape s : isValidRoomCode s = true <-> roomCodeShape s.
Proof.
  unfold isValidRoomCode, roomCodeRegex, roomCodeShape. split.
  - cbn [matchAnchored]. intros H.
    destruct (matchRep upperAlnum 4 s) as [r1|] eqn:H1; [|discriminate].
    destruct (matchRep (Lit "-") 1 r1) as [r2|] eqn:H2; [|discriminate].
    destruct (matchRep upperAlnum 4 r2) as [r3|] eqn:H3; [|discriminate].
    destruct r3; [|discriminate].
    apply matchRep_Some in H1 as (a & Ha & Fa & ->).
    apply matchRep_Some in H2 as (h & Hh & Fh & ->).
    apply matchRep_Some in H3 as (b & Hb & Fb & ->).
    destruct h as [|c [|? ?]]; try discriminate.
    apply Forall_inv in Fh. apply hyphen_spec in Fh. subst c.
    exists a, b. cbn [string_of_list_ascii]. rewrite append_cons, append_nil, append_empty_r.
    repeat split; try assumption.
    + eapply Forall_impl; [exact Fa|]. intros c. apply upperAlnum_spec.
    + eapply Forall_impl; [exact Fb|]. intros c. apply upperAlnum_spec.
  - intros (a & b & -> & Ha & Hb & Fa & Fb).
    assert (Fa' : Forall (fun c => atomMatches upperAlnum c = true) a)
      by (eapply Forall_impl; [exact Fa|]; intros c; apply upperAlnum_spec).
    assert (Fb' : Forall (fun c => atomMatches upperAlnum c = true) b)
      by (eapply Forall_impl; [exact Fb|]; intros c; apply upperAlnum_spec).
    cbn [matchAnchored].
    pose proof (matchRep_prepend upperAlnum a ("-" +:+ string_of_list_ascii b) Fa') as Ea.
    pose proof (matchRep_prepend upperAlnum b "" Fb') as Eb.
    rewrite Ha in Ea. rewrite Hb, append_empty_r in Eb.
    assert (Eh : matchRep (Lit "-") 1 (String "-" (string_of_list_ascii b))
                 = Some (string_of_list_ascii b))
      by (cbn [matchRep atomMatches]; destruct (ascii_dec "-" "-"); congruence).
    rewrite Ea, append_cons, append_nil, Eh, Eb. reflexivity.
Qed.

End RoomCodeFacts.

Section GenerateRoomCodeFacts.
Import JS RoomUtils Spec.

Lemma randomIndex_range r :
  (0 <= r)%Q -> (r < 1)%Q -> (0 <= randomIndex r < 33)%Z.
Proof.
  intros H0 H1. unfold randomIndex.
  change (Z.of_nat (String.length chars)) with 33%Z. split.
  - rewrite <- (Qfloor_Z 0). apply Qfloor_resp_le.
    apply Qmult_le_0_compat; [assumption | discriminate].
  - rewrite Zlt_Qlt. eapply Qle_lt_trans; [apply Qfloor_le|].
    destruct r as [n d]. unfold Qlt, Qmult, inject_Z in *. simpl in *. lia.
Qed.

Lemma alphabet_upperAlnum c :
  In c (list_ascii_of_string chars) -> atomMatches upperAlnum c = true.
Proof.
  assert (H : forallb (atomMatches upperAlnum) (list_ascii_of_string chars) = true)
    by reflexivity.
  rewrite forallb_forall in H. apply H.
Qed.

Lemma alphabet_not_O_0_1 c :
  In c (list_ascii_of_string chars) -> c <> "O"%char /\ c <> "0"%char /\ c <> "1"%char.
Proof.
  assert (H : forallb (fun c => negb (Ascii.eqb c "O") && negb (Ascii.eqb c "0")
                                && negb (Ascii.eqb c "1"))
                (list_ascii_of_string chars) = true) by reflexivity.
  rewrite forallb_forall in H. intros Hc. specialize (H c Hc).
  rewrite !andb_true_iff, !negb_true_iff, !Ascii.eqb_neq in H. tauto.
Qed.

Lemma charAt_chars i :
  (0 <= i < 33)%Z ->
  exists c, charAt chars i = String c "" /\ In c (list_ascii_of_string chars).
Proof.
  intros Hi. unfold charAt.
  destruct (i <? 0)%Z eqn:Hneg; [apply Z.ltb_lt in Hneg; lia|].
  assert (Hall : forallb (fun n => match String.get n chars with
                                   | Some c => existsb (Ascii.eqb c) (list_ascii_of_string chars)
                                   | None => false
                                   end) (seq 0 33) = true) by reflexivity.
  rewrite forallb_forall in Hall.
  specialize (Hall (Z.to_nat i)). rewrite in_seq in Hall.
  destruct (String.get (Z.to_nat i) chars) as [c|].
  - exists c. split; [reflexivity|].
    assert (Hex : existsb (Ascii.eqb c) (list_ascii_of_string chars) = true)
      by (apply Hall; lia).
    apply existsb_exists in Hex as (c' & Hin & Heq).
    apply Ascii.eqb_eq in Heq. now subst c'.
  - assert (false = true) by (apply Hall; lia). discriminate.
Qed.

Lemma generateRoomCode_form random :
  unitDraws random ->
  exists a b,
    generateRoomCode random = string_of_list_ascii a +:+ "-" +:+ string_of_list_ascii b
    /\ length a = 4 /\ length b = 4
    /\ Forall (fun c => In c (list_ascii_of_string chars)) (a ++ b).
Proof.
  intros Hr.
  assert (Hc : forall i, i < 8 ->
             exists c, charAt chars (randomIndex (random i)) = String c ""
                       /\ In c (list_ascii_of_string chars)).
  { intros i Hi. destruct (Hr i Hi). now apply charAt_chars, randomIndex_range. }
  destruct (Hc 0) as (c0 & E0 & I0); [lia|].
  destruct (Hc 1) as (c1 & E1 & I1); [lia|].
  destruct (Hc 2) as (c2 & E2 & I2); [lia|].
  destruct (Hc 3) as (c3 & E3 & I3); [lia|].
  destruct (Hc 4) as (c4 & E4 & I4); [lia|].
  destruct (Hc 5) as (c5 & E5 & I5); [lia|].
  destruct (Hc 6) as (c6 & E6 & I6); [lia|].
  destruct (Hc 7) as (c7 & E7 & I7); [lia|].
  exists [c0; c1; c2; c3], [c4; c5; c6; c7].
  unfold generateRoomCode, generateRoomCode_step. cbn [fold_left seq Nat.eqb].
  rewrite E0, E1, E2, E3, E4, E5, E6, E7.
  split; [reflexivity|]. split; [reflexivity|]. split; [reflexivity|].
  cbn [app]. repeat (constructor 2; [assumption|]). constructor 1.
Qed.

(** Every generated code passes the format check. *)
Lemma generateRoomCode_valid random :
  unitDraws random -> isValidRoomCode (generateRoomCode random) = true.
Proof.
  intros Hr. destruct (generateRoomCode_form random Hr) as (a & b & E & Ha & Hb & F).
  apply isValidRoomCode_shape. exists a, b. apply Forall_app in F as [Fa Fb].
  repeat split; try assumption.
  - eapply Forall_impl; [exact Fa|]. intros c Hc.
    now apply upperAlnum_spec, alphabet_upperAlnum.
  - eapply Forall_impl; [exact Fb|]. intros c Hc.
    now apply upperAlnum_spec, alphabet_upperAlnum.
Qed.

Lemma containsChar_false x s :
  ~ In x (list_ascii_of_string s) -> containsChar x s = false.
Proof.
  induction s as [|c s IH]; cbn [list_ascii_of_string containsChar In]; [reflexivity|].
  intros H. destruct (ascii_dec x c) as [->|_]; [tauto|]. apply IH. tauto.
Qed.

Lemma list_ascii_of_append s t :
  list_ascii_of_string (s +:+ t) = list_ascii_of_string s ++ list_ascii_of_string t.
Proof.
  induction s as [|c s IH]; [reflexivity|].
  rewrite append_cons. cbn [list_ascii_of_string app]. now rewrite IH.
Qed.

(** No generated code contains O, 0 or 1. *)
Lemma generateRoomCode_never_O_0_1 random x :
  unitDraws random -> In x ["O"; "0"; "1"]%char ->
  containsChar x (generateRoomCode random) = false.
Proof.
  intros Hr Hx. destruct (generateRoomCode_form random Hr) as (a & b & E & _ & _ & F).
  rewrite E. apply containsChar_false.
  rewrite !list_ascii_of_append, !list_ascii_of_string_of_list_ascii.
  rewrite Forall_forall in F. intros Hin.
  assert (Hx' : x <> "-"%char)
    by (cbn in Hx; destruct Hx as [<-|[<-|[<-|[]]]]; discriminate).
  assert (Hab : In x (a ++ b)).
  { apply in_app_iff in Hin as [Hin|Hin]; apply in_app_iff; [now left|].
    cbn in Hin. destruct Hin as [Hin|Hin]; [congruence | now right]. }
  apply list_elem_of_In, F, alphabet_not_O_0_1 in Hab.
  cbn in Hx. intuition congruence.
Qed.

End GenerateRoomCodeFacts.

Section RoomCodeClaims.
Import JS RoomUtils Spec Supabase Effects JoinRoomModal.

Lemma upperOrDigit_not_whiteSpace c : isUpperOrDigit c -> isWhiteSpace c = false.
Proof.
  unfold isUpperOrDigit, isWhiteSpace. intros H.
  rewrite !orb_false_iff, andb_false_iff, !Nat.leb_gt, !Nat.eqb_neq. lia.
Qed.

Lemma trimEnd_keeps_head c s : isWhiteSpace c = false -> nonEmpty (trimEnd (String c s)) = true.
Proof.
  intros Hc. cbn [trimEnd]. rewrite Hc. now destruct (trimEnd s).
Qed.

(** A code that passes the format check is not blank. *)
Lemma valid_code_not_blank s : isValidRoomCode s = true -> nonEmpty (trim s) = true.
Proof.
  intros H. apply isValidRoomCode_shape in H as (a & b & -> & Ha & _ & Fa & _).
  destruct a as [|a0 a]; [discriminate|].
  apply Forall_inv in Fa. apply upperOrDigit_not_whiteSpace in Fa.
  cbn [string_of_list_ascii]. rewrite append_cons.
  unfold trim. cbn [trimStart]. rewrite Fa. now apply trimEnd_keeps_head.
Qed.

(** C5, as stated, fails: the generated string has nine characters. *)
Lemma generateRoomCode_length_is_not_8 :
  unitDraws (fun _ => (1 # 4)%Q)
  /\ String.length (generateRoomCode (fun _ => (1 # 4)%Q)) <> 8.
Proof.
  split.
  - intros i _. split; [discriminate | reflexivity].
  - vm_compute. discriminate.
Qed.

(** C5 (amended). Every string returned by [generateRoomCode] has nine
    characters: four characters of the alphabet, a hyphen, and four more
    characters of the alphabet, that is eight code characters and one
    separator. *)
Theorem generateRoomCode_nine_characters (random : nat -> Q) :
  unitDraws random ->
  String.length (generateRoomCode random) = 9
  /\ exists a b,
       generateRoomCode random = string_of_list_ascii a +:+ "-" +:+ string_of_list_ascii b
       /\ length a = 4 /\ length b = 4
       /\ Forall (fun c => In c (list_ascii_of_string chars)) (a ++ b).
Proof.
  intros Hr. destruct (generateRoomCode_form random Hr) as (a & b & E & Ha & Hb & F).
  split; [|now exists a, b].
  rewrite E.
  destruct a as [|a0 [|a1 [|a2 [|a3 [|]]]]]; try discriminate.
  destruct b as [|b0 [|b1 [|b2 [|b3 [|]]]]]; try discriminate.
  reflexivity.
Qed.

Lemma generateRoomCode_nine_characters_witness :
  String.length (generateRoomCode (fun _ => (1 # 4)%Q)) = 9
  /\ exists a b,
       generateRoomCode (fun _ => (1 # 4)%Q)
       = string_of_list_ascii a +:+ "-" +:+ string_of_list_ascii b
       /\ length a = 4 /\ length b = 4
       /\ Forall (fun c => In c (list_ascii_of_string chars)) (a ++ b).
Proof.
  apply (generateRoomCode_nine_characters (fun _ => (1 # 4)%Q)).
  intros i _. split; [discriminate | reflexivity].
Defined.

(** C8. [isValidRoomCode] accepts exactly the strings made of four
    characters among A-Z and 0-9, a hyphen, and four more such characters;
    on any other room code [validateRoomCode] stops at its checks: it
    shows a destructive toast, sends no request and leaves the state as it
    was. *)
Theorem isValidRoomCode_iff_shape (s : string) :
  (isValidRoomCode s = true <-> roomCodeShape s)
  /\ (forall db o now st,
        roomCode st = s -> ~ roomCodeShape s ->
        validateRoomCode db o now st = (st, [Toast "Room code required" destructive])
        \/ validateRoomCode db o now st = (st, [Toast "Invalid format" destructive])).
Proof.
  split; [apply isValidRoomCode_shape|].
  intros db o now st <- Hshape. unfold validateRoomCode.
  destruct (nonEmpty (trim (roomCode st))); [|now left].
  destruct (isValidRoomCode (roomCode st)) eqn:Hv; [|now right].
  now apply isValidRoomCode_shape in Hv.
Qed.

Lemma isValidRoomCode_iff_shape_witness :
  let st := {| roomCode := "abcd-1234"; displayName := ""; password := "";
               isJoining := false; step := code; roomInfo := None |} in
  let db := {| rooms := []; posts := []; comments := []; bans := []; db_now := 0 |} in
  validateRoomCode db Served 0 st = (st, [Toast "Room code required" destructive])
  \/ validateRoomCode db Served 0 st = (st, [Toast "Invalid format" destructive]).
Proof.
  intros st db.
  apply (proj2 (isValidRoomCode_iff_shape "abcd-1234") db Served 0%Z st).
  - reflexivity.
  - intros H. apply isValidRoomCode_shape in H. discriminate H.
Defined.

(** C9, at the draw 0.25: the code makes the alphabet contain the letter
    I, so a generated code can contain a confusable character, although it
    passes the format check. *)
Theorem generateRoomCode_can_emit_I :
  unitDraws (fun _ => (1 # 4)%Q)
  /\ generateRoomCode (fun _ => (1 # 4)%Q) = "IIII-IIII"
  /\ isValidRoomCode (generateRoomCode (fun _ => (1 # 4)%Q)) = true
  /\ In "I"%char confusable
  /\ containsChar "I" (generateRoomCode (fun _ => (1 # 4)%Q)) = true.
Proof.
  split; [intros i _; split; [discriminate | reflexivity]|].
  split; [vm_compute; reflexivity|].
  split; [vm_compute; reflexivity|].
  split; [cbn; tauto | vm_compute; reflexivity].
Qed.

End RoomCodeClaims.

(** ** The join flow *)

Section JoinFlowFacts.
Import JS RoomUtils Spec Supabase Effects Bans JoinRoomModal.

Lemma trimEnd_nonEmpty s : nonEmpty (trimEnd s) = true -> nonEmpty s = true.
Proof. destruct s; [discriminate | reflexivity]. Qed.

Lemma trimStart_nonEmpty s : nonEmpty (trimStart s) = true -> nonEmpty s = true.
Proof. destruct s; [discriminate | reflexivity]. Qed.

(** A password that is not blank is not empty. *)
Lemma not_blank_nonEmpty s : nonEmpty (trim s) = true -> nonEmpty s = true.
Proof. intros H. now apply trimStart_nonEmpty, trimEnd_nonEmpty. Qed.

Lemma nonEmpty_true s : nonEmpty s = true <-> s <> "".
Proof. destruct s; simpl; split; congruence. Qed.

Lemma strictEq_Some x y : strictEq (Some x) (Some y) = true <-> x = y.
Proof. simpl. apply String.eqb_eq. Qed.

(** C4. When the room that [validateRoomCode] looks up has an [expiry_at]
    strictly before the current time, the handler reports "Room expired",
    leaves [roomInfo] as it was and does not move to the details step. *)
Theorem validateRoomCode_expired_room_blocked
    (db : Database) (o : Outcome) (now : Z) (s : State) (roomData : RoomRow) (t : Z) :
  isValidRoomCode (roomCode s) = true ->
  selectRoomByCode db o (roomCode s) = Data roomData ->
  expiry_at roomData = Some t ->
  (t < now)%Z ->
  snd (validateRoomCode db o now s)
    = [SelectRoom (roomCode s); Toast "Room expired" destructive]
  /\ roomInfo (fst (validateRoomCode db o now s)) = roomInfo s
  /\ step (fst (validateRoomCode db o now s)) = step s.
Proof.
  intros Hvalid Hsel Hexp Hlt. unfold validateRoomCode.
  rewrite (valid_code_not_blank _ Hvalid), Hvalid, Hsel, Hexp. cbn [negb].
  apply Z.ltb_lt in Hlt. rewrite Hlt. repeat split.
Qed.

Lemma validateRoomCode_expired_room_blocked_witness :
  let room := {| room_id := "r1"; room_code := "ABCD-1234"; room_title := "Retro";
                 room_description := None; owner_token_hash := "o";
                 is_ephemeral := false; expiry_at := Some 1000%Z;
                 password_hash := None; room_created_at := 0 |} in
  let db := {| rooms := [room]; posts := []; comments := []; bans := []; db_now := 2000 |} in
  let s := {| roomCode := "ABCD-1234"; displayName := ""; password := "";
              isJoining := false; step := code; roomInfo := None |} in
  snd (validateRoomCode db Served 2000 s)
    = [SelectRoom "ABCD-1234"; Toast "Room expired" destructive]
  /\ roomInfo (fst (validateRoomCode db Served 2000 s)) = None
  /\ step (fst (validateRoomCode db Served 2000 s)) = code.
Proof.
  intros room db s.
  apply (validateRoomCode_expired_room_blocked db Served 2000%Z s room 1000%Z);
    [reflexivity | reflexivity | reflexivity | lia].
Defined.

(** An expired room never reaches the details step, whatever the code
    typed and whatever the fate of the request. *)
Lemma validateRoomCode_expired_never_advances db o now s roomData t :
  selectRoomByCode db Served (roomCode s) = Data roomData ->
  expiry_at roomData = Some t -> (t < now)%Z ->
  roomInfo (fst (validateRoomCode db o now s)) = roomInfo s
  /\ step (fst (validateRoomCode db o now s)) = step s.
Proof.
  intros Hsel Hexp Hlt. unfold validateRoomCode.
  destruct (nonEmpty (trim (roomCode s))); [|now split].
  destruct (isValidRoomCode (roomCode s)); [|now split]. cbn [negb].
  unfold selectRoomByCode in *.
  destruct o; cbn [request] in *; [|now split|now split].
  rewrite Hsel, Hexp. apply Z.ltb_lt in Hlt. rewrite Hlt. now split.
Qed.

(** A successful [validateRoomCode] moves to the details step and marks
    the room as protected exactly when its [password_hash] is truthy. *)
Lemma validateRoomCode_sets_requiresPassword db o now s roomData :
  isValidRoomCode (roomCode s) = true ->
  selectRoomByCode db o (roomCode s) = Data roomData ->
  match expiry_at roomData with Some t => (t <? now)%Z | None => false end = false ->
  step (fst (validateRoomCode db o now s)) = details
  /\ roomInfoRequiresPassword (fst (validateRoomCode db o now s))
     = truthy (password_hash roomData).
Proof.
  intros Hvalid Hsel Hexp. unfold validateRoomCode.
  rewrite (valid_code_not_blank _ Hvalid), Hvalid, Hsel, Hexp. cbn [negb].
  split; reflexivity.
Qed.

(** C2, as stated, fails: the room has a password hash, the user left
    the password empty while the dialog does not mark the room as
    protected, and [joinRoom] stores the session and signals success
    without comparing any hash. *)
Lemma joinRoom_skips_check_on_empty_password :
  let hashString := fun p : string => "sha256:" +:+ p in
  let room := {| room_id := "r1"; room_code := "ABCD-1234"; room_title := "Retro";
                 room_description := None; owner_token_hash := "o";
                 is_ephemeral := false; expiry_at := None;
                 password_hash := Some "sha256:secret"; room_created_at := 0 |} in
  let db := {| rooms := [room]; posts := []; comments := []; bans := []; db_now := 0 |} in
  let s := {| roomCode := "ABCD-1234"; displayName := "eve"; password := "";
              isJoining := false; step := details;
              roomInfo := Some {| title := "Retro"; description := None;
                                  requiresPassword := false |} |} in
  let effects := snd (joinRoom hashString true db Served Served 5 s) in
  password_hash room <> None
  /\ Some (hashString (password s)) <> password_hash room
  /\ In (SetItem "blacksite_session"
           (SessionJSON {| session_roomCode := "ABCD-1234";
                           session_displayName := "eve";
                           session_joinedAt := 5 |})) effects
  /\ In (OnJoinSuccess "ABCD-1234" "eve") effects
  /\ ~ In (Toast "Incorrect password" destructive) effects.
Proof.
  cbv zeta. split; [discriminate|]. split; [discriminate|].
  vm_compute. intuition discriminate.
Qed.

(** C2 (amended). For a room whose stored [password_hash] is a non-empty
    string, when the dialog marks the room as protected
    ([roomInfo.requiresPassword]) or the supplied password is non-empty,
    [joinRoom] stores a session or calls [onJoinSuccess] only if
    [hashString] of the supplied password equals the stored hash; on a
    mismatch no session is stored and no success signalled, and when the
    display name is not empty and the password not blank the handler
    reports "Incorrect password". *)
Theorem joinRoom_password_gate
    (hashString : string -> string) (hasOnJoinSuccess : bool)
    (db : Database) (oRoom oBans : Outcome) (now : Z) (s : State)
    (roomData : RoomRow) (h : string) :
  selectRoomByCode db oRoom (roomCode s) = Data roomData ->
  password_hash roomData = Some h ->
  h <> "" ->
  roomInfoRequiresPassword s = true \/ password s <> "" ->
  let effects := snd (joinRoom hashString hasOnJoinSuccess db oRoom oBans now s) in
  (existsb storesSession effects = true \/ existsb isJoinSuccess effects = true ->
   hashString (password s) = h)
  /\ (hashString (password s) <> h ->
      existsb storesSession effects = false
      /\ existsb isJoinSuccess effects = false
      /\ (nonEmpty (formatDisplayName (displayName s)) = true ->
          nonEmpty (trim (password s)) = true ->
          effects = [SelectRoom (roomCode s); Toast "Incorrect password" destructive])).
Proof.
  intros Hsel Hhash Hh Hpw effects. subst effects. unfold joinRoom.
  destruct (nonEmpty (formatDisplayName (displayName s))) eqn:Hname; cbn [negb];
    [|cbn; intuition discriminate].
  destruct (roomInfoRequiresPassword s) eqn:Hreq; cbn [andb].
  - destruct (nonEmpty (trim (password s))) eqn:Htrim; cbn [negb];
      [|cbn; intuition discriminate].
    rewrite Hsel, Hhash. cbn [truthy]. apply nonEmpty_true in Hh. rewrite Hh.
    rewrite (not_blank_nonEmpty _ Htrim). cbn [andb].
    destruct (strictEq (Some (hashString (password s))) (Some h)) eqn:Heq; cbn [negb].
    + apply strictEq_Some in Heq. split; [intros _; exact Heq | intros Hne; contradiction].
    + cbn. split; [intuition discriminate|]. intros _. repeat split.
  - destruct Hpw as [Hpw|Hpw]; [discriminate|]. apply nonEmpty_true in Hpw.
    rewrite Hsel, Hhash. cbn [truthy]. apply nonEmpty_true in Hh. rewrite Hh, Hpw.
    cbn [andb].
    destruct (strictEq (Some (hashString (password s))) (Some h)) eqn:Heq; cbn [negb].
    + apply strictEq_Some in Heq. split; [intros _; exact Heq | intros Hne; contradiction].
    + cbn. split; [intuition discriminate|]. intros _. repeat split.
Qed.

Lemma joinRoom_password_gate_witness :
  let hashString := fun p : string => "sha256:" +:+ p in
  let room := {| room_id := "r1"; room_code := "ABCD-1234"; room_title := "Retro";
                 room_description := None; owner_token_hash := "o";
                 is_ephemeral := false; expiry_at := None;
                 password_hash := Some "sha256:secret"; room_created_at := 0 |} in
  let db := {| rooms := [room]; posts := []; comments := []; bans := []; db_now := 0 |} in
  let s := {| roomCode := "ABCD-1234"; displayName := "eve"; password := "guess";
              isJoining := false; step := details;
              roomInfo := Some {| title := "Retro"; description := None;
                                  requiresPassword := true |} |} in
  let effects := snd (joinRoom hashString true db Served Served 5 s) in
  (existsb storesSession effects = true \/ existsb isJoinSuccess effects = true ->
   hashString (password s) = "sha256:secret")
  /\ (hashString (password s) <> "sha256:secret" ->
      existsb storesSession effects = false
      /\ existsb isJoinSuccess effects = false
      /\ (nonEmpty (formatDisplayName (displayName s)) = true ->
          nonEmpty (trim (password s)) = true ->
          effects = [SelectRoom (roomCode s); Toast "Incorrect password" destructive])).
Proof.
  intros hashString room db s.
  apply (joinRoom_password_gate hashString true db Served Served 5%Z s room "sha256:secret");
    [reflexivity | reflexivity | discriminate | left; reflexivity].
Defined.

(** With the right password the same join goes through. *)
Example joinRoom_right_password_joins :
  let hashString := fun p : string => "sha256:" +:+ p in
  let room := {| room_id := "r1"; room_code := "ABCD-1234"; room_title := "Retro";
                 room_description := None; owner_token_hash := "o";
                 is_ephemeral := false; expiry_at := None;
                 password_hash := Some "sha256:secret"; room_created_at := 0 |} in
  let db := {| rooms := [room]; posts := []; comments := []; bans := []; db_now := 0 |} in
  let s := {| roomCode := "ABCD-1234"; displayName := " eve "; password := "secret";
              isJoining := false; step := details;
              roomInfo := Some {| title := "Retro"; description := None;
                                  requiresPassword := true |} |} in
  joinRoom hashString true db Served Served 5 s
  = ({| roomCode := ""; displayName := ""; password := ""; isJoining := false;
        step := code; roomInfo := None |},
     [SelectRoom "ABCD-1234"; SelectBans "r1" "eve";
      SetItem "blacksite_session"
        (SessionJSON {| session_roomCode := "ABCD-1234"; session_displayName := "eve";
                        session_joinedAt := 5 |});
      Toast "Joined room successfully!" false;
      OnJoinSuccess "ABCD-1234" "eve";
      OnOpenChange false]).
Proof. reflexivity. Qed.

End JoinFlowFacts.

Section BanFacts.
Import JS RoomUtils Spec Supabase Effects Bans JoinRoomModal.

(** An active ban row that the client can read makes
    [isDisplayNameBanned] answer [true]. *)
Lemma isDisplayNameBanned_active db roomId name b :
  In b (bans db) -> activeBan db roomId name b = true ->
  isDisplayNameBanned db Served roomId name = Some true.
Proof.
  intros Hin Hactive. unfold isDisplayNameBanned, selectBans. cbn [request].
  assert (Hf : In b (List.filter (activeBan db roomId name) (bans db)))
    by (apply filter_In; now split).
  destruct (List.filter (activeBan db roomId name) (bans db)); [destruct Hf | reflexivity].
Qed.

(** The dialog's [joinRoom] stops at a banned display name. *)
Lemma joinRoom_blocks_banned hashString hasOnJoinSuccess db oRoom oBans now s roomData :
  selectRoomByCode db oRoom (roomCode s) = Data roomData ->
  isDisplayNameBanned db oBans (room_id roomData) (formatDisplayName (displayName s))
    = Some true ->
  let effects := snd (joinRoom hashString hasOnJoinSuccess db oRoom oBans now s) in
  existsb storesSession effects = false /\ existsb isJoinSuccess effects = false.
Proof.
  intros Hsel Hban effects. subst effects. unfold joinRoom.
  destruct (nonEmpty (formatDisplayName (displayName s))); cbn [negb]; [|now split].
  destruct (roomInfoRequiresPassword s && negb (nonEmpty (trim (password s))));
    [now split|].
  rewrite Hsel.
  destruct (truthy (password_hash roomData) && nonEmpty (password s)
            && negb (strictEq (Some (hashString (password s))) (password_hash roomData)));
    [now split|].
  unfold joinRoom_fromBanCheck. rewrite Hban. now split.
Qed.

(** C3, at a banned name on the room page: the inline join gate of
    [RoomPage] stores the session of a display name for which
    [isDisplayNameBanned] answers [true], where the dialog's [joinRoom]
    on the same data stores nothing. *)
Theorem roomPage_join_ignores_ban :
  let room := {| room_id := "r1"; room_code := "ABCD-1234"; room_title := "Retro";
                 room_description := None; owner_token_hash := "o";
                 is_ephemeral := false; expiry_at := None;
                 password_hash := None; room_created_at := 0 |} in
  let ban := {| ban_id := "b1"; ban_room_id := "r1"; ban_display_name := "troll";
                ban_created_at := 0; ban_expires_at := None |} in
  let db := {| rooms := [room]; posts := []; comments := []; bans := [ban]; db_now := 1 |} in
  let page := {| RoomPage.joinName := "troll"; RoomPage.joining := false;
                 RoomPage.session := None |} in
  let modal := {| roomCode := "ABCD-1234"; displayName := "troll"; password := "";
                  isJoining := false; step := details;
                  roomInfo := Some {| title := "Retro"; description := None;
                                      requiresPassword := false |} |} in
  isDisplayNameBanned db Served "r1" (formatDisplayName "troll") = Some true
  /\ snd (RoomPage.joinClick "ABCD-1234" ∅ 5 page)
     = [SetItem "blacksite_session"
          (SessionJSON {| session_roomCode := "ABCD-1234";
                          session_displayName := "troll";
                          session_joinedAt := 5 |});
        Toast "Welcome" false]
  /\ RoomPage.session (fst (RoomPage.joinClick "ABCD-1234" ∅ 5 page))
     = Some {| RoomPage.displayName := "troll"; RoomPage.isOwner := false;
               RoomPage.ownerToken := None |}
  /\ snd (joinRoom (fun p => p) true db Served Served 5 modal)
     = [SelectRoom "ABCD-1234"; SelectBans "r1" "troll";
        Toast "Display name banned" destructive].
Proof.
  cbv zeta. repeat split; vm_compute; reflexivity.
Qed.

End BanFacts.

(** ** Sorting *)

Section SortFacts.
Context {A : Type} (cmp : A -> A -> Z).

Lemma insertSorted_perm x l : Permutation (JSArray.insertSorted cmp x l) (x :: l).
Proof.
  induction l as [|y l IH]; cbn [JSArray.insertSorted]; [reflexivity|].
  destruct (cmp y x <? 0)%Z; [|reflexivity].
  rewrite IH. apply perm_swap.
Qed.

Lemma sort_perm l : Permutation (JSArray.sort cmp l) l.
Proof.
  induction l as [|x l IH]; [reflexivity|].
  unfold JSArray.sort in *. cbn [foldr].
  rewrite insertSorted_perm. now constructor.
Qed.

Lemma sort_In x l : In x (JSArray.sort cmp l) <-> In x l.
Proof.
  split; apply Permutation_in; [apply sort_perm | symmetry; apply sort_perm].
Qed.
End SortFacts.

(** ** Loading posts *)

Section LoadPostsFacts.
Import JS Supabase Effects UseRoom.

Lemma isNull_false {A} (o : option A) : o <> None -> isNull o = false.
Proof. destruct o; [reflexivity | congruence]. Qed.

(** The query keeps only rows with [deleted_at] null. *)
Lemma postsQueryFilter_drops_deleted roomId r :
  post_deleted_at r <> None -> postsQueryFilter roomId r = false.
Proof.
  intros H. unfold postsQueryFilter. rewrite (isNull_false _ H). apply andb_false_r.
Qed.

(** The SELECT policy of [posts] hides rows with [deleted_at] set. *)
Lemma posts_select_policy_hides_deleted r :
  post_deleted_at r <> None -> posts_select_policy r = false.
Proof. intros H. unfold posts_select_policy. now apply isNull_false. Qed.

Lemma processPost_row r : row (processPost r) = r.1.
Proof. now destruct r. Qed.

(** A request that fails leaves the posts of the hook as they were. *)
Lemma loadPosts_failure_keeps_posts db o roomId s :
  o <> Served -> posts (fst (loadPosts db o roomId s)) = posts s.
Proof.
  intros Ho. unfold loadPosts, selectPosts.
  destruct o; cbn [request fst]; [contradiction | reflexivity | reflexivity].
Qed.

(** C6. A post whose [deleted_at] is set is absent from the post list
    that [loadPosts] produces: the query keeps only rows with
    [deleted_at] null, and the row-security policy of [posts] hides the
    others from every select. *)
Theorem loadPosts_hides_soft_deleted
    (db : Database) (roomId : string) (s : State) (r : PostRow) :
  post_deleted_at r <> None ->
  ~ In r (map row (posts (fst (loadPosts db Served roomId s))))
  /\ postsQueryFilter roomId r = false
  /\ posts_select_policy r = false.
Proof.
  intros Hdel.
  split; [|split; [now apply postsQueryFilter_drops_deleted
                  | now apply posts_select_policy_hides_deleted]].
  unfold loadPosts, selectPosts. cbn [request fst setPosts posts].
  rewrite !map_map. intros Hin.
  apply in_map_iff in Hin as (p & Hp & Hin). cbn in Hp. subst p.
  apply sort_In, filter_In in Hin as [_ Hq].
  rewrite (postsQueryFilter_drops_deleted _ _ Hdel) in Hq. discriminate.
Qed.

Lemma loadPosts_hides_soft_deleted_witness :
  let live := {| post_id := "p1"; post_room_id := "r1"; post_author_display := "ann";
                 post_content := "hello"; post_media := Some []; post_pinned := false;
                 post_created_at := 10; post_edited_at := None;
                 post_deleted_at := None |} in
  let gone := {| post_id := "p2"; post_room_id := "r1"; post_author_display := "bob";
                 post_content := "oops"; post_media := Some []; post_pinned := false;
                 post_created_at := 20; post_edited_at := None;
                 post_deleted_at := Some 30%Z |} in
  let db := {| rooms := []; Supabase.posts := [live; gone]; comments := [];
               bans := []; db_now := 40 |} in
  let s := {| room := None; posts := []; loading := false; error := None |} in
  ~ In gone (map row (posts (fst (loadPosts db Served "r1" s))))
  /\ postsQueryFilter "r1" gone = false
  /\ posts_select_policy gone = false.
Proof.
  intros live gone db s.
  apply (loadPosts_hides_soft_deleted db "r1" s gone). discriminate.
Defined.

(** The live post of that room is in the list. *)
Lemma loadPosts_keeps_live_example :
  let live := {| post_id := "p1"; post_room_id := "r1"; post_author_display := "ann";
                 post_content := "hello"; post_media := Some []; post_pinned := false;
                 post_created_at := 10; post_edited_at := None;
                 post_deleted_at := None |} in
  let gone := {| post_id := "p2"; post_room_id := "r1"; post_author_display := "bob";
                 post_content := "oops"; post_media := Some []; post_pinned := false;
                 post_created_at := 20; post_edited_at := None;
                 post_deleted_at := Some 30%Z |} in
  let db := {| rooms := []; Supabase.posts := [live; gone]; comments := [];
               bans := []; db_now := 40 |} in
  let s := {| room := None; posts := []; loading := false; error := None |} in
  map row (posts (fst (loadPosts db Served "r1" s))) = [live].
Proof. reflexivity. Qed.

End LoadPostsFacts.

(** ** Posting *)

Section HandlePostFacts.
Import JS Supabase Effects PostComposer.

Variable roomId displayName : string.
Variable hasOnPostCreated : bool.
Variable fileId : nat -> string.
Variable getPublicUrl : string -> string.
Variable uploadOutcome recordOutcome : nat -> Outcome.

(** [uploadSelectedFiles] only uploads, records and logs. *)
Lemma uploadLoop_steps fs : forall i uploaded,
  forallb isUploadStep
    (snd (uploadLoop roomId fileId getPublicUrl uploadOutcome recordOutcome i fs uploaded))
  = true.
Proof.
  induction fs as [|f fs IH]; intros i uploaded; cbn [uploadLoop]; [reflexivity|].
  destruct (uploadOutcome i); [|reflexivity|reflexivity].
  destruct (recordOutcome i); try reflexivity;
    match goal with
    | |- context [uploadLoop _ _ _ _ _ (S i) fs ?u] =>
        specialize (IH (S i) u);
        destruct (uploadLoop roomId fileId getPublicUrl uploadOutcome recordOutcome
                    (S i) fs u) as [r effects]
    end; exact IH.
Qed.

Lemma filter_upload_steps (p : Effect -> bool) (l : list Effect) :
  (forall e, isUploadStep e = true -> p e = false) ->
  forallb isUploadStep l = true -> List.filter p l = [].
Proof.
  intros Hp. induction l as [|e l IH]; [reflexivity|].
  cbn [forallb List.filter]. intros [He Hl]%andb_true_iff.
  rewrite (Hp e He). now apply IH.
Qed.

(** C7. When [handlePost] sends the insert into [posts] and the insert
    fails, the composer keeps its content and its selected files, exactly
    one toast is shown and it is the error toast, [onPostCreated] is not
    called, and the insert was sent once. *)
Theorem handlePost_failed_insert_keeps_composer
    (insertOutcome : Outcome) (s : State) :
  let result := handlePost roomId displayName hasOnPostCreated fileId getPublicUrl
                  uploadOutcome recordOutcome insertOutcome s in
  existsb isInsertPost (snd result) = true ->
  insertOutcome <> Served ->
  content (fst result) = content s
  /\ files (fst result) = files s
  /\ List.filter isToast (snd result) = [Toast "Error" true]
  /\ length (List.filter isInsertPost (snd result)) = 1
  /\ List.filter (fun e => match e with OnPostCreated => true | _ => false end)
       (snd result) = [].
Proof.
  intros result. subst result. unfold handlePost, uploadSelectedFiles.
  destruct (negb (nonEmpty (trim (content s))) && Nat.eqb (length (files s)) 0);
    [discriminate|].
  pose proof (uploadLoop_steps (files s) 0 []) as Hsteps.
  destruct (uploadLoop roomId fileId getPublicUrl uploadOutcome recordOutcome
              0 (files s) []) as [[mediaUploads|] effects]; cbn [fst snd] in *.
  - intros _ Hfail.
    destruct insertOutcome; [contradiction| |]; cbn [fst snd];
      rewrite !List.filter_app;
      rewrite (filter_upload_steps isToast effects), (filter_upload_steps isInsertPost effects),
        (filter_upload_steps (fun e => match e with OnPostCreated => true | _ => false end)
           effects);
      try assumption; try (now intros []); repeat split.
  - rewrite existsb_app. intros Hex. exfalso.
    apply orb_true_iff in Hex as [Hex|Hex]; [|discriminate].
    apply existsb_exists in Hex as (e & Hin & He).
    rewrite forallb_forall in Hsteps. specialize (Hsteps e Hin).
    destruct e; discriminate.
Qed.

End HandlePostFacts.

Section HandlePostWitness.
Import JS Supabase Effects PostComposer.

Lemma handlePost_failed_insert_keeps_composer_witness :
  let s := {| content := "hello"; files := []; isPosting := false |} in
  let result := handlePost "r1" "ann" true (fun _ => "id") (fun p => p)
                  (fun _ => Served) (fun _ => Served) Refused s in
  content (fst result) = "hello"
  /\ files (fst result) = []
  /\ List.filter isToast (snd result) = [Toast "Error" true]
  /\ length (List.filter isInsertPost (snd result)) = 1
  /\ List.filter (fun e => match e with OnPostCreated => true | _ => false end)
       (snd result) = [].
Proof.
  intros s.
  apply (handlePost_failed_insert_keeps_composer "r1" "ann" true (fun _ => "id") (fun p => p)
           (fun _ => Served) (fun _ => Served) Refused s);
    [reflexivity | discriminate].
Defined.

End HandlePostWitness.

(** ** Comment threading *)

Section OrganizeCommentsFacts.
Import JS Supabase UseRoom Spec.

Lemma findComment_Some flat k c : findComment flat k = Some c -> In c flat /\ id c = k.
Proof.
  unfold findComment. intros H. apply find_some in H as [Hin Heq].
  now apply String.eqb_eq in Heq.
Qed.

Lemma findComment_None flat k : findComment flat k = None <-> ~ In k (map id flat).
Proof.
  unfold findComment. split.
  - intros H Hin. apply in_map_iff in Hin as (c & <- & Hin).
    pose proof (find_none _ _ H c Hin) as Hc. cbn in Hc.
    now rewrite String.eqb_refl in Hc.
  - intros Hnot. destruct (find _ flat) as [c|] eqn:Hf; [|reflexivity].
    apply find_some in Hf as [Hin Heq]. apply String.eqb_eq in Heq.
    exfalso. apply Hnot. apply in_map_iff. now exists c.
Qed.

Lemma findComment_NoDup flat c :
  NoDup (map id flat) -> In c flat -> findComment flat (id c) = Some c.
Proof.
  unfold findComment. induction flat as [|x flat IH]; intros Hnd Hin; [destruct Hin|].
  cbn [map] in Hnd. apply NoDup_cons in Hnd as [Hx Hnd]. cbn [find].
  destruct Hin as [->|Hin]; [now rewrite String.eqb_refl|].
  destruct (String.eqb (id x) (id c)) eqn:Heq; [|now apply IH].
  apply String.eqb_eq in Heq. exfalso. apply Hx. rewrite Heq.
  apply list_elem_of_In, in_map_iff. now exists c.
Qed.

(** *** The two passes *)

Lemma firstPass_fold_replies l : forall m : gmap string Node,
  (forall k n, m !! k = Some n -> replies n = []) ->
  forall k n,
    fold_left (fun m c => <[id c := {| comment := c; replies := [] |}]> m) l m !! k = Some n ->
    replies n = [].
Proof.
  induction l as [|c l IH]; intros m Hm k n; cbn [fold_left]; [apply Hm|].
  apply IH. intros k' n'. rewrite lookup_insert. case_decide; [|apply Hm].
  now intros [= <-].
Qed.

Lemma firstPass_fold_dom l : forall (m : gmap string Node) k,
  is_Some (fold_left (fun m c => <[id c := {| comment := c; replies := [] |}]> m) l m !! k)
  <-> is_Some (m !! k) \/ In k (map id l).
Proof.
  induction l as [|c l IH]; intros m k; cbn [fold_left map In]; [tauto|].
  rewrite IH, lookup_insert. case_decide as Hk; subst.
  - split; intros _; [right; left; reflexivity | left; eauto].
  - split; intros [Hs|Hs]; [tauto | tauto | tauto |].
    destruct Hs as [Hs|Hs]; [congruence | tauto].
Qed.

Lemma firstPass_replies flat k n : firstPass flat !! k = Some n -> replies n = [].
Proof.
  apply firstPass_fold_replies. intros k' n'. now rewrite lookup_empty.
Qed.

Lemma firstPass_dom flat k : is_Some (firstPass flat !! k) <-> In k (map id flat).
Proof.
  unfold firstPass. rewrite firstPass_fold_dom, lookup_empty.
  split; [intros [[n Hn]|H]; [discriminate | exact H] | tauto].
Qed.

Lemma pushReply_lookup p ref (m : gmap string Node) k :
  pushReply p ref m !! k
  = (fun n => {| comment := comment n;
                 replies := replies n ++ (if decide (p = k) then [ref] else []) |})
    <$> m !! k.
Proof.
  unfold pushReply. destruct (m !! p) as [parent|] eqn:Hp.
  - rewrite lookup_insert. case_decide; subst.
    + now rewrite Hp.
    + destruct (m !! k) as [[? ?]|]; cbn; [now rewrite app_nil_r | reflexivity].
  - case_decide; subst.
    + now rewrite Hp.
    + destruct (m !! k) as [[? ?]|]; cbn; [now rewrite app_nil_r | reflexivity].
Qed.

Lemma isChildOf_Some p k c :
  parent_comment_id c = Some p -> truthy (parent_comment_id c) = true ->
  isChildOf k c = if decide (p = k) then true else false.
Proof.
  intros Hp Ht. unfold isChildOf. rewrite Ht, Hp. cbn.
  case_decide; [now apply String.eqb_eq | now apply String.eqb_neq].
Qed.

Lemma secondPass_fold l : forall (m0 : gmap string Node) r0,
  snd (fold_left secondPass_step l (m0, r0)) = r0 ++ rootsOf l
  /\ forall k,
       fst (fold_left secondPass_step l (m0, r0)) !! k
       = (fun n => {| comment := comment n; replies := replies n ++ childrenOf l k |})
         <$> m0 !! k.
Proof.
  induction l as [|c l IH]; intros m0 r0; cbn [fold_left].
  - unfold rootsOf, childrenOf. cbn [List.filter map fst snd].
    split; [now rewrite app_nil_r|]. intros k.
    destruct (m0 !! k) as [[? ?]|]; cbn; [now rewrite app_nil_r | reflexivity].
  - unfold secondPass_step at 2 4. unfold rootsOf, childrenOf. cbn [List.filter].
    destruct (truthy (parent_comment_id c)) eqn:Ht.
    + destruct (parent_comment_id c) as [p|] eqn:Hp; [|discriminate].
      destruct (IH (pushReply p (id c) m0) r0) as [Hr Hm].
      unfold isRoot. rewrite Hp, Ht. cbn [negb]. split; [exact Hr|].
      intros k. rewrite Hm, pushReply_lookup.
      assert (Hc : isChildOf k c = if decide (p = k) then true else false)
        by (apply isChildOf_Some; [exact Hp | now rewrite Hp]).
      rewrite Hc. destruct (m0 !! k) as [[? ?]|]; cbn; [|reflexivity].
      case_decide; cbn; now rewrite <- app_assoc.
    + destruct (IH m0 (r0 ++ [id c])) as [Hr Hm].
      assert (Hroot : isRoot c = true) by (unfold isRoot; now rewrite Ht).
      assert (Hchild : forall k, isChildOf k c = false)
        by (intros k; unfold isChildOf; now rewrite Ht).
      rewrite Hroot. cbn [map]. split.
      * rewrite Hr, <- app_assoc. reflexivity.
      * intros k. rewrite Hm, Hchild. reflexivity.
Qed.

(** *** What [organizeComments] returns *)

Lemma organizeComments_roots flat :
  Permutation (rootComments (organizeComments flat)) (rootsOf flat).
Proof.
  unfold organizeComments.
  pose proof (secondPass_fold flat (firstPass flat) []) as [Hr _].
  destruct (fold_left secondPass_step flat (firstPass flat, [])) as [m roots].
  cbn [snd rootComments] in *. subst roots. apply sort_perm.
Qed.

Lemma organizeComments_replies flat k :
  repliesOf (organizeComments flat) k
  = match findComment flat k with
    | Some _ => childrenOf flat k
    | None => []
    end.
Proof.
  unfold organizeComments, repliesOf.
  pose proof (secondPass_fold flat (firstPass flat) []) as [_ Hm].
  destruct (fold_left secondPass_step flat (firstPass flat, [])) as [m roots].
  cbn [fst commentMap] in *. rewrite Hm.
  destruct (findComment flat k) as [c|] eqn:Hf.
  - apply findComment_Some in Hf as [Hin <-].
    assert (Hs : is_Some (firstPass flat !! id c))
      by (apply firstPass_dom, in_map_iff; now exists c).
    destruct Hs as [n Hn]. rewrite Hn. cbn.
    now rewrite (firstPass_replies _ _ _ Hn).
  - apply findComment_None in Hf.
    destruct (firstPass flat !! k) as [n|] eqn:Hn; [|reflexivity].
    exfalso. apply Hf, firstPass_dom. now rewrite Hn.
Qed.

End OrganizeCommentsFacts.

Section ThreadingClaims.
Import JS Supabase UseRoom Spec.

Lemma isChildOf_true k c :
  isChildOf k c = true <-> truthy (parent_comment_id c) = true /\ parent_comment_id c = Some k.
Proof.
  unfold isChildOf. rewrite andb_true_iff. split; intros [Ht Hp]; split; try assumption.
  - destruct (parent_comment_id c) as [p|]; [|discriminate].
    apply strictEq_Some in Hp. now subst.
  - rewrite Hp. now apply strictEq_Some.
Qed.

Lemma childrenOf_In flat k x :
  In x (childrenOf flat k) <->
  exists c, In c flat /\ id c = x /\ truthy (parent_comment_id c) = true
            /\ parent_comment_id c = Some k.
Proof.
  unfold childrenOf. rewrite in_map_iff. split.
  - intros (c & Hid & Hin). apply filter_In in Hin as [Hin Hc].
    apply isChildOf_true in Hc as [Ht Hp]. now exists c.
  - intros (c & Hin & Hid & Ht & Hp). exists c. split; [assumption|].
    apply filter_In. split; [assumption|]. now apply isChildOf_true.
Qed.

Lemma flat_map_all_nil {A B} (g : A -> list B) l :
  (forall x, In x l -> g x = []) -> flat_map g l = [].
Proof.
  induction l as [|x l IH]; intros H; [reflexivity|]. cbn [flat_map].
  rewrite (H x) by now left. apply IH. intros y Hy. apply H. now right.
Qed.

(** Where replies only answer root comments, the result is one level
    deep. *)
Lemma organizeComments_singleLevel flat :
  repliesOnlyToRoots flat -> singleLevel (organizeComments flat).
Proof.
  intros Hflat root reply _ Hreply.
  rewrite organizeComments_replies in Hreply.
  destruct (findComment flat root) as [r0|]; [|destruct Hreply].
  apply childrenOf_In in Hreply as (c & Hc & <- & Ht & Hp).
  rewrite organizeComments_replies.
  destruct (findComment flat (id c)) as [r1|]; [|reflexivity].
  destruct (childrenOf flat (id c)) as [|x rest] eqn:Hch; [reflexivity|].
  assert (Hx : In x (childrenOf flat (id c))) by (rewrite Hch; now left).
  apply childrenOf_In in Hx as (e & He & _ & Hte & Hpe).
  pose proof (Hflat e c He Hc Hte Hpe) as Hroot. congruence.
Qed.

(** C1, as stated, fails: a reply to a reply is kept under its parent,
    two levels below the root. *)
Lemma organizeComments_nests_reply_chain :
  let mk i p t := {| id := i; comment_post_id := "p1"; parent_comment_id := p;
                     author_display := "ann"; content := "text"; created_at := t;
                     deleted_at := None |} in
  let flat := [mk "a" None 1%Z; mk "b" (Some "a") 2%Z; mk "c" (Some "b") 3%Z] in
  rootComments (organizeComments flat) = ["a"]
  /\ repliesOf (organizeComments flat) "a" = ["b"]
  /\ repliesOf (organizeComments flat) "b" = ["c"]
  /\ level (organizeComments flat) 2 = ["c"]
  /\ ~ singleLevel (organizeComments flat).
Proof.
  cbv zeta. do 4 (split; [vm_compute; reflexivity|]).
  intros H. specialize (H "a" "b").
  assert (Hb : repliesOf
                 (organizeComments
                    [{| id := "a"; comment_post_id := "p1"; parent_comment_id := None;
                        author_display := "ann"; content := "text"; created_at := 1;
                        deleted_at := None |};
                     {| id := "b"; comment_post_id := "p1"; parent_comment_id := Some "a";
                        author_display := "ann"; content := "text"; created_at := 2;
                        deleted_at := None |};
                     {| id := "c"; comment_post_id := "p1"; parent_comment_id := Some "b";
                        author_display := "ann"; content := "text"; created_at := 3;
                        deleted_at := None |}]) "b" = []).
  { apply H; vm_compute; tauto. }
  vm_compute in Hb. discriminate.
Qed.

(** C1 (amended). For every flat list of comments in which no comment
    answers a comment that itself has a parent, the tree returned by
    [organizeComments] is a single level deep: every comment in a root
    comment's [replies] has empty [replies], and nothing sits at depth two
    or more. *)
Theorem organizeComments_single_level (flatComments : list Comment) :
  repliesOnlyToRoots flatComments ->
  singleLevel (organizeComments flatComments)
  /\ forall d, 2 <= d -> level (organizeComments flatComments) d = [].
Proof.
  intros Hflat. pose proof (organizeComments_singleLevel _ Hflat) as Hsingle.
  split; [exact Hsingle|].
  assert (H2 : level (organizeComments flatComments) 2 = []).
  { cbn [level]. apply flat_map_all_nil. intros x Hx.
    apply in_flat_map in Hx as (root & Hroot & Hx). now apply (Hsingle root). }
  intros d Hd. induction Hd as [|d Hd IH]; [exact H2|].
  cbn [level]. now rewrite IH.
Qed.

Lemma organizeComments_single_level_witness :
  let mk i p t := {| id := i; comment_post_id := "p1"; parent_comment_id := p;
                     author_display := "ann"; content := "text"; created_at := t;
                     deleted_at := None |} in
  let flat := [mk "a" None 1%Z; mk "b" (Some "a") 2%Z; mk "c" (Some "a") 3%Z] in
  singleLevel (organizeComments flat)
  /\ forall d, 2 <= d -> level (organizeComments flat) d = [].
Proof.
  intros mk flat. apply (organizeComments_single_level flat).
  intros c d Hc Hd Ht Hp.
  cbn in Hc, Hd.
  destruct Hc as [<-|[<-|[<-|[]]]]; try discriminate Ht;
    destruct Hd as [<-|[<-|[<-|[]]]]; try reflexivity; discriminate Hp.
Defined.

End ThreadingClaims.

Section PlacementClaims.
Import JS Supabase UseRoom Spec.

Lemma reachesRoot_0 flat k :
  reachesRoot flat 0 k
  = match findComment flat k with
    | Some c => negb (truthy (parent_comment_id c))
    | None => false
    end.
Proof. reflexivity. Qed.

Lemma reachesRoot_S flat d k :
  reachesRoot flat (S d) k
  = match findComment flat k with
    | Some c =>
        truthy (parent_comment_id c)
        && match parent_comment_id c with
           | Some p => reachesRoot flat d p
           | None => false
           end
    | None => false
    end.
Proof. reflexivity. Qed.

Lemma reachesRoot_found flat d k :
  reachesRoot flat d k = true -> exists c, findComment flat k = Some c.
Proof.
  destruct d; [rewrite reachesRoot_0 | rewrite reachesRoot_S];
    destruct (findComment flat k) as [c|]; intros H; [eauto|discriminate|eauto|discriminate].
Qed.

(** The parent chain of a comment reaches a root at one depth at most. *)
Lemma reachesRoot_unique flat d : forall d' k,
  reachesRoot flat d k = true -> reachesRoot flat d' k = true -> d = d'.
Proof.
  induction d as [|d IH]; intros [|d'] k; try reflexivity;
    rewrite ?reachesRoot_0, ?reachesRoot_S;
    destruct (findComment flat k) as [c|]; try discriminate;
    destruct (truthy (parent_comment_id c)); try discriminate; cbn [negb andb];
    try discriminate.
  destruct (parent_comment_id c) as [p|]; [|discriminate].
  intros H1 H2. f_equal. now apply (IH d' p).
Qed.

Lemma count_occ_absent (l : list string) k : ~ In k l -> count_occ string_dec l k = 0.
Proof. apply count_occ_not_In. Qed.

(** With distinct ids, a comment is pushed at most once. *)
Lemma count_by_id (P : Comment -> bool) flat k :
  NoDup (map id flat) ->
  count_occ string_dec (map id (List.filter P flat)) k
  = match findComment flat k with
    | Some c => if P c then 1 else 0
    | None => 0
    end.
Proof.
  unfold findComment. induction flat as [|x l IH]; intros Hnd; [reflexivity|].
  cbn [map] in Hnd. apply NoDup_cons in Hnd as [Hx Hnd]. specialize (IH Hnd).
  cbn [find List.filter]. destruct (String.eqb (id x) k) eqn:E.
  - apply String.eqb_eq in E. subst k.
    assert (H0 : count_occ string_dec (map id (List.filter P l)) (id x) = 0).
    { apply count_occ_not_In. intros Hin. apply Hx, list_elem_of_In.
      apply in_map_iff in Hin as (y & Hy & Hin). apply filter_In in Hin as [Hin _].
      apply in_map_iff. now exists y. }
    destruct (P x); [|exact H0]. cbn [map count_occ].
    destruct (string_dec (id x) (id x)); [now rewrite H0 | congruence].
  - apply String.eqb_neq in E. destruct (P x); [|exact IH]. cbn [map count_occ].
    destruct (string_dec (id x) k); [congruence | exact IH].
Qed.

Lemma count_flat_map_zero (g : string -> list string) l k :
  (forall x, In x l -> count_occ string_dec (g x) k = 0) ->
  count_occ string_dec (flat_map g l) k = 0.
Proof.
  induction l as [|x l IH]; intros H; [reflexivity|]. cbn [flat_map].
  rewrite count_occ_app, (H x) by now left. apply IH. intros y Hy. apply H. now right.
Qed.

Lemma count_flat_map_single (g : string -> list string) l k p :
  (forall x, In x l -> count_occ string_dec (g x) k = if string_dec x p then 1 else 0) ->
  count_occ string_dec (flat_map g l) k = count_occ string_dec l p.
Proof.
  induction l as [|x l IH]; intros H; [reflexivity|]. cbn [flat_map count_occ].
  rewrite count_occ_app, (H x) by now left.
  rewrite IH by (intros y Hy; apply H; now right).
  destruct (string_dec x p); reflexivity.
Qed.

Lemma count_replies flat f k x :
  NoDup (map id flat) -> f = organizeComments flat ->
  count_occ string_dec (repliesOf f x) k
  = match findComment flat x, findComment flat k with
    | Some _, Some c => if isChildOf x c then 1 else 0
    | _, _ => 0
    end.
Proof.
  intros Hnd ->. rewrite organizeComments_replies.
  destruct (findComment flat x) as [cx|]; [|reflexivity].
  unfold childrenOf. now rewrite count_by_id.
Qed.

(** With distinct ids, the comment [k] sits at depth [d] of the returned
    tree once if its parent chain reaches a root in [d] steps, and not at
    all otherwise. *)
Lemma occurrences_reachesRoot flat :
  NoDup (map id flat) ->
  forall d k,
    occurrences (organizeComments flat) d k = if reachesRoot flat d k then 1 else 0.
Proof.
  intros Hnd. unfold occurrences. induction d as [|d IH]; intros k.
  - cbn [level]. rewrite reachesRoot_0.
    rewrite (proj1 (Permutation_count_occ string_dec _ _) (organizeComments_roots flat) k).
    unfold rootsOf. rewrite (count_by_id isRoot flat k Hnd).
    now destruct (findComment flat k).
  - cbn [level]. rewrite reachesRoot_S.
    destruct (findComment flat k) as [c|] eqn:Hk.
    + destruct (truthy (parent_comment_id c)) eqn:Ht; cbn [andb].
      * destruct (parent_comment_id c) as [p|] eqn:Hp; [|discriminate].
        destruct (findComment flat p) as [cp|] eqn:Hfp.
        -- rewrite <- IH. apply count_flat_map_single. intros x _.
           rewrite (count_replies flat _ k x Hnd eq_refl), Hk.
           rewrite (isChildOf_Some p x c Hp) by (now rewrite Hp).
           destruct (string_dec x p) as [->|Hne].
           ++ rewrite Hfp. now rewrite decide_True.
           ++ rewrite decide_False by congruence. now destruct (findComment flat x).
        -- assert (Hr : reachesRoot flat d p = false).
           { destruct (reachesRoot flat d p) eqn:Hr; [|reflexivity].
             apply reachesRoot_found in Hr as [? Hr]. congruence. }
           rewrite Hr. apply count_flat_map_zero. intros x _.
           rewrite (count_replies flat _ k x Hnd eq_refl), Hk.
           destruct (findComment flat x) as [cx|] eqn:Hx; [|reflexivity].
           rewrite (isChildOf_Some p x c Hp) by (now rewrite Hp).
           rewrite decide_False; [reflexivity|]. intros ->. congruence.
      * apply count_flat_map_zero. intros x _.
        rewrite (count_replies flat _ k x Hnd eq_refl), Hk.
        destruct (findComment flat x); [|reflexivity].
        unfold isChildOf. now rewrite Ht.
    + apply count_flat_map_zero. intros x _.
      rewrite (count_replies flat _ k x Hnd eq_refl), Hk.
      now destruct (findComment flat x).
Qed.

(** C10, as stated, fails: the parent of [b] is in the list, but that
    parent answers a comment that is not (a hidden or deleted one), so it
    is dropped and [b] with it. *)
Lemma organizeComments_drops_reply_of_dropped :
  let mk i p t := {| id := i; comment_post_id := "p1"; parent_comment_id := p;
                     author_display := "ann"; content := "text"; created_at := t;
                     deleted_at := None |} in
  let a := mk "a" (Some "zz") 1%Z in
  let b := mk "b" (Some "a") 2%Z in
  NoDup (map id [a; b])
  /\ In b [a; b]
  /\ parentInList [a; b] b
  /\ ~ appearsExactlyOnce (organizeComments [a; b]) (id b).
Proof.
  intros mk a b. split; [apply (bool_decide_unpack _); vm_compute; exact I|].
  split; [right; now left|]. split; [exists a; split; [now left | reflexivity]|].
  intros (d & Hd & _).
  assert (Hlevel : forall n, level (organizeComments [a; b]) n = []).
  { induction n as [|n IH]; [vm_compute; reflexivity|]. cbn [level]. now rewrite IH. }
  unfold occurrences in Hd. rewrite Hlevel in Hd. discriminate.
Qed.

(** C10 (amended). For every flat list of comments with distinct ids, an
    input comment whose chain of [parent_comment_id] links leads, through
    comments of the list, to a comment without a parent appears exactly
    once in the tree returned by [organizeComments] (so does every comment
    without a parent); every other comment is absent from the tree, in
    particular one whose non-empty [parent_comment_id] matches no id of the
    list. *)
Theorem organizeComments_places_each_comment_once
    (flatComments : list Comment) (c : Comment) :
  NoDup (map id flatComments) ->
  In c flatComments ->
  let tree := organizeComments flatComments in
  ((exists d, reachesRoot flatComments d (id c) = true) -> appearsExactlyOnce tree (id c))
  /\ (truthy (parent_comment_id c) = false -> appearsExactlyOnce tree (id c))
  /\ ((forall d, reachesRoot flatComments d (id c) = false) -> absent tree (id c))
  /\ (truthy (parent_comment_id c) = true -> ~ parentInList flatComments c ->
      absent tree (id c)).
Proof.
  intros Hnd Hin tree. subst tree.
  pose proof (occurrences_reachesRoot flatComments Hnd) as Hocc.
  pose proof (findComment_NoDup flatComments c Hnd Hin) as Hfind.
  assert (Honce : (exists d, reachesRoot flatComments d (id c) = true) ->
                  appearsExactlyOnce (organizeComments flatComments) (id c)).
  { intros [d Hd]. exists d. split; [now rewrite Hocc, Hd|].
    intros d' Hne. rewrite Hocc.
    destruct (reachesRoot flatComments d' (id c)) eqn:Hd'; [|reflexivity].
    exfalso. apply Hne. symmetry. now apply (reachesRoot_unique flatComments d d' (id c)). }
  assert (Habsent : (forall d, reachesRoot flatComments d (id c) = false) ->
                    absent (organizeComments flatComments) (id c)).
  { intros Hnone d. now rewrite Hocc, Hnone. }
  split; [exact Honce|]. split; [|split; [exact Habsent|]].
  - intros Ht. apply Honce. exists 0. now rewrite reachesRoot_0, Hfind, Ht.
  - intros Ht Hdangling. apply Habsent. intros [|d].
    + now rewrite reachesRoot_0, Hfind, Ht.
    + rewrite reachesRoot_S, Hfind, Ht. cbn [andb].
      destruct (parent_comment_id c) as [p|] eqn:Hp; [|reflexivity].
      destruct (reachesRoot flatComments d p) eqn:Hr; [|reflexivity].
      apply reachesRoot_found in Hr as [e He]. apply findComment_Some in He as [He <-].
      exfalso. apply Hdangling. now exists e.
Qed.

Lemma organizeComments_places_each_comment_once_witness :
  let mk i p t := {| id := i; comment_post_id := "p1"; parent_comment_id := p;
                     author_display := "ann"; content := "text"; created_at := t;
                     deleted_at := None |} in
  let flat := [mk "a" None 1%Z; mk "b" (Some "a") 2%Z; mk "c" (Some "zz") 3%Z] in
  let tree := organizeComments flat in
  ((exists d, reachesRoot flat d "b" = true) -> appearsExactlyOnce tree "b")
  /\ (truthy (Some "a") = false -> appearsExactlyOnce tree "b")
  /\ ((forall d, reachesRoot flat d "b" = false) -> absent tree "b")
  /\ (truthy (Some "a") = true -> ~ parentInList flat (mk "b" (Some "a") 2%Z) ->
      absent tree "b").
Proof.
  intros mk flat tree.
  apply (organizeComments_places_each_comment_once flat (mk "b" (Some "a") 2%Z)).
  - apply (bool_decide_unpack _). vm_compute. exact I.
  - right; left; reflexivity.
Defined.

End PlacementClaims.

(** * Further properties of the code *)

(** ** Display names *)

Section DisplayNameFacts.
Import JS RoomUtils.

Lemma substring0_length n s : String.length (String.substring 0 n s) <= n.
Proof.
  revert s. induction n as [|n IH]; intros [|c s]; cbn [String.substring String.length];
    try lia. specialize (IH s). lia.
Qed.

Lemma substring0_head n c s :
  String.substring 0 (S n) (String c s) = String c (String.substring 0 n s).
Proof. reflexivity. Qed.

Lemma trimStart_head s c r : trimStart s = String c r -> isWhiteSpace c = false.
Proof.
  induction s as [|x s IH]; cbn [trimStart]; [discriminate|].
  destruct (isWhiteSpace x) eqn:Hx; [exact IH|]. now intros [= <- _].
Qed.

Lemma trimStart_empty s :
  trimStart s = "" <-> forall c, In c (list_ascii_of_string s) -> isWhiteSpace c = true.
Proof.
  induction s as [|x s IH]; cbn [trimStart list_ascii_of_string In]; [tauto|].
  destruct (isWhiteSpace x) eqn:Hx.
  - rewrite IH. split; [intros H c [<-|Hc]; auto | auto].
  - split; [discriminate|]. intros H. specialize (H x (or_introl eq_refl)). congruence.
Qed.

Lemma trimEnd_head c s :
  isWhiteSpace c = false -> exists r, trimEnd (String c s) = String c r.
Proof.
  intros Hc. cbn [trimEnd]. rewrite Hc. destruct (trimEnd s); eauto.
Qed.

Lemma trim_empty s :
  trim s = "" <-> forall c, In c (list_ascii_of_string s) -> isWhiteSpace c = true.
Proof.
  rewrite <- trimStart_empty. unfold trim.
  destruct (trimStart s) as [|c r] eqn:Hs; [tauto|].
  destruct (trimEnd_head c r (trimStart_head _ _ _ Hs)) as [r' ->].
  split; discriminate.
Qed.

Lemma trim_head s c r : trim s = String c r -> isWhiteSpace c = false.
Proof.
  unfold trim. destruct (trimStart s) as [|x t] eqn:Hs; [discriminate|].
  pose proof (trimStart_head _ _ _ Hs) as Hx.
  destruct (trimEnd_head x t Hx) as [r' ->]. now intros [= <- _].
Qed.

Lemma formatDisplayName_facts (name : string) :
  String.length (formatDisplayName name) <= 25
  /\ (formatDisplayName name = ""
      <-> forall c, In c (list_ascii_of_string name) -> isWhiteSpace c = true)
  /\ (forall c rest, formatDisplayName name = String c rest -> isWhiteSpace c = false).
Proof.
  unfold formatDisplayName, slice0. split; [apply substring0_length|].
  rewrite <- trim_empty. destruct (trim name) as [|x t] eqn:Ht.
  - split; [tauto|]. discriminate.
  - rewrite substring0_head. split; [split; discriminate|].
    intros c rest [= <- _]. now apply (trim_head name x t).
Qed.

(** X1. [formatDisplayName] returns at most 25 characters, never starts
    with white space, and returns the empty string exactly for a name
    made of white space only. *)
Theorem formatDisplayName_bounds (name : string) :
  String.length (formatDisplayName name) <= 25
  /\ (formatDisplayName name = ""
      <-> forall c, In c (list_ascii_of_string name) -> isWhiteSpace c = true)
  /\ (forall c rest, formatDisplayName name = String c rest -> isWhiteSpace c = false).
Proof. exact (formatDisplayName_facts name). Qed.

End DisplayNameFacts.

(** ** Expiry options *)

Section ExpiryFacts.
Import JS Expiry.

Lemma digitsThenUnit_Some s : forall ds u,
  digitsThenUnit s = Some (ds, u) ->
  s = ds +:+ String u ""
  /\ (forall c, In c (list_ascii_of_string ds) -> isDigit c = true)
  /\ isUnit u = true.
Proof.
  induction s as [|c rest IH]; intros ds u; [discriminate|].
  cbn [digitsThenUnit]. destruct rest as [|x y].
  - destruct (isUnit c) eqn:Hu; [|discriminate]. intros [= <- <-].
    repeat split; [intros ? []|assumption].
  - destruct (isDigit c) eqn:Hc; [|discriminate].
    destruct (digitsThenUnit (String x y)) as [[ds' u']|] eqn:Hrec; [|discriminate].
    intros [= <- <-]. destruct (IH ds' u' eq_refl) as (Hs & Hd & Hu).
    rewrite append_cons, <- Hs. repeat split; [|assumption].
    intros c' [<-|Hin]; auto.
Qed.

Lemma digitsThenUnit_shape ds u :
  (forall c, In c (list_ascii_of_string ds) -> isDigit c = true) ->
  isUnit u = true ->
  digitsThenUnit (ds +:+ String u "") = Some (ds, u).
Proof.
  intros Hd Hu. induction ds as [|c ds IH].
  - rewrite append_nil. cbn [digitsThenUnit]. now rewrite Hu.
  - rewrite append_cons. cbn [digitsThenUnit].
    assert (Hrest : exists x y, ds +:+ String u "" = String x y)
      by (destruct ds; [rewrite append_nil | rewrite append_cons]; eauto).
    destruct Hrest as (x & y & Hrest). rewrite Hrest, <- Hrest.
    rewrite (Hd c) by (now left). rewrite IH; [reflexivity|].
    intros c' Hc'. apply Hd. now right.
Qed.

Lemma isUnit_spec u : isUnit u = true <-> u = "h"%char \/ u = "d"%char.
Proof.
  unfold isUnit. destruct (ascii_dec u "h"), (ascii_dec u "d"); cbn; split;
    intros; try tauto; try discriminate; intuition congruence.
Qed.

Lemma matchExpiry_spec s ds u :
  matchExpiry s = Some (ds, u) <->
  s = ds +:+ String u "" /\ ds <> ""
  /\ (forall c, In c (list_ascii_of_string ds) -> isDigit c = true)
  /\ (u = "h"%char \/ u = "d"%char).
Proof.
  unfold matchExpiry. split.
  - destruct (digitsThenUnit s) as [[ds' u']|] eqn:Hm; [|discriminate].
    destruct (nonEmpty ds') eqn:Hne; [|discriminate]. intros [= <- <-].
    apply digitsThenUnit_Some in Hm as (Hs & Hd & Hu).
    repeat split; try assumption; [now apply nonEmpty_true | now apply isUnit_spec].
  - intros (-> & Hne & Hd & Hu). apply isUnit_spec in Hu.
    rewrite (digitsThenUnit_shape ds u Hd Hu).
    apply nonEmpty_true in Hne. now rewrite Hne.
Qed.

Lemma digitValue_nonneg c : isDigit c = true -> (0 <= digitValue c <= 9)%Z.
Proof.
  unfold isDigit, inRange, digitValue. cbn [fst snd].
  change (nat_of_ascii "0") with 48. change (nat_of_ascii "9") with 57.
  rewrite andb_true_iff, !Nat.leb_le. lia.
Qed.

Lemma parseDigits_nonneg ds : forall acc,
  (0 <= acc)%Z ->
  (forall c, In c (list_ascii_of_string ds) -> isDigit c = true) ->
  (0 <= parseDigits acc ds)%Z.
Proof.
  induction ds as [|c ds IH]; intros acc Hacc Hd; cbn [parseDigits]; [assumption|].
  apply IH.
  - pose proof (digitValue_nonneg c (Hd c (or_introl eq_refl))). lia.
  - intros c' Hc'. apply Hd. now right.
Qed.

Lemma not_never ds u : u = "h"%char \/ u = "d"%char -> String.eqb (ds +:+ String u "") "never" = false.
Proof.
  intros Hu. apply String.eqb_neq. intros Heq.
  assert (Hm : digitsThenUnit "never" = None) by reflexivity.
  destruct ds as [|c0 [|c1 [|c2 [|c3 [|c4 [|c5 ds]]]]]];
    repeat rewrite ?append_cons, ?append_nil in Heq; try discriminate.
  injection Heq as _ _ _ _ ->. destruct Hu; discriminate.
Qed.

(** X2. [calculateExpiry] returns a date exactly for the options made of
    one or more decimal digits followed by [h] or [d] (so not for
    "never"): the current time plus that many hours, or that many days. *)
Theorem calculateExpiry_shape (now : Z) (expiryOption : string) :
  (calculateExpiry now expiryOption <> None <->
   exists ds u,
     expiryOption = ds +:+ String u "" /\ ds <> ""
     /\ (forall c, In c (list_ascii_of_string ds) -> isDigit c = true)
     /\ (u = "h"%char \/ u = "d"%char))
  /\ (forall ds,
        ds <> "" -> (forall c, In c (list_ascii_of_string ds) -> isDigit c = true) ->
        calculateExpiry now (ds +:+ "h") = Some (newDate (now + parseInt ds * 3600000))
        /\ calculateExpiry now (ds +:+ "d") = Some (newDate (now + parseInt ds * 86400000))).
Proof.
  split.
  - unfold calculateExpiry. split.
    + destruct (String.eqb expiryOption "never"); [congruence|].
      destruct (matchExpiry expiryOption) as [[ds u]|] eqn:Hm; [|congruence].
      intros _. exists ds, u. now apply matchExpiry_spec.
    + intros (ds & u & Hs & Hne & Hd & Hu).
      assert (Hm : matchExpiry expiryOption = Some (ds, u)) by (now apply matchExpiry_spec).
      rewrite Hs at 1. rewrite (not_never ds u Hu), Hm.
      destruct Hu as [->| ->]; cbn; discriminate.
  - intros ds Hne Hd. unfold calculateExpiry.
    rewrite (not_never ds "h"), (not_never ds "d") by tauto.
    rewrite (proj2 (matchExpiry_spec (ds +:+ "h") ds "h")) by tauto.
    rewrite (proj2 (matchExpiry_spec (ds +:+ "d") ds "d")) by tauto.
    cbn. split; do 2 f_equal; lia.
Qed.

Lemma calculateExpiry_shape_witness :
  calculateExpiry 1000 ("24" +:+ "h") = Some (newDate (1000 + parseInt "24" * 3600000))
  /\ calculateExpiry 1000 ("24" +:+ "d") = Some (newDate (1000 + parseInt "24" * 86400000)).
Proof.
  apply (proj2 (calculateExpiry_shape 1000 "24h") "24").
  - discriminate.
  - intros c [<-|[<-|[]]]; reflexivity.
Defined.

(** X3. A valid date returned by [calculateExpiry] is never before the
    current time: it lies a whole number of hours after it. *)
Theorem calculateExpiry_whole_hours_ahead (now : Z) (expiryOption : string) (t : Z) :
  calculateExpiry now expiryOption = Some (ValidDate t) ->
  (now <= t)%Z /\ exists n, (0 <= n)%Z /\ t = (now + n * 3600000)%Z.
Proof.
  unfold calculateExpiry. destruct (String.eqb expiryOption "never"); [discriminate|].
  destruct (matchExpiry expiryOption) as [[ds u]|] eqn:Hm; [|discriminate].
  apply matchExpiry_spec in Hm as (_ & _ & Hd & _).
  pose proof (parseDigits_nonneg ds 0 ltac:(lia) Hd) as Hv. fold (parseInt ds) in Hv.
  unfold newDate.
  destruct (ascii_dec u "h"); [|destruct (ascii_dec u "d"); [|discriminate]];
    match goal with |- context [(Z.abs ?x <=? maxTime)%Z] =>
      destruct (Z.abs x <=? maxTime)%Z; [|discriminate] end;
    intros [= <-]; (split; [lia|]).
  - exists (parseInt ds). lia.
  - exists (parseInt ds * 24)%Z. lia.
Qed.

Lemma calculateExpiry_whole_hours_ahead_witness :
  (1000 <= 604801000)%Z /\ exists n, (0 <= n)%Z /\ 604801000%Z = (1000 + n * 3600000)%Z.
Proof.
  apply (calculateExpiry_whole_hours_ahead 1000 "7d" 604801000). reflexivity.
Defined.

End ExpiryFacts.

(** ** Ban lookups and the outcomes of the join dialog *)

Section JoinOutcomeFacts.
Import JS RoomUtils Supabase Effects Bans JoinRoomModal.

Lemma activeBan_spec db roomId name b :
  activeBan db roomId name b = true <->
  ban_room_id b = roomId /\ ban_display_name b = name
  /\ (ban_expires_at b = None \/ exists t, ban_expires_at b = Some t /\ (db_now db < t)%Z).
Proof.
  unfold activeBan. rewrite !andb_true_iff, !String.eqb_eq.
  destruct (ban_expires_at b) as [t|].
  - rewrite Z.ltb_lt. split.
    + intros [[? ?] ?]. repeat split; try assumption. right. now exists t.
    + intros (? & ? & [H|(t' & [= <-] & ?)]); [discriminate|]. now repeat split.
  - split; [intros [[? ?] _]; repeat split; auto | intros (? & ? & _); now repeat split].
Qed.

(** X4. [isDisplayNameBanned] answers [true] exactly when the request is
    served and the readable bans hold a row for that room and name whose
    [expires_at] is null or later than the database clock; a refused
    request answers [false], and only a rejected one makes it throw. *)
Theorem isDisplayNameBanned_truth_table
    (db : Database) (o : Outcome) (roomId displayName : string) :
  (isDisplayNameBanned db o roomId displayName = Some true <->
   o = Served
   /\ exists b, In b (bans db) /\ ban_room_id b = roomId /\ ban_display_name b = displayName
        /\ (ban_expires_at b = None
            \/ exists t, ban_expires_at b = Some t /\ (db_now db < t)%Z))
  /\ (o = Refused -> isDisplayNameBanned db o roomId displayName = Some false)
  /\ (isDisplayNameBanned db o roomId displayName = None <-> o = Crashed).
Proof.
  unfold isDisplayNameBanned, selectBans. split; [|split].
  - destruct o; cbn [request]; [|split; [discriminate | intros [[=] _]]
                                |split; [discriminate | intros [[=] _]]].
    destruct (List.filter (activeBan db roomId displayName) (bans db)) as [|b l] eqn:Hf.
    + cbn. split; [discriminate|]. intros (_ & b & Hin & Hb).
      assert (Hb' : In b (List.filter (activeBan db roomId displayName) (bans db)))
        by (apply filter_In; split; [assumption | now apply activeBan_spec]).
      rewrite Hf in Hb'. destruct Hb'.
    + cbn. split; [|reflexivity]. intros _. split; [reflexivity|].
      assert (Hb : In b (List.filter (activeBan db roomId displayName) (bans db)))
        by (rewrite Hf; now left).
      apply filter_In in Hb as [Hin Hb]. apply activeBan_spec in Hb. now exists b.
  - now intros ->.
  - destruct o; cbn [request]; split; congruence.
Qed.

Lemma isDisplayNameBanned_truth_table_witness :
  let db := {| rooms := []; posts := []; comments := [];
               bans := [{| ban_id := "b1"; ban_room_id := "r1"; ban_display_name := "troll";
                           ban_created_at := 0; ban_expires_at := None |}];
               db_now := 5 |} in
  isDisplayNameBanned db Refused "r1" "troll" = Some false.
Proof.
  intros db.
  apply (proj1 (proj2 (isDisplayNameBanned_truth_table db Refused "r1" "troll"))).
  reflexivity.
Defined.

(** The password part of [joinRoom] lets the user through. *)
Lemma password_test_passes hashString s roomData :
  (forall h, password_hash roomData = Some h -> h <> "" -> password s <> "" ->
             hashString (password s) = h) ->
  truthy (password_hash roomData) && nonEmpty (password s)
  && negb (strictEq (Some (hashString (password s))) (password_hash roomData)) = false.
Proof.
  intros Hpw. destruct (password_hash roomData) as [h|]; [|reflexivity]. cbn [truthy].
  destruct (nonEmpty h) eqn:Hh; [|reflexivity].
  destruct (nonEmpty (password s)) eqn:Hp; [|reflexivity]. cbn [andb].
  rewrite (Hpw h eq_refl) by (now apply nonEmpty_true). cbn.
  now rewrite String.eqb_refl.
Qed.

(** X5. The ban check of [joinRoom] fails open: when the lookup in
    [bans] is refused, a user who passes the name and password checks is
    joined, whatever rows [bans] holds. *)
Theorem joinRoom_refused_ban_lookup_admits
    (hashString : string -> string) (hasOnJoinSuccess : bool)
    (db : Database) (oRoom : Outcome) (now : Z) (s : State) (roomData : RoomRow) :
  formatDisplayName (displayName s) <> "" ->
  (roomInfoRequiresPassword s = true -> trim (password s) <> "") ->
  selectRoomByCode db oRoom (roomCode s) = Data roomData ->
  (forall h, password_hash roomData = Some h -> h <> "" -> password s <> "" ->
             hashString (password s) = h) ->
  In (SetItem "blacksite_session"
        (SessionJSON {| session_roomCode := roomCode s;
                        session_displayName := formatDisplayName (displayName s);
                        session_joinedAt := now |}))
     (snd (joinRoom hashString hasOnJoinSuccess db oRoom Refused now s)).
Proof.
  intros Hname Hreq Hsel Hpw. unfold joinRoom.
  apply nonEmpty_true in Hname. rewrite Hname. cbn [negb].
  assert (Hguard : roomInfoRequiresPassword s && negb (nonEmpty (trim (password s))) = false).
  { destruct (roomInfoRequiresPassword s); [|reflexivity].
    specialize (Hreq eq_refl). apply nonEmpty_true in Hreq. now rewrite Hreq. }
  rewrite Hguard, Hsel, (password_test_passes hashString s roomData Hpw).
  unfold joinRoom_fromBanCheck, isDisplayNameBanned, selectBans. cbn [request snd].
  right. right. now left.
Qed.

Lemma joinRoom_refused_ban_lookup_admits_witness :
  let room := {| room_id := "r1"; room_code := "ABCD-1234"; room_title := "Retro";
                 room_description := None; owner_token_hash := "o";
                 is_ephemeral := false; expiry_at := None;
                 password_hash := None; room_created_at := 0 |} in
  let db := {| rooms := [room]; posts := []; comments := [];
               bans := [{| ban_id := "b1"; ban_room_id := "r1"; ban_display_name := "troll";
                           ban_created_at := 0; ban_expires_at := None |}];
               db_now := 5 |} in
  let s := {| roomCode := "ABCD-1234"; displayName := "troll"; password := "";
              isJoining := false; step := details; roomInfo := None |} in
  In (SetItem "blacksite_session"
        (SessionJSON {| session_roomCode := "ABCD-1234";
                        session_displayName := formatDisplayName "troll";
                        session_joinedAt := 9 |}))
     (snd (joinRoom (fun p => p) true db Served Refused 9 s)).
Proof.
  intros room db s.
  apply (joinRoom_refused_ban_lookup_admits (fun p => p) true db Served 9%Z s room);
    [discriminate | discriminate | reflexivity | discriminate].
Defined.

End JoinOutcomeFacts.

Section DialogOutcomes.
Import JS RoomUtils Supabase Effects Bans JoinRoomModal.


(** The two ways [joinRoom] can end. *)
Lemma joinRoom_cases
    (hashString : string -> string) (hasOnJoinSuccess : bool)
    (db : Database) (oRoom oBans : Outcome) (now : Z) (s : State) :
  let result := joinRoom hashString hasOnJoinSuccess db oRoom oBans now s in
  let name := formatDisplayName (displayName s) in
  (exists roomData,
     selectRoomByCode db oRoom (roomCode s) = Data roomData
     /\ isDisplayNameBanned db oBans (room_id roomData) name = Some false
     /\ fst result = {| roomCode := ""; displayName := ""; password := "";
                        isJoining := false; step := code; roomInfo := None |}
     /\ snd result
        = [SelectRoom (roomCode s); SelectBans (room_id roomData) name;
           SetItem "blacksite_session"
             (SessionJSON {| session_roomCode := roomCode s; session_displayName := name;
                             session_joinedAt := now |});
           Toast "Joined room successfully!" false]
          ++ (if hasOnJoinSuccess then [OnJoinSuccess (roomCode s) name] else [])
          ++ [OnOpenChange false])
  \/ (roomCode (fst result) = roomCode s
      /\ displayName (fst result) = displayName s
      /\ password (fst result) = password s
      /\ step (fst result) = step s
      /\ roomInfo (fst result) = roomInfo s
      /\ (forall key v, ~ In (SetItem key v) (snd result))
      /\ (forall c n, ~ In (OnJoinSuccess c n) (snd result))
      /\ (forall b, ~ In (OnOpenChange b) (snd result))
      /\ exists t, List.filter isToast (snd result) = [Toast t destructive]).
Proof.
  intros result name. subst result name. unfold joinRoom.
  assert (Hfail : forall (s' : State) t (pre : list Effect),
             roomCode s' = roomCode s -> displayName s' = displayName s ->
             password s' = password s -> step s' = step s -> roomInfo s' = roomInfo s ->
             Forall (fun e => isSelect e = true \/ exists m, e = ConsoleError m) pre ->
             let r := (s', pre ++ [Toast t destructive]) in
             roomCode (fst r) = roomCode s
             /\ displayName (fst r) = displayName s
             /\ password (fst r) = password s
             /\ step (fst r) = step s
             /\ roomInfo (fst r) = roomInfo s
             /\ (forall key v, ~ In (SetItem key v) (snd r))
             /\ (forall c n, ~ In (OnJoinSuccess c n) (snd r))
             /\ (forall b, ~ In (OnOpenChange b) (snd r))
             /\ exists t', List.filter isToast (snd r) = [Toast t' destructive]).
  { intros s' t pre H1 H2 H3 H4 H5 Hpre r. subst r. cbn [fst snd].
    rewrite Forall_forall in Hpre.
    assert (Hno : forall e, In e pre -> isSelect e = true \/ exists m, e = ConsoleError m)
      by (intros e He; apply Hpre; now apply list_elem_of_In).
    repeat split; try assumption.
    - intros key v Hin. apply in_app_iff in Hin as [Hin|[Hin|[]]]; [|discriminate].
      destruct (Hno _ Hin) as [Hs|[m Hm]]; discriminate.
    - intros c n Hin. apply in_app_iff in Hin as [Hin|[Hin|[]]]; [|discriminate].
      destruct (Hno _ Hin) as [Hs|[m Hm]]; discriminate.
    - intros b Hin. apply in_app_iff in Hin as [Hin|[Hin|[]]]; [|discriminate].
      destruct (Hno _ Hin) as [Hs|[m Hm]]; discriminate.
    - exists t. rewrite List.filter_app. cbn.
      replace (List.filter isToast pre) with (@nil Effect); [reflexivity|].
      symmetry. clear -Hno. induction pre as [|e pre IH]; [reflexivity|].
      cbn [List.filter].
      destruct (Hno e (or_introl eq_refl)) as [Hs|[m ->]];
        [destruct e; try discriminate Hs|]; cbn [isToast];
        apply IH; intros e' He'; apply Hno; now right. }
  assert (Hsel_ok : forall e, isSelect e = true ->
                    isSelect e = true \/ exists m, e = ConsoleError m) by (intros; now left).
  assert (Herr_ok : forall m (e := ConsoleError m),
                    isSelect e = true \/ exists m', e = ConsoleError m') by (intros; right; eauto).
  destruct (nonEmpty (formatDisplayName (displayName s))); cbn [negb];
    [|right; apply (Hfail s _ []); auto; try constructor 1].
  destruct (roomInfoRequiresPassword s && negb (nonEmpty (trim (password s))));
    [right; apply (Hfail s _ []); auto|].
  destruct (selectRoomByCode db oRoom (roomCode s)) as [roomData| |] eqn:Hsel.
  - destruct (truthy (password_hash roomData) && nonEmpty (password s)
              && negb (strictEq (Some (hashString (password s))) (password_hash roomData))).
    + right. apply (Hfail _ _ [SelectRoom (roomCode s)]); auto;
        try (repeat (constructor 2; [first [left; reflexivity | right; eexists; reflexivity]|]);
             constructor 1).
    + unfold joinRoom_fromBanCheck.
      destruct (isDisplayNameBanned db oBans (room_id roomData)
                  (formatDisplayName (displayName s))) as [[|]|] eqn:Hban.
      * right.
        apply (Hfail _ _ [SelectRoom (roomCode s);
                          SelectBans (room_id roomData) (formatDisplayName (displayName s))]);
          auto;
        try (repeat (constructor 2; [first [left; reflexivity | right; eexists; reflexivity]|]);
             constructor 1).
      * left. exists roomData. split; [reflexivity|]. split; [exact Hban|].
        split; reflexivity.
      * right.
        apply (Hfail _ _ [SelectRoom (roomCode s);
                          SelectBans (room_id roomData) (formatDisplayName (displayName s));
                          ConsoleError "Error joining room:"]); auto;
        try (repeat (constructor 2; [first [left; reflexivity | right; eexists; reflexivity]|]);
             constructor 1).
  - right. apply (Hfail _ _ [SelectRoom (roomCode s)]); auto;
        try (repeat (constructor 2; [first [left; reflexivity | right; eexists; reflexivity]|]);
             constructor 1).
  - right. apply (Hfail _ _ [SelectRoom (roomCode s); ConsoleError "Error joining room:"]); auto;
        try (repeat (constructor 2; [first [left; reflexivity | right; eexists; reflexivity]|]);
             constructor 1).
Qed.

(** X7. [joinRoom] has two outcomes. Either it joins: the room was
    found, the ban check answered [false], and it stores the session,
    shows the success toast, calls [onJoinSuccess] when given, resets the
    dialog and closes it. Or it does not: nothing is stored, nothing is
    signalled, the dialog stays open with its fields as they were, and
    exactly one toast is shown, a destructive one. *)
Theorem joinRoom_outcomes
    (hashString : string -> string) (hasOnJoinSuccess : bool)
    (db : Database) (oRoom oBans : Outcome) (now : Z) (s : State) :
  let result := joinRoom hashString hasOnJoinSuccess db oRoom oBans now s in
  let name := formatDisplayName (displayName s) in
  (exists roomData,
     selectRoomByCode db oRoom (roomCode s) = Data roomData
     /\ isDisplayNameBanned db oBans (room_id roomData) name = Some false
     /\ fst result = {| roomCode := ""; displayName := ""; password := "";
                        isJoining := false; step := code; roomInfo := None |}
     /\ snd result
        = [SelectRoom (roomCode s); SelectBans (room_id roomData) name;
           SetItem "blacksite_session"
             (SessionJSON {| session_roomCode := roomCode s; session_displayName := name;
                             session_joinedAt := now |});
           Toast "Joined room successfully!" false]
          ++ (if hasOnJoinSuccess then [OnJoinSuccess (roomCode s) name] else [])
          ++ [OnOpenChange false])
  \/ (roomCode (fst result) = roomCode s
      /\ displayName (fst result) = displayName s
      /\ password (fst result) = password s
      /\ step (fst result) = step s
      /\ roomInfo (fst result) = roomInfo s
      /\ (forall key v, ~ In (SetItem key v) (snd result))
      /\ (forall c n, ~ In (OnJoinSuccess c n) (snd result))
      /\ (forall b, ~ In (OnOpenChange b) (snd result))
      /\ exists t, List.filter isToast (snd result) = [Toast t destructive]).
Proof. exact (joinRoom_cases hashString hasOnJoinSuccess db oRoom oBans now s). Qed.

(** X8. Whatever [joinRoom] writes to the local storage is the session
    of the room code of the dialog under the key [blacksite_session],
    with a display name of 1 to 25 characters that does not start with
    white space. *)
Theorem joinRoom_stores_wellformed_session
    (hashString : string -> string) (hasOnJoinSuccess : bool)
    (db : Database) (oRoom oBans : Outcome) (now : Z) (s : State)
    (key : string) (v : Stored) :
  In (SetItem key v) (snd (joinRoom hashString hasOnJoinSuccess db oRoom oBans now s)) ->
  key = "blacksite_session"
  /\ (exists name rest first,
        v = SessionJSON {| session_roomCode := roomCode s; session_displayName := name;
                           session_joinedAt := now |}
        /\ name = formatDisplayName (displayName s)
        /\ name = String first rest /\ isWhiteSpace first = false
        /\ 1 <= String.length name <= 25).
Proof.
  intros Hin.
  pose proof (joinRoom_cases hashString hasOnJoinSuccess db oRoom oBans now s) as Hout.
  cbv zeta in Hout. destruct Hout as [(roomData & _ & _ & _ & Heff)|Hfail].
  - rewrite Heff in Hin.
    assert (Hname : nonEmpty (formatDisplayName (displayName s)) = true).
    { unfold joinRoom in Heff.
      destruct (nonEmpty (formatDisplayName (displayName s))); [reflexivity|].
      discriminate Heff. }
    assert (Hv : key = "blacksite_session"
                 /\ v = SessionJSON {| session_roomCode := roomCode s;
                                      session_displayName := formatDisplayName (displayName s);
                                      session_joinedAt := now |}).
    { cbn in Hin. destruct hasOnJoinSuccess; cbn in Hin;
        repeat (destruct Hin as [Hin|Hin]; try discriminate Hin);
        try (injection Hin as <- <-; now split); destruct Hin. }
    destruct Hv as [-> ->]. split; [reflexivity|].
    destruct (formatDisplayName_facts (displayName s)) as (Hlen & _ & Hhead).
    destruct (formatDisplayName (displayName s)) as [|c rest] eqn:Hf; [discriminate|].
    exists (String c rest), rest, c. repeat split; try assumption.
    + now apply (Hhead c rest).
    + cbn [String.length]. lia.
  - destruct Hfail as (_ & _ & _ & _ & _ & Hno & _). now apply Hno in Hin.
Qed.

End DialogOutcomes.

Section StoredSessionWitness.
Import JS RoomUtils Supabase Effects Bans JoinRoomModal.

Lemma joinRoom_stores_wellformed_session_witness :
  let room := {| room_id := "r1"; room_code := "ABCD-1234"; room_title := "Retro";
                 room_description := None; owner_token_hash := "o";
                 is_ephemeral := false; expiry_at := None;
                 password_hash := None; room_created_at := 0 |} in
  let db := {| rooms := [room]; posts := []; comments := []; bans := []; db_now := 5 |} in
  let s := {| roomCode := "ABCD-1234"; displayName := "  eve  "; password := "";
              isJoining := false; step := details; roomInfo := None |} in
  let v := SessionJSON {| session_roomCode := "ABCD-1234"; session_displayName := "eve";
                          session_joinedAt := 9 |} in
  "blacksite_session" = "blacksite_session"
  /\ (exists name rest first,
        v = SessionJSON {| session_roomCode := roomCode s; session_displayName := name;
                           session_joinedAt := 9 |}
        /\ name = formatDisplayName (displayName s)
        /\ name = String first rest /\ isWhiteSpace first = false
        /\ 1 <= String.length name <= 25).
Proof.
  intros room db s v.
  apply (joinRoom_stores_wellformed_session (fun p => p) true db Served Served 9%Z s
           "blacksite_session" v).
  vm_compute. right. right. left. reflexivity.
Defined.

End StoredSessionWitness.

(** ** The room-code input *)

Section RoomCodeInputFacts.
Import JS RoomUtils Spec JoinRoomModal RoomCodeInput.

Lemma string_length_list s : String.length s = length (list_ascii_of_string s).
Proof. induction s as [|c s IH]; cbn; [reflexivity | now rewrite IH]. Qed.

Lemma string_of_list_length l : String.length (string_of_list_ascii l) = length l.
Proof. induction l as [|c l IH]; cbn; [reflexivity | now rewrite IH]. Qed.

Lemma append_length s t : String.length (s +:+ t) = String.length s + String.length t.
Proof.
  induction s as [|c s IH]; [reflexivity|]. rewrite append_cons. cbn. now rewrite IH.
Qed.

Lemma substring_list n : forall m s,
  String.substring n m s
  = string_of_list_ascii (take m (drop n (list_ascii_of_string s))).
Proof.
  induction n as [|n IHn].
  - induction m as [|m IHm]; intros [|c s]; cbn; try reflexivity.
    now rewrite IHm.
  - intros m [|c s]; cbn [String.substring list_ascii_of_string drop].
    + now destruct m.
    + apply IHn.
Qed.

Lemma keepUpperAlnum_append s t :
  keepUpperAlnum (s +:+ t) = keepUpperAlnum s +:+ keepUpperAlnum t.
Proof.
  induction s as [|c s IH]; [reflexivity|]. rewrite append_cons. cbn [keepUpperAlnum].
  destruct (atomMatches upperAlnum c); [rewrite append_cons|]; now rewrite IH.
Qed.

Lemma keepUpperAlnum_all v c :
  In c (list_ascii_of_string (keepUpperAlnum v)) -> atomMatches upperAlnum c = true.
Proof.
  induction v as [|x v IH]; cbn [keepUpperAlnum]; [intros []|].
  destruct (atomMatches upperAlnum x) eqn:Hx; [|exact IH].
  cbn [list_ascii_of_string In]. intros [<-|Hc]; auto.
Qed.

Lemma keepUpperAlnum_fixed l :
  Forall (fun c => atomMatches upperAlnum c = true) l ->
  keepUpperAlnum (string_of_list_ascii l) = string_of_list_ascii l.
Proof.
  induction 1 as [|c l Hc _ IH]; [reflexivity|].
  cbn [string_of_list_ascii keepUpperAlnum]. now rewrite Hc, IH.
Qed.

Lemma upperChar_fixed c : atomMatches upperAlnum c = true -> upperChar c = String c "".
Proof.
  intros Hc. apply upperAlnum_spec in Hc. unfold isUpperOrDigit in Hc. unfold upperChar.
  destruct (Nat.eqb (nat_of_ascii c) 223) eqn:E1; [apply Nat.eqb_eq in E1; lia|].
  destruct (Nat.leb 97 (nat_of_ascii c)) eqn:E2; [apply Nat.leb_le in E2; lia|].
  destruct (Nat.leb 224 (nat_of_ascii c)) eqn:E3; [apply Nat.leb_le in E3; lia|].
  reflexivity.
Qed.

Lemma toUpperCase_fixed l :
  Forall (fun c => atomMatches upperAlnum c = true) l ->
  toUpperCase (string_of_list_ascii l) = string_of_list_ascii l.
Proof.
  induction 1 as [|c l Hc _ IH]; [reflexivity|]. cbn [string_of_list_ascii toUpperCase].
  now rewrite (upperChar_fixed c Hc), IH.
Qed.

(** The cleaned text of [formatRoomCode], as a list of characters. *)
Lemma cleaned_list v :
  exists L,
    Forall (fun c => atomMatches upperAlnum c = true) L
    /\ keepUpperAlnum v = string_of_list_ascii L
    /\ formatRoomCode v
       = if Nat.leb (length L) 4 then string_of_list_ascii L
         else string_of_list_ascii (take 4 L) +:+ "-"
              +:+ string_of_list_ascii (take 4 (drop 4 L)).
Proof.
  exists (list_ascii_of_string (keepUpperAlnum v)).
  assert (HL : Forall (fun c => atomMatches upperAlnum c = true)
                 (list_ascii_of_string (keepUpperAlnum v))).
  { apply Forall_forall. intros c Hc. apply (keepUpperAlnum_all v).
    now apply list_elem_of_In. }
  split; [exact HL|]. split; [now rewrite string_of_list_ascii_of_string|].
  unfold formatRoomCode, slice.
  assert (HU : toUpperCase (keepUpperAlnum v) = keepUpperAlnum v).
  { rewrite <- (string_of_list_ascii_of_string (keepUpperAlnum v)) at 2.
    rewrite <- (toUpperCase_fixed _ HL).
    now rewrite string_of_list_ascii_of_string. }
  rewrite HU, string_length_list, !substring_list.
  destruct (Nat.leb (length (list_ascii_of_string (keepUpperAlnum v))) 4);
    [now rewrite string_of_list_ascii_of_string | reflexivity].
Qed.

Lemma hyphen_not_upperAlnum : atomMatches upperAlnum "-" = false.
Proof. reflexivity. Qed.

Lemma valid_length s : isValidRoomCode s = true -> String.length s = 9.
Proof.
  intros H. apply isValidRoomCode_shape in H as (a & b & -> & Ha & Hb & _).
  rewrite !append_length, !string_of_list_length, Ha, Hb. reflexivity.
Qed.

(** A text of four code characters, a hyphen and one to four more is
    left as it is. *)
Lemma formatRoomCode_fixed a b :
  Forall (fun c => atomMatches upperAlnum c = true) a ->
  Forall (fun c => atomMatches upperAlnum c = true) b ->
  length a = 4 -> 1 <= length b <= 4 ->
  formatRoomCode (string_of_list_ascii a +:+ "-" +:+ string_of_list_ascii b)
  = string_of_list_ascii a +:+ "-" +:+ string_of_list_ascii b.
Proof.
  intros Fa Fb Ha Hb.
  destruct (cleaned_list (string_of_list_ascii a +:+ "-" +:+ string_of_list_ascii b))
    as (L & _ & HL & ->).
  rewrite !keepUpperAlnum_append, (keepUpperAlnum_fixed a Fa), (keepUpperAlnum_fixed b Fb)
    in HL.
  cbn [keepUpperAlnum] in HL. rewrite hyphen_not_upperAlnum in HL. cbn [keepUpperAlnum] in HL.
  rewrite append_nil in HL.
  assert (HLab : L = a ++ b).
  { rewrite <- (list_ascii_of_string_of_list_ascii L), <- HL.
    clear. induction a as [|c a IH]; cbn.
    - now rewrite append_nil, list_ascii_of_string_of_list_ascii.
    - rewrite append_cons. cbn. now rewrite IH. }
  subst L. rewrite length_app.
  destruct (Nat.leb (length a + length b) 4) eqn:E; [apply Nat.leb_le in E; lia|].
  rewrite take_app_length' by lia. rewrite drop_app_length' by lia.
  rewrite take_ge by lia. reflexivity.
Qed.

Lemma formatRoomCode_short L :
  Forall (fun c => atomMatches upperAlnum c = true) L -> length L <= 4 ->
  formatRoomCode (string_of_list_ascii L) = string_of_list_ascii L.
Proof.
  intros FL Hlen. destruct (cleaned_list (string_of_list_ascii L)) as (L' & _ & HL' & ->).
  rewrite (keepUpperAlnum_fixed L FL) in HL'.
  assert (L' = L) as ->.
  { rewrite <- (list_ascii_of_string_of_list_ascii L'), <- HL'.
    apply list_ascii_of_string_of_list_ascii. }
  apply Nat.leb_le in Hlen. now rewrite Hlen.
Qed.

Lemma formatRoomCode_valid_fixed c : isValidRoomCode c = true -> formatRoomCode c = c.
Proof.
  intros H. apply isValidRoomCode_shape in H as (a & b & -> & Ha & Hb & Fa & Fb).
  apply formatRoomCode_fixed; try lia.
  - eapply Forall_impl; [exact Fa|]. intros c. apply upperAlnum_spec.
  - eapply Forall_impl; [exact Fb|]. intros c. apply upperAlnum_spec.
Qed.

(** X9. What [formatRoomCode] returns has at most nine characters, and
    it passes [isValidRoomCode] exactly when the typed text holds at
    least eight characters among A-Z and 0-9. *)
Theorem formatRoomCode_valid_iff (value : string) :
  String.length (formatRoomCode value) <= 9
  /\ (isValidRoomCode (formatRoomCode value) = true
      <-> 8 <= String.length (keepUpperAlnum value)).
Proof.
  destruct (cleaned_list value) as (L & FL & HK & ->). rewrite HK, string_of_list_length.
  destruct (Nat.leb (length L) 4) eqn:E.
  - apply Nat.leb_le in E. rewrite string_of_list_length. split; [lia|].
    split; [|lia]. intros Hv. apply valid_length in Hv.
    rewrite string_of_list_length in Hv. lia.
  - apply Nat.leb_gt in E.
    rewrite !append_length, !string_of_list_length, length_take, length_take, length_drop.
    cbn [String.length]. split; [lia|]. split.
    + intros Hv. apply valid_length in Hv.
      rewrite !append_length, !string_of_list_length, length_take, length_take, length_drop
        in Hv. cbn [String.length] in Hv. lia.
    + intros Hlen. apply isValidRoomCode_shape.
      exists (take 4 L), (take 4 (drop 4 L)).
      rewrite length_take, length_take, length_drop.
      split; [reflexivity|]. split; [lia|]. split; [lia|]. split.
      * eapply Forall_impl; [apply Forall_take, FL|]. intros c. apply upperAlnum_spec.
      * eapply Forall_impl; [apply Forall_take, Forall_drop, FL|].
        intros c. apply upperAlnum_spec.
Qed.

(** X10. [formatRoomCode] is idempotent, and it leaves every well-formed
    room code as it is. *)
Theorem formatRoomCode_idempotent (value : string) :
  formatRoomCode (formatRoomCode value) = formatRoomCode value
  /\ (isValidRoomCode value = true -> formatRoomCode value = value).
Proof.
  split; [|apply formatRoomCode_valid_fixed].
  destruct (cleaned_list value) as (L & FL & _ & ->).
  destruct (Nat.leb (length L) 4) eqn:E.
  - apply Nat.leb_le in E. now apply formatRoomCode_short.
  - apply Nat.leb_gt in E. apply formatRoomCode_fixed.
    + now apply Forall_take.
    + now apply Forall_take, Forall_drop.
    + rewrite length_take. lia.
    + rewrite length_take, length_drop. lia.
Qed.

Lemma formatRoomCode_idempotent_witness : formatRoomCode "K7QP-2M9X" = "K7QP-2M9X".
Proof.
  apply (proj2 (formatRoomCode_idempotent "K7QP-2M9X")). reflexivity.
Defined.

(** X11. [formatRoomCode] discards every character that is not among
    A-Z and 0-9 before it turns the text to upper case: such a character,
    a lower-case letter included, contributes nothing to the result. *)
Theorem formatRoomCode_discards_other (before after : string) (c : ascii) :
  ~ isUpperOrDigit c ->
  formatRoomCode (before +:+ String c after) = formatRoomCode (before +:+ after).
Proof.
  intros Hc. unfold formatRoomCode. rewrite !keepUpperAlnum_append. cbn [keepUpperAlnum].
  destruct (atomMatches upperAlnum c) eqn:E; [|reflexivity].
  now apply upperAlnum_spec in E.
Qed.

Lemma formatRoomCode_discards_other_witness :
  formatRoomCode ("AB" +:+ String "c" "D1234567") = formatRoomCode ("AB" +:+ "D1234567").
Proof.
  apply (formatRoomCode_discards_other "AB" "D1234567" "c").
  unfold isUpperOrDigit. change (nat_of_ascii "c") with 99. lia.
Defined.

(** X12. A code made by [generateRoomCode], typed or pasted into the
    room-code input, is shown unchanged and passes the format check of
    the dialog. *)
Theorem generated_code_survives_input (random : nat -> Q) (s : State) :
  unitDraws random ->
  roomCode (handleRoomCodeChange (generateRoomCode random) s) = generateRoomCode random
  /\ isValidRoomCode (roomCode (handleRoomCodeChange (generateRoomCode random) s)) = true.
Proof.
  intros Hr. pose proof (generateRoomCode_valid random Hr) as Hv.
  cbn [handleRoomCodeChange roomCode]. rewrite (formatRoomCode_valid_fixed _ Hv).
  now split.
Qed.

Lemma generated_code_survives_input_witness :
  let s := {| roomCode := ""; displayName := ""; password := ""; isJoining := false;
              step := code; roomInfo := None |} in
  roomCode (handleRoomCodeChange (generateRoomCode (fun _ => (1 # 4)%Q)) s)
  = generateRoomCode (fun _ => (1 # 4)%Q)
  /\ isValidRoomCode (roomCode (handleRoomCodeChange (generateRoomCode (fun _ => (1 # 4)%Q)) s))
     = true.
Proof.
  intros s. apply (generated_code_survives_input (fun _ => (1 # 4)%Q) s).
  intros i _. split; [discriminate | reflexivity].
Defined.

End RoomCodeInputFacts.

(** ** The room page *)

Section RoomPageFacts.
Import JS RoomUtils Supabase Effects RoomPageView.

Lemma owner_key_not_session_key roomCode :
  "blacksite_owner_" +:+ roomCode <> "blacksite_session".
Proof. cbv [String.append]. discriminate. Qed.

Lemma ownerDataOf_after_session (ls : gmap string Stored) v roomCode :
  ownerDataOf (<["blacksite_session" := v]> ls) roomCode = ownerDataOf ls roomCode.
Proof.
  unfold ownerDataOf, RoomPage.getItem. rewrite lookup_insert_ne; [reflexivity|].
  intros H. now apply (owner_key_not_session_key roomCode).
Qed.

(** Loading a stored session of the room that is opened. *)
Lemma loadSession_stored JSON_parse roomCode (ls : gmap string Stored) v s0 :
  ls !! "blacksite_session" = Some (SessionJSON v) ->
  session_roomCode v = roomCode ->
  loadSession JSON_parse roomCode ls s0
  = {| page := withSession (session_displayName v) (ownerDataOf ls roomCode) s0;
       storage := ls; sessionLoading := false; warnings := [] |}.
Proof.
  intros Hls Hcode. unfold loadSession. rewrite Hls, Hcode. cbn [strictEq].
  now rewrite String.eqb_refl.
Qed.

(** X13. Joining through the inline gate and opening the page again for
    the same room restores the same session: the same display name, owner
    flag and owner token, with the local storage left as the join wrote
    it. *)
Theorem joinClick_then_loadSession
    (JSON_parse : string -> Parsed) (roomCode : string) (ls : gmap string Stored)
    (now : Z) (s s0 : RoomPage.State) :
  formatDisplayName (RoomPage.joinName s) <> "" ->
  let clicked := RoomPage.joinClick roomCode ls now s in
  let reloaded := loadSession JSON_parse roomCode (storageAfter (snd clicked) ls) s0 in
  RoomPage.session (page reloaded) = RoomPage.session (fst clicked)
  /\ RoomPage.session (page reloaded) <> None
  /\ storage reloaded = storageAfter (snd clicked) ls.
Proof.
  intros Hname clicked reloaded. subst clicked reloaded. unfold RoomPage.joinClick.
  apply nonEmpty_true in Hname. rewrite Hname. cbn [negb fst snd storageAfter fold_left].
  erewrite loadSession_stored; [|apply lookup_insert_eq|reflexivity].
  cbn [page storage withSession RoomPage.session session_displayName].
  repeat split. discriminate.
Qed.

Lemma joinClick_then_loadSession_witness :
  let s := {| RoomPage.joinName := " ann "; RoomPage.joining := false;
              RoomPage.session := None |} in
  let clicked := RoomPage.joinClick "ABCD-1234" ∅ 7 s in
  let reloaded := loadSession (fun _ => ParseThrows) "ABCD-1234"
                    (storageAfter (snd clicked) ∅) s in
  RoomPage.session (page reloaded) = RoomPage.session (fst clicked)
  /\ RoomPage.session (page reloaded) <> None
  /\ storage reloaded = storageAfter (snd clicked) ∅.
Proof.
  intros s.
  apply (joinClick_then_loadSession (fun _ => ParseThrows) "ABCD-1234" ∅ 7%Z s s).
  discriminate.
Defined.

(** X14. There is one session at a time: after a join through the
    inline gate of one room, opening the page of another room finds no
    session for it, whatever the storage held before, and leaves the
    stored session alone. *)
Theorem session_of_other_room_ignored
    (JSON_parse : string -> Parsed) (joined opened : string) (ls : gmap string Stored)
    (now : Z) (s s0 : RoomPage.State) :
  formatDisplayName (RoomPage.joinName s) <> "" ->
  joined <> opened ->
  let after := storageAfter (snd (RoomPage.joinClick joined ls now s)) ls in
  page (loadSession JSON_parse opened after s0) = s0
  /\ storage (loadSession JSON_parse opened after s0) = after.
Proof.
  intros Hname Hne after. subst after. unfold RoomPage.joinClick.
  apply nonEmpty_true in Hname. rewrite Hname. cbn [negb fst snd storageAfter fold_left].
  unfold loadSession. rewrite lookup_insert_eq. cbn [session_roomCode strictEq].
  apply String.eqb_neq in Hne. rewrite Hne. now split.
Qed.

Lemma session_of_other_room_ignored_witness :
  let s := {| RoomPage.joinName := "ann"; RoomPage.joining := false;
              RoomPage.session := None |} in
  let after := storageAfter (snd (RoomPage.joinClick "ABCD-1234" ∅ 7 s)) ∅ in
  page (loadSession (fun _ => ParseThrows) "WXYZ-5678" after s) = s
  /\ storage (loadSession (fun _ => ParseThrows) "WXYZ-5678" after s) = after.
Proof.
  intros s.
  apply (session_of_other_room_ignored (fun _ => ParseThrows) "ABCD-1234" "WXYZ-5678"
           ∅ 7%Z s s); discriminate.
Defined.

End RoomPageFacts.

Section RoomPageFlowFacts.
Import JS RoomUtils Supabase Effects Bans RoomPageView.

(** X15. A join through the dialog carries over to the room page: with
    the local storage as [joinRoom] left it, the page opened for the
    dialog's room code finds a session whose display name is the
    formatted name, and that is an owner session exactly when an owner
    token is stored for the room. *)
Theorem joinRoom_then_loadSession
    (hashString : string -> string) (hasOnJoinSuccess : bool)
    (db : Database) (oRoom oBans : Outcome) (now : Z) (s : JoinRoomModal.State)
    (JSON_parse : string -> Parsed) (ls : gmap string Stored) (s0 : RoomPage.State) :
  let effects := snd (JoinRoomModal.joinRoom hashString hasOnJoinSuccess db oRoom oBans now s) in
  existsb storesSession effects = true ->
  RoomPage.session
    (page (loadSession JSON_parse (JoinRoomModal.roomCode s) (storageAfter effects ls) s0))
  = Some {| RoomPage.displayName := formatDisplayName (JoinRoomModal.displayName s);
            RoomPage.isOwner := truthy (ownerDataOf ls (JoinRoomModal.roomCode s));
            RoomPage.ownerToken :=
              RoomPage.orUndefined (ownerDataOf ls (JoinRoomModal.roomCode s)) |}.
Proof.
  intros effects Hstored. subst effects.
  destruct (joinRoom_cases hashString hasOnJoinSuccess db oRoom oBans now s)
    as [(roomData & _ & _ & _ & Heff)|Hfail].
  - rewrite Heff.
    assert (Hst : storageAfter
                    ([SelectRoom (JoinRoomModal.roomCode s);
                      SelectBans (room_id roomData)
                        (formatDisplayName (JoinRoomModal.displayName s));
                      SetItem "blacksite_session"
                        (SessionJSON
                           {| session_roomCode := JoinRoomModal.roomCode s;
                              session_displayName :=
                                formatDisplayName (JoinRoomModal.displayName s);
                              session_joinedAt := now |});
                      Toast "Joined room successfully!" false]
                     ++ (if hasOnJoinSuccess
                         then [OnJoinSuccess (JoinRoomModal.roomCode s)
                                 (formatDisplayName (JoinRoomModal.displayName s))]
                         else [])
                     ++ [OnOpenChange false]) ls
                  = <["blacksite_session" :=
                        SessionJSON
                          {| session_roomCode := JoinRoomModal.roomCode s;
                             session_displayName :=
                               formatDisplayName (JoinRoomModal.displayName s);
                             session_joinedAt := now |}]> ls)
      by (destruct hasOnJoinSuccess; reflexivity).
    rewrite Hst. erewrite loadSession_stored; [|apply lookup_insert_eq|reflexivity].
    cbn [page withSession RoomPage.session session_displayName].
    now rewrite ownerDataOf_after_session.
  - destruct Hfail as (_ & _ & _ & _ & _ & Hno & _). exfalso.
    apply existsb_exists in Hstored as (e & Hin & He).
    destruct e; try discriminate He. now apply Hno in Hin.
Qed.

Lemma joinRoom_then_loadSession_witness :
  let room := {| room_id := "r1"; room_code := "ABCD-1234"; room_title := "Retro";
                 room_description := None; owner_token_hash := "o";
                 is_ephemeral := false; expiry_at := None;
                 password_hash := None; room_created_at := 0 |} in
  let db := {| rooms := [room]; posts := []; comments := []; bans := []; db_now := 5 |} in
  let s := {| JoinRoomModal.roomCode := "ABCD-1234"; JoinRoomModal.displayName := " eve ";
              JoinRoomModal.password := ""; JoinRoomModal.isJoining := false;
              JoinRoomModal.step := JoinRoomModal.details;
              JoinRoomModal.roomInfo := None |} in
  let s0 := {| RoomPage.joinName := ""; RoomPage.joining := false;
               RoomPage.session := None |} in
  RoomPage.session
    (page (loadSession (fun _ => ParseThrows) "ABCD-1234"
             (storageAfter
                (snd (JoinRoomModal.joinRoom (fun p => p) true db Served Served 9 s)) ∅) s0))
  = Some {| RoomPage.displayName := formatDisplayName " eve ";
            RoomPage.isOwner := truthy (ownerDataOf ∅ "ABCD-1234");
            RoomPage.ownerToken := RoomPage.orUndefined (ownerDataOf ∅ "ABCD-1234") |}.
Proof.
  intros room db s s0.
  apply (joinRoom_then_loadSession (fun p => p) true db Served Served 9%Z s
           (fun _ => ParseThrows) ∅ s0).
  reflexivity.
Defined.

(** X16. The label of [formatTimestamp]: "Just now" when less than a
    minute has passed, a time in the future included; between 1 and 59
    whole minutes below an hour; between 1 and 23 whole hours below a
    day; the date from a day on. *)
Theorem formatTimestamp_labels (now timestamp : Z) :
  match formatTimestamp now timestamp with
  | JustNow => (now - timestamp < 60000)%Z
  | MinutesAgo m =>
      (1 <= m <= 59)%Z /\ (m * 60000 <= now - timestamp < (m + 1) * 60000)%Z
  | HoursAgo h =>
      (1 <= h <= 23)%Z /\ (h * 3600000 <= now - timestamp < (h + 1) * 3600000)%Z
  | LocaleDate t => t = timestamp /\ (86400000 <= now - timestamp)%Z
  end.
Proof.
  unfold formatTimestamp.
  change (1000 * 60 * 60)%Z with 3600000%Z. change (1000 * 60)%Z with 60000%Z.
  set (d := (now - timestamp)%Z).
  pose proof (Z.div_mod d 3600000 ltac:(lia)) as Hh.
  pose proof (Z.mod_pos_bound d 3600000 ltac:(lia)) as Hhb.
  pose proof (Z.div_mod d 60000 ltac:(lia)) as Hm.
  pose proof (Z.mod_pos_bound d 60000 ltac:(lia)) as Hmb.
  destruct (d / 3600000 <? 1)%Z eqn:E1.
  - apply Z.ltb_lt in E1. destruct (d / 60000 <? 1)%Z eqn:E2.
    + apply Z.ltb_lt in E2. lia.
    + apply Z.ltb_ge in E2. lia.
  - apply Z.ltb_ge in E1. destruct (d / 3600000 <? 24)%Z eqn:E3.
    + apply Z.ltb_lt in E3. lia.
    + apply Z.ltb_ge in E3. split; [reflexivity | lia].
Qed.

Lemma filter_partition_perm {A} (p : A -> bool) l :
  Permutation (List.filter p l ++ List.filter (fun x => negb (p x)) l) l.
Proof.
  induction l as [|x l IH]; [reflexivity|]. cbn [List.filter].
  destruct (p x); cbn [negb app].
  - now constructor.
  - rewrite <- Permutation_middle. now constructor.
Qed.

Lemma filter_filter_same {A} (p : A -> bool) l :
  List.filter p (List.filter p l) = List.filter p l.
Proof.
  induction l as [|x l IH]; [reflexivity|]. cbn [List.filter].
  destruct (p x) eqn:E; [cbn [List.filter]; rewrite E; now f_equal | exact IH].
Qed.

Lemma filter_filter_neg {A} (p q : A -> bool) l :
  (forall x, p x = true -> q x = false) -> List.filter q (List.filter p l) = [].
Proof.
  intros Hpq. induction l as [|x l IH]; [reflexivity|]. cbn [List.filter].
  destruct (p x) eqn:E; [cbn [List.filter]; now rewrite (Hpq x E) | exact IH].
Qed.

(** X17. [orderedPosts] only reorders the posts. The pinned ones come
    first, then the others, and inside each group the posts keep the
    order they had. *)
Theorem orderedPosts_pinned_first (posts : list UseRoom.Post) :
  Permutation (orderedPosts posts) posts
  /\ (exists front back,
        orderedPosts posts = front ++ back
        /\ Forall (fun p => isPinned p = true) front
        /\ Forall (fun p => isPinned p = false) back)
  /\ List.filter isPinned (orderedPosts posts) = List.filter isPinned posts
  /\ List.filter (fun p => negb (isPinned p)) (orderedPosts posts)
     = List.filter (fun p => negb (isPinned p)) posts.
Proof.
  unfold orderedPosts. split; [apply filter_partition_perm|]. split.
  - exists (List.filter isPinned posts), (List.filter (fun p => negb (isPinned p)) posts).
    split; [reflexivity|]. split; apply Forall_forall; intros p Hp;
      apply list_elem_of_In, filter_In in Hp as [_ Hp];
      [exact Hp | now apply negb_true_iff].
  - rewrite !List.filter_app, !filter_filter_same.
    rewrite (filter_filter_neg (fun p => negb (isPinned p)) isPinned)
      by (intros x Hx; now apply negb_true_iff).
    rewrite (filter_filter_neg isPinned (fun p => negb (isPinned p)))
      by (intros x Hx; now rewrite Hx).
    now rewrite app_nil_r.
Qed.

(** X18. [toggleComments] flips one post and nothing else: afterwards
    the post is expanded exactly if it was not, every other post is as
    before, and toggling twice gives back the set. *)
Theorem toggleComments_flips_one (postId : string) (expandedComments : gset string) :
  toggleComments postId (toggleComments postId expandedComments) = expandedComments
  /\ (postId ∈ toggleComments postId expandedComments <-> postId ∉ expandedComments)
  /\ (forall other, other <> postId ->
        (other ∈ toggleComments postId expandedComments <-> other ∈ expandedComments)).
Proof.
  unfold toggleComments. split; [|split].
  - destruct (decide (postId ∈ expandedComments)) as [Hin|Hout].
    + rewrite decide_False by set_solver. apply set_eq. intros x.
      destruct (decide (x = postId)); set_solver.
    + rewrite decide_True by set_solver. apply set_eq. intros x.
      destruct (decide (x = postId)); set_solver.
  - destruct (decide (postId ∈ expandedComments)); set_solver.
  - intros other Hne. destruct (decide (postId ∈ expandedComments)); set_solver.
Qed.

End RoomPageFlowFacts.

(** ** Sorted output *)

Section SortedFacts.
Context {A : Type} (rank : A -> Z) (cmp : A -> A -> Z).
Hypothesis cmp_rank : forall a b, (cmp a b <? 0)%Z = (rank a <? rank b)%Z.

Lemma insertSorted_HdRel y x l :
  (rank y <= rank x)%Z ->
  HdRel (fun a b => (rank a <= rank b)%Z) y l ->
  HdRel (fun a b => (rank a <= rank b)%Z) y (JSArray.insertSorted cmp x l).
Proof.
  intros Hyx Hy. destruct l as [|z l]; cbn [JSArray.insertSorted]; [now constructor|].
  destruct (cmp z x <? 0)%Z; constructor; [now inversion Hy | assumption].
Qed.

Lemma insertSorted_sorted x l :
  Sorted (fun a b => (rank a <= rank b)%Z) l ->
  Sorted (fun a b => (rank a <= rank b)%Z) (JSArray.insertSorted cmp x l).
Proof.
  induction 1 as [|y l Hl IH Hy]; cbn [JSArray.insertSorted]; [repeat constructor|].
  destruct (cmp y x <? 0)%Z eqn:E; rewrite cmp_rank in E.
  - apply Z.ltb_lt in E. constructor; [exact IH|].
    apply insertSorted_HdRel; [lia | exact Hy].
  - apply Z.ltb_ge in E. constructor; [now constructor|]. now constructor.
Qed.

Lemma sort_sorted l :
  StronglySorted (fun a b => (rank a <= rank b)%Z) (JSArray.sort cmp l).
Proof.
  apply Sorted_StronglySorted; [intros a b c; lia|].
  induction l as [|x l IH]; [constructor|].
  unfold JSArray.sort in *. cbn [foldr]. now apply insertSorted_sorted.
Qed.
End SortedFacts.

Section SortMapFacts.
Context {A B : Type} (f : A -> B) (cmp : A -> A -> Z) (cmp' : B -> B -> Z).

Lemma insertSorted_map x l :
  (forall y, In y l -> cmp' (f y) (f x) = cmp y x) ->
  JSArray.insertSorted cmp' (f x) (map f l) = map f (JSArray.insertSorted cmp x l).
Proof.
  induction l as [|y l IH]; intros H; [reflexivity|].
  cbn [map JSArray.insertSorted]. rewrite (H y) by now left.
  destruct (cmp y x <? 0)%Z; [|reflexivity]. cbn [map]. f_equal.
  apply IH. intros z Hz. apply H. now right.
Qed.

Lemma sort_map l :
  (forall a b, In a l -> In b l -> cmp' (f a) (f b) = cmp a b) ->
  JSArray.sort cmp' (map f l) = map f (JSArray.sort cmp l).
Proof.
  induction l as [|x l IH]; intros H; [reflexivity|].
  unfold JSArray.sort in *. cbn [map foldr].
  rewrite IH by (intros a b Ha Hb; apply H; now right).
  apply insertSorted_map. intros y Hy. apply H; [right|now left].
  now apply (sort_In cmp y l).
Qed.
End SortMapFacts.

(** ** What the hook shows *)

Section HookFacts.
Import JS Supabase Effects UseRoom Spec.

Lemma filter_filter_implies {A} (p q : A -> bool) l :
  (forall x, q x = true -> p x = true) ->
  List.filter q (List.filter p l) = List.filter q l.
Proof.
  intros Hqp. induction l as [|x l IH]; [reflexivity|]. cbn [List.filter].
  destruct (p x) eqn:Ep; cbn [List.filter].
  - destruct (q x); now rewrite IH.
  - destruct (q x) eqn:Eq; [rewrite (Hqp x Eq) in Ep; discriminate | exact IH].
Qed.

(** X19. When the request is served, the posts that [loadPosts] sets
    are exactly the stored posts of the requested room whose [deleted_at]
    is null, each once, and the [comment_count] of each is the number of
    stored comments of that post whose [deleted_at] is null, whether or
    not the threading keeps them. *)
Theorem loadPosts_lists_live_posts_of_room (db : Database) (roomId : string) (s : State) :
  let loaded := posts (fst (loadPosts db Served roomId s)) in
  Permutation (map row loaded)
    (List.filter (fun r => String.eqb (post_room_id r) roomId && isNull (post_deleted_at r))
       (Supabase.posts db))
  /\ (forall p, In p loaded ->
        comment_count p
        = length (List.filter
                    (fun c => String.eqb (comment_post_id c) (post_id (row p))
                              && isNull (deleted_at c))
                    (comments db))).
Proof.
  intros loaded. subst loaded. unfold loadPosts, selectPosts.
  cbn [request fst setPosts posts]. split.
  - rewrite !map_map.
    rewrite (map_ext _ (fun x => x)) by (intros x; reflexivity). rewrite map_id.
    rewrite sort_perm. unfold postsQueryFilter.
    rewrite filter_filter_implies; [reflexivity|].
    intros x Hx. apply andb_true_iff in Hx as [_ Hx]. exact Hx.
  - intros p Hp. apply in_map_iff in Hp as ([r cs] & <- & Hin).
    apply in_map_iff in Hin as (r' & [= <- <-] & _).
    cbn [processPost comment_count row]. unfold embeddedComments, comments_select_policy.
    f_equal. clear. induction (comments db) as [|c l IH]; [reflexivity|].
    cbn [List.filter]. destruct (isNull (deleted_at c)); cbn [List.filter].
    + rewrite andb_true_r. destruct (String.eqb _ _); now rewrite IH.
    + rewrite andb_false_r. exact IH.
Qed.

(** X20. The posts that [loadPosts] sets are ordered from the newest to
    the oldest [created_at]. *)
Theorem loadPosts_newest_first (db : Database) (roomId : string) (s : State) :
  StronglySorted (fun p q => (post_created_at (row q) <= post_created_at (row p))%Z)
    (posts (fst (loadPosts db Served roomId s))).
Proof.
  unfold loadPosts, selectPosts. cbn [request fst setPosts posts].
  rewrite map_map.
  set (sorted := JSArray.sort (fun a b => (post_created_at b - post_created_at a)%Z) _).
  assert (Hs : StronglySorted (fun a b => (- post_created_at a <= - post_created_at b)%Z)
                 sorted).
  { apply sort_sorted. intros a b.
    destruct (post_created_at b - post_created_at a <? 0)%Z eqn:E1,
             (- post_created_at a <? - post_created_at b)%Z eqn:E2; try reflexivity;
      rewrite ?Z.ltb_lt, ?Z.ltb_ge in *; lia. }
  clearbody sorted. induction Hs as [|a l Hl IH Ha]; cbn [map]; constructor; [exact IH|].
  rewrite Forall_forall in Ha. apply Forall_forall. intros q Hq.
  apply list_elem_of_In, in_map_iff in Hq as (b & <- & Hb).
  cbn [processPost row]. specialize (Ha b (proj2 (list_elem_of_In _ _) Hb)). lia.
Qed.

End HookFacts.

Section ThreadOrderFacts.
Import JS Supabase UseRoom Spec.

Lemma firstPass_fold_other l : forall (m : gmap string Node) k,
  ~ In k (map id l) ->
  fold_left (fun m c => <[id c := {| comment := c; replies := [] |}]> m) l m !! k = m !! k.
Proof.
  induction l as [|c l IH]; intros m k Hk; [reflexivity|]. cbn [fold_left].
  cbn [map In] in Hk. rewrite IH by tauto. apply lookup_insert_ne. tauto.
Qed.

Lemma firstPass_fold_lookup l : forall (m : gmap string Node) c,
  NoDup (map id l) -> In c l ->
  fold_left (fun m c => <[id c := {| comment := c; replies := [] |}]> m) l m !! id c
  = Some {| comment := c; replies := [] |}.
Proof.
  induction l as [|x l IH]; intros m c Hnd Hin; [destruct Hin|].
  cbn [map] in Hnd. apply NoDup_cons in Hnd as [Hx Hnd]. cbn [fold_left].
  destruct Hin as [->|Hin]; [|now apply IH].
  rewrite firstPass_fold_other; [apply lookup_insert_eq|].
  intros Hc. apply Hx. now apply list_elem_of_In.
Qed.

(** With distinct ids, the object behind a reference carries the comment
    of that id. *)
Lemma timeOf_comment flat c :
  NoDup (map id flat) -> In c flat ->
  timeOf (commentMap (organizeComments flat)) (id c) = created_at c.
Proof.
  intros Hnd Hin. unfold organizeComments, timeOf.
  pose proof (secondPass_fold flat (firstPass flat) []) as [_ Hm].
  destruct (fold_left secondPass_step flat (firstPass flat, [])) as [m roots].
  cbn [fst commentMap] in *. rewrite Hm. unfold firstPass.
  now rewrite (firstPass_fold_lookup flat ∅ c Hnd Hin).
Qed.

(** X21. With distinct ids, the roots returned by [organizeComments] are
    exactly the comments whose [parent_comment_id] is null or empty,
    ordered from the oldest to the newest [created_at], comments of equal
    time in the order of the flat list. *)
Theorem organizeComments_roots_oldest_first (flatComments : list Comment) :
  NoDup (map id flatComments) ->
  let roots := JSArray.sort (fun a b => (created_at a - created_at b)%Z)
                 (List.filter (fun c => negb (truthy (parent_comment_id c))) flatComments) in
  rootComments (organizeComments flatComments) = map id roots
  /\ Permutation roots
       (List.filter (fun c => negb (truthy (parent_comment_id c))) flatComments)
  /\ StronglySorted (fun a b => (created_at a <= created_at b)%Z) roots.
Proof.
  intros Hnd roots. subst roots. split; [|split].
  - pose proof (fun c => timeOf_comment flatComments c Hnd) as Htime.
    unfold organizeComments in *.
    pose proof (secondPass_fold flatComments (firstPass flatComments) []) as [Hr _].
    destruct (fold_left secondPass_step flatComments (firstPass flatComments, []))
      as [m rs].
    cbn [snd rootComments commentMap] in *. subst rs. cbn [app]. unfold rootsOf, isRoot.
    apply sort_map. intros a b Ha Hb.
    apply filter_In in Ha as [Ha _]. apply filter_In in Hb as [Hb _].
    now rewrite (Htime a Ha), (Htime b Hb).
  - apply sort_perm.
  - apply sort_sorted. intros a b.
    destruct (created_at a - created_at b <? 0)%Z eqn:E1,
             (created_at a <? created_at b)%Z eqn:E2; try reflexivity;
      rewrite ?Z.ltb_lt, ?Z.ltb_ge in *; lia.
Qed.

Lemma organizeComments_roots_oldest_first_witness :
  let mk i p t := {| id := i; comment_post_id := "p1"; parent_comment_id := p;
                     author_display := "ann"; content := "text"; created_at := t;
                     deleted_at := None |} in
  let flat := [mk "a" None 3%Z; mk "b" (Some "a") 2%Z; mk "c" None 1%Z] in
  let roots := JSArray.sort (fun a b => (created_at a - created_at b)%Z)
                 (List.filter (fun c => negb (truthy (parent_comment_id c))) flat) in
  rootComments (organizeComments flat) = map id roots
  /\ Permutation roots (List.filter (fun c => negb (truthy (parent_comment_id c))) flat)
  /\ StronglySorted (fun a b => (created_at a <= created_at b)%Z) roots.
Proof.
  intros mk flat. apply (organizeComments_roots_oldest_first flat).
  apply (bool_decide_unpack _). vm_compute. exact I.
Defined.

(** X22. The [replies] of a comment of the list are the comments that
    name it as their parent, in the order of the flat list (they are not
    sorted by time); a reference to no comment of the list has no
    replies. *)
Theorem organizeComments_replies_in_flat_order (flatComments : list Comment) (k : string) :
  (In k (map id flatComments) ->
   repliesOf (organizeComments flatComments) k
   = map id (List.filter
               (fun c => truthy (parent_comment_id c)
                         && strictEq (parent_comment_id c) (Some k))
               flatComments))
  /\ (~ In k (map id flatComments) -> repliesOf (organizeComments flatComments) k = []).
Proof.
  rewrite organizeComments_replies. split; intros Hk.
  - destruct (findComment flatComments k) eqn:Hf; [reflexivity|].
    now apply findComment_None in Hf.
  - apply findComment_None in Hk. now rewrite Hk.
Qed.

Lemma organizeComments_replies_in_flat_order_witness :
  let mk i p t := {| id := i; comment_post_id := "p1"; parent_comment_id := p;
                     author_display := "ann"; content := "text"; created_at := t;
                     deleted_at := None |} in
  let flat := [mk "a" None 1%Z; mk "b" (Some "a") 9%Z; mk "c" (Some "a") 2%Z] in
  repliesOf (organizeComments flat) "a"
  = map id (List.filter
              (fun c => truthy (parent_comment_id c)
                        && strictEq (parent_comment_id c) (Some "a"))
              flat).
Proof.
  intros mk flat.
  apply (proj1 (organizeComments_replies_in_flat_order flat "a")).
  cbn. tauto.
Defined.

End ThreadOrderFacts.

(** ** Selecting and uploading files *)

Section FilePickerFacts.
Import JS Supabase Effects PostComposer FilePicker.

Lemma includes_In l x : includes l x = true <-> In x l.
Proof.
  unfold includes. rewrite existsb_exists. split.
  - intros (y & Hy & Heq). apply String.eqb_eq in Heq. now subst.
  - intros Hx. exists x. split; [assumption | apply String.eqb_refl].
Qed.

Lemma rejection_None f :
  rejection f = None ->
  (In (type f) ALLOWED_IMAGE /\ (size f <= MAX_IMAGE_BYTES)%Z)
  \/ (In (type f) ALLOWED_VIDEO /\ (size f <= MAX_VIDEO_BYTES)%Z).
Proof.
  unfold rejection.
  destruct (String.prefix "image/" (type f)) eqn:Hi,
           (String.prefix "video/" (type f)) eqn:Hv; cbn [negb andb];
    try discriminate;
    repeat match goal with
      | |- context [includes ?l ?x] =>
          let E := fresh "E" in destruct (includes l x) eqn:E; cbn [negb andb];
          try discriminate; try apply includes_In in E
      | |- context [(?a <? ?b)%Z] =>
          let E := fresh "E" in destruct (a <? b)%Z eqn:E; cbn [negb andb];
          try discriminate; try apply Z.ltb_ge in E
      end; intros _; tauto.
Qed.

Lemma pickLoop_spec incoming : forall valid effects,
  pickLoop incoming valid effects
  = (valid ++ List.filter (fun f => match rejection f with None => true | _ => false end)
                incoming,
     effects ++ flat_map (fun f => match rejection f with
                                   | Some t => [Toast t true]
                                   | None => []
                                   end) incoming).
Proof.
  induction incoming as [|f rest IH]; intros valid effects; cbn [pickLoop List.filter flat_map].
  - now rewrite !app_nil_r.
  - destruct (rejection f) as [t|]; rewrite IH, <- !app_assoc; reflexivity.
Qed.

Lemma onPickFiles_spec incoming s :
  onPickFiles incoming s
  = ({| content := content s;
        files := files s ++ List.filter
                   (fun f => match rejection f with None => true | _ => false end) incoming;
        isPosting := isPosting s |},
     flat_map (fun f => match rejection f with
                        | Some t => [Toast t true]
                        | None => []
                        end) incoming).
Proof.
  unfold onPickFiles. destruct incoming as [|f rest].
  - cbn. rewrite app_nil_r. now destruct s.
  - now rewrite pickLoop_spec.
Qed.

(** X23. [onPickFiles] only ever adds allowed files: a file of the new
    selection was selected before, or it is one of the incoming files
    and is a JPEG, PNG or WebP image of at most 8 MiB or an MP4 or WebM
    video of at most 50 MiB. *)
Theorem onPickFiles_adds_only_allowed (incoming : list File) (s : State) (f : File) :
  In f (files (fst (onPickFiles incoming s))) ->
  In f (files s)
  \/ (In f incoming
      /\ ((In (type f) ["image/jpeg"; "image/png"; "image/webp"]
           /\ (size f <= 8 * 1024 * 1024)%Z)
          \/ (In (type f) ["video/mp4"; "video/webm"]
              /\ (size f <= 50 * 1024 * 1024)%Z))).
Proof.
  rewrite onPickFiles_spec. cbn [fst files]. intros Hin.
  apply in_app_iff in Hin as [Hin|Hin]; [now left|]. right.
  apply filter_In in Hin as [Hin Hf]. split; [assumption|].
  apply rejection_None. now destruct (rejection f).
Qed.

Lemma onPickFiles_adds_only_allowed_witness :
  let big := {| name := "clip.mp4"; type := "video/mp4"; size := 60000000 |} in
  let ok := {| name := "cat.png"; type := "image/png"; size := 1000 |} in
  let s := {| content := ""; files := []; isPosting := false |} in
  In ok (files s)
  \/ (In ok [big; ok]
      /\ ((In (type ok) ["image/jpeg"; "image/png"; "image/webp"]
           /\ (size ok <= 8 * 1024 * 1024)%Z)
          \/ (In (type ok) ["video/mp4"; "video/webm"]
              /\ (size ok <= 50 * 1024 * 1024)%Z))).
Proof.
  intros big ok s. apply (onPickFiles_adds_only_allowed [big; ok] s ok).
  vm_compute. left. reflexivity.
Defined.

(** X24. [onPickFiles] accounts for every incoming file: it is appended
    to the selection, which keeps the files it had in front, or it
    produces one destructive toast; nothing else changes. *)
Theorem onPickFiles_accounts_for_each_file (incoming : list File) (s : State) :
  let result := onPickFiles incoming s in
  content (fst result) = content s
  /\ isPosting (fst result) = isPosting s
  /\ exists added,
       files (fst result) = files s ++ added
       /\ length added + length (snd result) = length incoming
       /\ Forall (fun e => exists t, e = Toast t true) (snd result).
Proof.
  intros result. subst result. rewrite onPickFiles_spec. cbn [fst snd content files isPosting].
  split; [reflexivity|]. split; [reflexivity|].
  eexists. split; [reflexivity|].
  induction incoming as [|f rest [IHlen IHall]]; [split; [reflexivity | constructor]|].
  cbn [List.filter flat_map]. destruct (rejection f) as [t|]; cbn [app length].
  - split; [rewrite <- IHlen; lia|]. constructor 2; [now exists t | exact IHall].
  - split; [rewrite <- IHlen; lia | exact IHall].
Qed.

End FilePickerFacts.

Section UploadFacts.
Import JS Supabase Effects PostComposer.

Variable roomId displayName : string.
Variable hasOnPostCreated : bool.
Variable fileId : nat -> string.
Variable getPublicUrl : string -> string.
Variable uploadOutcome recordOutcome : nat -> Outcome.

(** The loop succeeds when every step does, with one entry per file. *)
Lemma uploadLoop_success fs : forall i uploaded,
  (forall j, j < length fs ->
     uploadOutcome (i + j) = Served /\ recordOutcome (i + j) <> Crashed) ->
  exists items,
    fst (uploadLoop roomId fileId getPublicUrl uploadOutcome recordOutcome i fs uploaded)
    = Some (uploaded ++ items)
    /\ map up_size items = map size fs
    /\ map mime items = map type fs.
Proof.
  induction fs as [|f fs IH]; intros i uploaded Hall; cbn [uploadLoop].
  - exists []. now rewrite app_nil_r.
  - destruct (Hall 0 ltac:(cbn; lia)) as [Hup Hrec]. rewrite Nat.add_0_r in Hup, Hrec.
    rewrite Hup.
    match goal with
    | |- context [uploadLoop _ _ _ _ _ (S i) fs ?u] =>
        destruct (IH (S i) u) as (items & Hfst & Hs & Hm);
          [intros j Hj; specialize (Hall (S j) ltac:(cbn; lia));
           now rewrite Nat.add_succ_r in Hall|];
        destruct (uploadLoop roomId fileId getPublicUrl uploadOutcome recordOutcome
                    (S i) fs u) as [r effects] eqn:Hloop
    end.
    cbn [fst] in Hfst. subst r.
    destruct (recordOutcome i); [| |contradiction]; cbn [fst];
      eexists (_ :: items); rewrite <- app_assoc; cbn [app map up_size mime];
      (split; [reflexivity|]); split; now f_equal.
Qed.

(** The loop fails as soon as one step does. *)
Lemma uploadLoop_failure fs : forall i uploaded j,
  j < length fs ->
  uploadOutcome (i + j) <> Served \/ recordOutcome (i + j) = Crashed ->
  fst (uploadLoop roomId fileId getPublicUrl uploadOutcome recordOutcome i fs uploaded)
  = None.
Proof.
  induction fs as [|f fs IH]; intros i uploaded j Hj Hbad; cbn [length] in Hj; [lia|].
  cbn [uploadLoop]. destruct (uploadOutcome i) eqn:Hup; [|reflexivity|reflexivity].
  destruct (recordOutcome i) eqn:Hrec; [| |reflexivity];
    (destruct j as [|j];
     [rewrite Nat.add_0_r in Hbad; destruct Hbad; congruence|]);
    match goal with
    | |- context [uploadLoop _ _ _ _ _ (S i) fs ?u] =>
        pose proof (IH (S i) u j ltac:(lia)) as Hrest;
        rewrite Nat.add_succ_r in Hbad; specialize (Hrest Hbad);
        destruct (uploadLoop roomId fileId getPublicUrl uploadOutcome recordOutcome
                    (S i) fs u) as [r effects]
    end; exact Hrest.
Qed.

Lemma uploadLoop_length fs : forall i uploaded result,
  fst (uploadLoop roomId fileId getPublicUrl uploadOutcome recordOutcome i fs uploaded)
  = Some result ->
  length result = length uploaded + length fs.
Proof.
  induction fs as [|f fs IH]; intros i uploaded result; cbn [uploadLoop].
  - intros [= <-]. cbn. lia.
  - destruct (uploadOutcome i); [|discriminate|discriminate].
    destruct (recordOutcome i); [| |discriminate];
      match goal with
      | |- context [uploadLoop _ _ _ _ _ (S i) fs ?u] =>
          specialize (IH (S i) u result);
          destruct (uploadLoop roomId fileId getPublicUrl uploadOutcome recordOutcome
                      (S i) fs u) as [r effects]
      end; cbn [fst] in *; intros H; rewrite (IH H), length_app; cbn; lia.
Qed.

(** X25. [uploadSelectedFiles] succeeds exactly when every storage
    upload is served and no insert into [uploads] rejects. It then
    returns one entry per selected file, in order, carrying the size and
    the MIME type of that file. *)
Theorem uploadSelectedFiles_succeeds_iff (s : State) :
  let result :=
    fst (uploadSelectedFiles roomId fileId getPublicUrl uploadOutcome recordOutcome s) in
  (result <> None <->
   forall j, j < length (files s) ->
     uploadOutcome j = Served /\ recordOutcome j <> Crashed)
  /\ (forall uploaded, result = Some uploaded ->
        map up_size uploaded = map size (files s)
        /\ map mime uploaded = map type (files s)).
Proof.
  intros result. subst result. unfold uploadSelectedFiles.
  assert (Hiff : fst (uploadLoop roomId fileId getPublicUrl uploadOutcome recordOutcome
                        0 (files s) []) <> None <->
                 forall j, j < length (files s) ->
                   uploadOutcome j = Served /\ recordOutcome j <> Crashed).
  { split.
    - intros Hsome j Hj.
      destruct (uploadOutcome j) eqn:Hup.
      + split; [reflexivity|]. intros Hrec. apply Hsome.
        apply (uploadLoop_failure (files s) 0 [] j Hj). now right.
      + exfalso. apply Hsome. apply (uploadLoop_failure (files s) 0 [] j Hj).
        left. cbn. congruence.
      + exfalso. apply Hsome. apply (uploadLoop_failure (files s) 0 [] j Hj).
        left. cbn. congruence.
    - intros Hall. destruct (uploadLoop_success (files s) 0 [] Hall) as (items & -> & _).
      discriminate. }
  split; [exact Hiff|].
  intros uploaded Hres.
  assert (Hall : forall j, j < length (files s) ->
                   uploadOutcome j = Served /\ recordOutcome j <> Crashed)
    by (apply Hiff; congruence).
  destruct (uploadLoop_success (files s) 0 [] Hall) as (items & Hfst & Hs & Hm).
  rewrite Hfst in Hres. injection Hres as <-. now split.
Qed.

Lemma uploadLoop_no_insert fs i uploaded r a c m :
  ~ In (InsertPost r a c m)
      (snd (uploadLoop roomId fileId getPublicUrl uploadOutcome recordOutcome i fs uploaded)).
Proof.
  intros Hin. pose proof (uploadLoop_steps roomId fileId getPublicUrl uploadOutcome
                            recordOutcome fs i uploaded) as Hsteps.
  rewrite forallb_forall in Hsteps. specialize (Hsteps _ Hin). discriminate.
Qed.

(** X26. Every post that [handlePost] sends is for the composer's room
    and author, carries the trimmed content and one media entry per
    selected file, and is not empty: it has text or media. *)
Theorem handlePost_sends_wellformed_post
    (insertOutcome : Outcome) (s : State) (r a c : string) (m : list (string * string * Z)) :
  In (InsertPost r a c m)
     (snd (handlePost roomId displayName hasOnPostCreated fileId getPublicUrl
             uploadOutcome recordOutcome insertOutcome s)) ->
  r = roomId /\ a = displayName /\ c = trim (content s)
  /\ length m = length (files s)
  /\ (c <> "" \/ files s <> []).
Proof.
  unfold handlePost, uploadSelectedFiles.
  destruct (negb (nonEmpty (trim (content s))) && Nat.eqb (length (files s)) 0) eqn:Hguard.
  - cbn. intros [H|[]]. discriminate.
  - pose proof (uploadLoop_length (files s) 0 []) as Hlen.
    pose proof (uploadLoop_no_insert (files s) 0 [] r a c m) as Hno.
    destruct (uploadLoop roomId fileId getPublicUrl uploadOutcome recordOutcome
                0 (files s) []) as [[mediaUploads|] effects]; cbn [fst snd] in *.
    + specialize (Hlen mediaUploads eq_refl). cbn in Hlen.
      assert (Hins : In (InsertPost r a c m)
                       [InsertPost roomId displayName (trim (content s))
                          (map (fun m => (url m, kind m, up_size m)) mediaUploads)] ->
                     r = roomId /\ a = displayName /\ c = trim (content s)
                     /\ length m = length (files s)
                     /\ (c <> "" \/ files s <> [])).
      { intros [H|[]]. injection H as <- <- <- <-. rewrite length_map.
        repeat split; try assumption.
        apply andb_false_iff in Hguard as [Hg|Hg].
        - left. apply negb_false_iff in Hg. now apply nonEmpty_true.
        - right. intros Hnil. rewrite Hnil in Hg. discriminate. }
      destruct insertOutcome; cbn [snd]; intros Hin;
        apply in_app_iff in Hin as [Hin|Hin]; try contradiction;
        apply in_app_iff in Hin as [Hin|Hin]; try (now apply Hins);
        try (destruct hasOnPostCreated; cbn in Hin);
        repeat (destruct Hin as [Hin|Hin]; try discriminate Hin); destruct Hin.
    + intros Hin. apply in_app_iff in Hin as [Hin|Hin]; [contradiction|].
      cbn in Hin. repeat (destruct Hin as [Hin|Hin]; try discriminate Hin). destruct Hin.
Qed.

End UploadFacts.

Section UploadWitnesses.
Import JS Supabase Effects PostComposer.

Lemma uploadSelectedFiles_succeeds_iff_witness :
  let f := {| name := "cat.PNG"; type := "image/png"; size := 1000 |} in
  let s := {| content := ""; files := [f]; isPosting := false |} in
  let uploaded := [{| url := "media/r1/id.png"; kind := "image"; up_size := 1000;
                      mime := "image/png" |}] in
  map up_size uploaded = map size (files s) /\ map mime uploaded = map type (files s).
Proof.
  intros f s uploaded.
  apply (proj2 (uploadSelectedFiles_succeeds_iff "r1" (fun _ => "id")
                  (fun p => "media/" +:+ p) (fun _ => Served) (fun _ => Served) s)
           uploaded).
  reflexivity.
Defined.

Lemma handlePost_sends_wellformed_post_witness :
  let s := {| content := " hello "; files := []; isPosting := false |} in
  "r1" = "r1" /\ "ann" = "ann" /\ "hello" = trim (content s)
  /\ length (@nil (string * string * Z)) = length (files s)
  /\ ("hello" <> "" \/ files s <> []).
Proof.
  intros s.
  apply (handlePost_sends_wellformed_post "r1" "ann" true (fun _ => "id") (fun p => p)
           (fun _ => Served) (fun _ => Served) Served s "r1" "ann" "hello" []).
  vm_compute. left. reflexivity.
Defined.

End UploadWitnesses.

(** ** Commenting *)

Section CommentFacts.
Import JS Supabase UseRoom Spec CommentComposer.

Variable postId : string.
Variable parentCommentId : option string.
Variable displayName : string.
Variable hasOnCommentCreated : bool.




End CommentFacts.

Section CommentWitness.
Import JS Supabase UseRoom CommentComposer.


End CommentWitness.

(** ** Creating a room *)

Section CreateRoomFacts.
Import JS RoomUtils Supabase Effects Expiry Spec CreateRoomModal.

Variable hashString : string -> string.
Variable random : nat -> Q.
Variable lookupOutcome : nat -> Outcome.
Variable insertOutcome : Outcome.
Variable r36 : string.
Variable dateNow now : Z.
Variable origin : string.

(** The loop ends with the code of one of its turns; the lookups it
    sent are lookups only. *)
Lemma uniqueCode_code fuel : forall k db roomCode lookups,
  uniqueCode random lookupOutcome fuel k db = Some (Some roomCode, lookups) ->
  (exists j, roomCode = generateRoomCode (fun i => random (8 * j + i))
             /\ (lookupOutcome j = Served -> codeStored db roomCode = false))
  /\ Forall (fun e => isSelect e = true) lookups.
Proof.
  induction fuel as [|fuel IH]; intros k db roomCode lookups; cbn [uniqueCode];
    [discriminate|].
  destruct (lookupOutcome k) eqn:Hk.
  - destruct (codeStored db (generateRoomCode (fun i => random (8 * k + i)))) eqn:Hs.
    + destruct (uniqueCode random lookupOutcome fuel (S k) db) as [[r effects]|] eqn:Hu;
        [|discriminate].
      intros [= -> <-]. destruct (IH _ _ _ _ Hu) as [Hj Hl]. split; [exact Hj|].
      constructor 2; [reflexivity | exact Hl].
    + intros [= <- <-]. split; [exists k; now split|].
      constructor 2; [reflexivity | constructor 1].
  - intros [= <- <-]. split; [exists k; split; [reflexivity | congruence]|].
    constructor 2; [reflexivity | constructor 1].
  - discriminate.
Qed.

Lemma uniqueCode_lookups fuel : forall k db r lookups,
  uniqueCode random lookupOutcome fuel k db = Some (r, lookups) ->
  Forall (fun e => isSelect e = true) lookups.
Proof.
  induction fuel as [|fuel IH]; intros k db r lookups; cbn [uniqueCode];
    [discriminate|].
  destruct (lookupOutcome k).
  - destruct (codeStored db (generateRoomCode (fun i => random (8 * k + i)))).
    + destruct (uniqueCode random lookupOutcome fuel (S k) db) as [[r' effects]|] eqn:Hu;
        [|discriminate].
      intros [= <- <-]. constructor 2; [reflexivity | exact (IH _ _ _ _ Hu)].
    + intros [= <- <-]. constructor 2; [reflexivity | constructor 1].
  - intros [= <- <-]. constructor 2; [reflexivity | constructor 1].
  - intros [= <- <-]. constructor 2; [reflexivity | constructor 1].
Qed.

Lemma not_in_common (l : list Effects.Effect) r : ~ In (InsertRoom r) (common l).
Proof. unfold common. intros H. apply in_map_iff in H as (e & He & _). discriminate. Qed.

(** The insert that [handleCreate] sends, and how it ends after it. *)
Lemma handleCreate_insert fuel db s s' effects r :
  handleCreate hashString random lookupOutcome insertOutcome r36 dateNow now origin
    fuel db s = Some (s', effects) ->
  In (InsertRoom r) effects ->
  nonEmpty (trim (CreateRoomModal.title s)) = true
  /\ exists roomCode lookups expiry_at,
       uniqueCode random lookupOutcome fuel 0 db = Some (Some roomCode, lookups)
       /\ expiryColumn (calculateExpiry now (expiry s)) = Some expiry_at
       /\ r = {| new_code := roomCode;
                 new_title := trim (CreateRoomModal.title s);
                 new_description := orNullString (trim (CreateRoomModal.description s));
                 new_owner_token_hash := hashString (generateOwnerToken r36 dateNow);
                 new_is_ephemeral := ephemeral s;
                 new_expiry_at := expiry_at;
                 new_password_hash :=
                   if nonEmpty (CreateRoomModal.password s)
                   then Some (hashString (CreateRoomModal.password s)) else None |}
       /\ ((insertAccepted insertOutcome db r = true
            /\ createdRoom s'
               = Some {| CreateRoomModal.code := roomCode;
                         ownerToken := generateOwnerToken r36 dateNow;
                         joinUrl := origin +:+ "/#/room/" +:+ roomCode |}
            /\ effects
               = common lookups ++ [InsertRoom r]
                 ++ common [SetItem ("blacksite_owner_" +:+ roomCode)
                              (Plain (generateOwnerToken r36 dateNow));
                            Toast "Room created successfully!" false])
           \/ (insertAccepted insertOutcome db r = false
               /\ s' = setIsCreating false s
               /\ effects
                  = common lookups ++ [InsertRoom r]
                    ++ common [ConsoleError "Error creating room:";
                               Toast "Error creating room" true])).
Proof.
  unfold handleCreate.
  destruct (nonEmpty (trim (CreateRoomModal.title s))); cbn [negb].
  - destruct (uniqueCode random lookupOutcome fuel 0 db) as [[[roomCode|] lookups]|];
      [| |discriminate].
    + destruct (expiryColumn (calculateExpiry now (expiry s))) as [expiry_at|].
      * match goal with
        | |- context [insertAccepted insertOutcome db ?row] =>
            destruct (insertAccepted insertOutcome db row) eqn:Hacc
        end.
        -- intros [= <- <-] Hin. split; [reflexivity|].
           exists roomCode, lookups, expiry_at. do 2 (split; [reflexivity|]).
           apply in_app_iff in Hin as [Hin|Hin]; [now apply not_in_common in Hin|].
           destruct Hin as [Hin|Hin];
             [|cbn in Hin; repeat (destruct Hin as [Hin|Hin]; try discriminate Hin);
               destruct Hin].
           injection Hin as <-. split; [reflexivity|]. left.
           split; [exact Hacc|]. split; reflexivity.
        -- intros [= <- <-] Hin. split; [reflexivity|].
           exists roomCode, lookups, expiry_at. do 2 (split; [reflexivity|]).
           apply in_app_iff in Hin as [Hin|Hin]; [now apply not_in_common in Hin|].
           destruct Hin as [Hin|Hin];
             [|cbn in Hin; repeat (destruct Hin as [Hin|Hin]; try discriminate Hin);
               destruct Hin].
           injection Hin as <-. split; [reflexivity|]. right.
           split; [exact Hacc|]. split; reflexivity.
      * intros [= <- <-] Hin. exfalso.
        apply in_app_iff in Hin as [Hin|Hin]; [now apply not_in_common in Hin|].
        cbn in Hin. repeat (destruct Hin as [Hin|Hin]; try discriminate Hin).
        destruct Hin.
    + intros [= <- <-] Hin. exfalso.
      apply in_app_iff in Hin as [Hin|Hin]; [now apply not_in_common in Hin|].
      cbn in Hin. repeat (destruct Hin as [Hin|Hin]; try discriminate Hin).
      destruct Hin.
  - intros [= <- <-] Hin. exfalso. cbn in Hin.
    repeat (destruct Hin as [Hin|Hin]; try discriminate Hin). destruct Hin.
Qed.

(** A room appears in [createdRoom] only after an accepted insert. *)
Lemma handleCreate_created fuel db s s' effects created :
  handleCreate hashString random lookupOutcome insertOutcome r36 dateNow now origin
    fuel db s = Some (s', effects) ->
  createdRoom s = None ->
  createdRoom s' = Some created ->
  exists r, In (InsertRoom r) effects /\ insertAccepted insertOutcome db r = true.
Proof.
  unfold handleCreate.
  destruct (nonEmpty (trim (CreateRoomModal.title s))); cbn [negb].
  - destruct (uniqueCode random lookupOutcome fuel 0 db) as [[[roomCode|] lookups]|];
      [| |discriminate].
    + destruct (expiryColumn (calculateExpiry now (expiry s))) as [expiry_at|].
      * match goal with
        | |- context [insertAccepted insertOutcome db ?row] =>
            destruct (insertAccepted insertOutcome db row) eqn:Hacc
        end.
        -- intros [= <- <-] _ _. eexists. split; [|exact Hacc].
           apply in_app_iff. right. left. reflexivity.
        -- intros [= <- <-] Hn Hc. cbn in Hc. congruence.
      * intros [= <- <-] Hn Hc. cbn in Hc. congruence.
    + intros [= <- <-] Hn Hc. cbn in Hc. congruence.
  - intros [= <- <-] Hn Hc. congruence.
Qed.

(** X28. The room that [handleCreate] sends to the database has a
    well-formed code, the trimmed non-empty title, a description that is
    null or non-empty, a password hash exactly when a password was typed,
    and the hash of the owner token. When the lookups of the loop are
    answered, the code is not yet stored; and at most one room is sent. *)
Theorem handleCreate_room_wellformed
    (fuel : nat) (db : Database) (s s' : CreateRoomModal.State)
    (effects : list CreateRoomModal.Effect) (r : NewRoom) :
  (forall n, (0 <= random n)%Q /\ (random n < 1)%Q) ->
  handleCreate hashString random lookupOutcome insertOutcome r36 dateNow now origin
    fuel db s = Some (s', effects) ->
  In (InsertRoom r) effects ->
  isValidRoomCode (new_code r) = true
  /\ new_title r = trim (CreateRoomModal.title s) /\ new_title r <> ""
  /\ new_description r <> Some ""
  /\ (new_description r = None <-> trim (CreateRoomModal.description s) = "")
  /\ (new_password_hash r = None <-> CreateRoomModal.password s = "")
  /\ (forall h, new_password_hash r = Some h ->
        h = hashString (CreateRoomModal.password s))
  /\ new_owner_token_hash r = hashString (generateOwnerToken r36 dateNow)
  /\ ((forall k, lookupOutcome k = Served) -> codeStored db (new_code r) = false)
  /\ (forall r', In (InsertRoom r') effects -> r' = r).
Proof.
  intros Hdraws Hrun Hin.
  destruct (handleCreate_insert _ _ _ _ _ _ Hrun Hin)
    as (Htitle & roomCode & lookups & expiry_at & Hloop & Hexp & Hr & Hend).
  destruct (uniqueCode_code _ _ _ _ _ Hloop) as [(j & Hj & Hfree) _].
  assert (Hone : forall r', In (InsertRoom r') effects -> r' = r).
  { intros r' Hin'.
    destruct (handleCreate_insert _ _ _ _ _ _ Hrun Hin')
      as (_ & roomCode' & lookups' & expiry_at' & Hloop' & Hexp' & Hr' & _).
    rewrite Hloop in Hloop'. injection Hloop' as <- <-.
    rewrite Hexp in Hexp'. injection Hexp' as <-. now rewrite Hr, Hr'. }
  subst r. cbn [new_code new_title new_description new_password_hash new_owner_token_hash].
  split.
  { rewrite Hj. apply generateRoomCode_valid. intros i _. apply Hdraws. }
  split; [reflexivity|]. split; [now apply nonEmpty_true|].
  split.
  { unfold orNullString.
    destruct (nonEmpty (trim (CreateRoomModal.description s))) eqn:Hd.
    - apply nonEmpty_true in Hd. congruence.
    - discriminate. }
  split.
  { unfold orNullString.
    destruct (nonEmpty (trim (CreateRoomModal.description s))) eqn:Hd.
    - apply nonEmpty_true in Hd. split; [discriminate | contradiction].
    - split; [intros _ | reflexivity].
      destruct (trim (CreateRoomModal.description s)); [reflexivity | discriminate]. }
  split.
  { destruct (nonEmpty (CreateRoomModal.password s)) eqn:Hp.
    - apply nonEmpty_true in Hp. split; [discriminate | contradiction].
    - split; [intros _ | reflexivity].
      destruct (CreateRoomModal.password s); [reflexivity | discriminate]. }
  split.
  { destruct (nonEmpty (CreateRoomModal.password s)); intros h [= <-]. reflexivity. }
  split; [reflexivity|].
  split; [intros Hall; apply Hfree, Hall | exact Hone].
Qed.

End CreateRoomFacts.

Section CreateRoomFlowFacts.
Import JS RoomUtils Supabase Effects Expiry Spec CreateRoomModal RoomPageView.

Variable hashString : string -> string.
Variable random : nat -> Q.
Variable lookupOutcome : nat -> Outcome.
Variable insertOutcome : Outcome.
Variable r36 : string.
Variable dateNow now : Z.
Variable origin : string.

Lemma commonOf_app l1 l2 : commonOf (l1 ++ l2) = commonOf l1 ++ commonOf l2.
Proof.
  induction l1 as [|e l1 IH]; [reflexivity|].
  destruct e; cbn [app commonOf]; now rewrite IH.
Qed.

Lemma commonOf_common l : commonOf (common l) = l.
Proof.
  unfold common. induction l as [|e l IH]; [reflexivity|].
  cbn [map commonOf]. now rewrite IH.
Qed.

Lemma storageAfter_app l1 l2 ls :
  storageAfter (l1 ++ l2) ls = storageAfter l2 (storageAfter l1 ls).
Proof. unfold storageAfter. apply fold_left_app. Qed.

Lemma storageAfter_selects l : forall ls,
  Forall (fun e => isSelect e = true) l -> storageAfter l ls = ls.
Proof.
  induction l as [|e l IH]; intros ls Hl; [reflexivity|].
  inversion Hl as [|? ? He Hl']; subst.
  destruct e; try discriminate He; cbn; now apply IH.
Qed.

Lemma generateOwnerToken_nonEmpty a b : nonEmpty (generateOwnerToken a b) = true.
Proof. reflexivity. Qed.

(** How an accepted creation ends. *)
Lemma handleCreate_accepted fuel db s s' effects created :
  handleCreate hashString random lookupOutcome insertOutcome r36 dateNow now origin
    fuel db s = Some (s', effects) ->
  createdRoom s = None ->
  createdRoom s' = Some created ->
  exists r lookups,
    In (InsertRoom r) effects
    /\ Forall (fun e => isSelect e = true) lookups
    /\ codeStored db (new_code r) = false
    /\ (exists j, new_code r = generateRoomCode (fun i => random (8 * j + i)))
    /\ new_password_hash r
       = (if nonEmpty (CreateRoomModal.password s)
          then Some (hashString (CreateRoomModal.password s)) else None)
    /\ created = {| CreateRoomModal.code := new_code r;
                    ownerToken := generateOwnerToken r36 dateNow;
                    joinUrl := origin +:+ "/#/room/" +:+ new_code r |}
    /\ commonOf effects
       = lookups ++ [SetItem ("blacksite_owner_" +:+ new_code r)
                       (Plain (generateOwnerToken r36 dateNow));
                     Toast "Room created successfully!" false].
Proof.
  intros Hrun Hnone Hcreated.
  destruct (handleCreate_created _ _ _ _ _ _ _ _ _ _ _ _ _ _ Hrun Hnone Hcreated)
    as (r & Hin & Hacc).
  destruct (handleCreate_insert _ _ _ _ _ _ _ _ _ _ _ _ _ _ Hrun Hin)
    as (_ & roomCode & lookups & expiry_at & Hloop & _ & Hr & Hend).
  destruct (uniqueCode_code _ _ _ _ _ _ _ Hloop) as [(j & Hj & _) Hsel].
  destruct Hend as [(_ & Hc & He)|(Hrej & _)]; [|congruence].
  exists r, lookups. split; [exact Hin|]. split; [exact Hsel|].
  assert (Hcode : new_code r = roomCode) by now rewrite Hr.
  split.
  { unfold insertAccepted in Hacc. destruct insertOutcome; try discriminate Hacc.
    now apply negb_true_iff in Hacc. }
  split; [exists j; now rewrite Hcode|].
  split; [now rewrite Hr|].
  split; [rewrite Hc in Hcreated; injection Hcreated as <-; now rewrite Hcode|].
  rewrite He, !commonOf_app, !commonOf_common, Hcode. reflexivity.
Qed.

(** X29. After a room was created, the "Open Room" button followed by
    the room page's session load signs the creator in as owner: the
    session is named "Room Creator", [isOwner] holds and the owner token
    is the one that was generated; the button navigates to the join URL
    of that room. *)
Theorem created_room_opens_as_owner
    (JSON_parse : string -> Parsed) (fuel : nat) (db : Database)
    (s s' : CreateRoomModal.State) (effects : list CreateRoomModal.Effect)
    (created : CreatedRoom) (clock : Z) (ls : gmap string Stored) (s0 : RoomPage.State) :
  handleCreate hashString random lookupOutcome insertOutcome r36 dateNow now origin
    fuel db s = Some (s', effects) ->
  createdRoom s = None ->
  createdRoom s' = Some created ->
  let opened := openRoom clock created in
  let ls' := storageAfter (commonOf effects ++ commonOf opened) ls in
  RoomPage.session (page (loadSession JSON_parse (CreateRoomModal.code created) ls' s0))
  = Some {| RoomPage.displayName := "Room Creator"; RoomPage.isOwner := true;
            RoomPage.ownerToken := Some (generateOwnerToken r36 dateNow) |}
  /\ In (Navigate (origin +:+ "/#/room/" +:+ CreateRoomModal.code created)) opened.
Proof.
  intros Hrun Hnone Hcreated opened ls'. subst opened ls'.
  destruct (handleCreate_accepted _ _ _ _ _ _ Hrun Hnone Hcreated)
    as (r & lookups & _ & Hsel & _ & _ & _ & -> & ->).
  cbn [CreateRoomModal.code joinUrl openRoom commonOf In]. split; [|right; left; reflexivity].
  rewrite !storageAfter_app, (storageAfter_selects lookups ls Hsel).
  cbn [storageAfter fold_left].
  erewrite loadSession_stored; [|apply lookup_insert_eq|reflexivity].
  cbn [page withSession RoomPage.session session_displayName].
  rewrite ownerDataOf_after_session. unfold ownerDataOf, RoomPage.getItem.
  rewrite lookup_insert_eq. unfold RoomPage.orUndefined. cbn [truthy].
  rewrite generateOwnerToken_nonEmpty. reflexivity.
Qed.

Lemma select_created (db : Database) (row : RoomRow) :
  codeStored db (room_code row) = false ->
  selectRoomByCode (withRoom db row) Served (room_code row) = Data row.
Proof.
  intros Hfree. unfold selectRoomByCode, withRoom. cbn [rooms request].
  assert (Hnone : List.filter (fun r => String.eqb (room_code r) (room_code row))
                    (List.filter rooms_select_policy (rooms db)) = []).
  { unfold codeStored in Hfree. induction (rooms db) as [|x l IH]; [reflexivity|].
    cbn [existsb] in Hfree. apply orb_false_iff in Hfree as [Hx Hl].
    cbn [List.filter rooms_select_policy]. rewrite Hx. now apply IH. }
  rewrite !List.filter_app, Hnone. cbn [List.filter rooms_select_policy app].
  now rewrite String.eqb_refl.
Qed.

(** X30. A room created with a password made of white space only cannot
    be entered through the join dialog with that password. Once the room
    is stored, validating its code in the dialog moves to the details
    step (unless the room has expired) and marks the room as protected;
    from there [joinRoom] with the creator's password stores no session
    and, when a name is entered, asks for a password. *)
Theorem blank_password_locks_room
    (hasOnJoinSuccess : bool) (fuel : nat) (db : Database)
    (s s' : CreateRoomModal.State) (effects : list CreateRoomModal.Effect)
    (created : CreatedRoom) (r : NewRoom) (newId : string) (createdAt now1 : Z)
    (d : JoinRoomModal.State) :
  (forall n, (0 <= random n)%Q /\ (random n < 1)%Q) ->
  handleCreate hashString random lookupOutcome insertOutcome r36 dateNow now origin
    fuel db s = Some (s', effects) ->
  createdRoom s = None ->
  createdRoom s' = Some created ->
  In (InsertRoom r) effects ->
  CreateRoomModal.password s <> "" ->
  trim (CreateRoomModal.password s) = "" ->
  hashString (CreateRoomModal.password s) <> "" ->
  JoinRoomModal.roomCode d = CreateRoomModal.code created ->
  JoinRoomModal.step d = JoinRoomModal.code ->
  let db' := withRoom db (roomRow newId createdAt r) in
  let d1 := fst (JoinRoomModal.validateRoomCode db' Served now1 d) in
  ((forall t, new_expiry_at r = Some t -> (now1 <= t)%Z) ->
   JoinRoomModal.step d1 = JoinRoomModal.details)
  /\ (JoinRoomModal.step d1 = JoinRoomModal.details ->
      JoinRoomModal.roomInfoRequiresPassword d1 = true
      /\ forall (d2 : JoinRoomModal.State) (oRoom oBans : Outcome) (now2 : Z),
           JoinRoomModal.roomInfo d2 = JoinRoomModal.roomInfo d1 ->
           JoinRoomModal.password d2 = CreateRoomModal.password s ->
           let joined :=
             JoinRoomModal.joinRoom hashString hasOnJoinSuccess db' oRoom oBans now2 d2 in
           (forall key v, ~ In (SetItem key v) (snd joined))
           /\ (formatDisplayName (JoinRoomModal.displayName d2) <> "" ->
               snd joined = [Toast "Password required" true])).
Proof.
  intros Hdraws Hrun Hnone Hcreated Hin Hpw Hblank Hhash Hcode Hstep db' d1.
  destruct (handleCreate_accepted _ _ _ _ _ _ Hrun Hnone Hcreated)
    as (r0 & lookups & Hin0 & _ & Hfree & (j & Hj) & Hph & Hc & _).
  assert (Hr : r0 = r).
  { destruct (handleCreate_insert _ _ _ _ _ _ _ _ _ _ _ _ _ _ Hrun Hin)
      as (_ & c1 & l1 & e1 & Hl1 & He1 & Hr1 & _).
    destruct (handleCreate_insert _ _ _ _ _ _ _ _ _ _ _ _ _ _ Hrun Hin0)
      as (_ & c2 & l2 & e2 & Hl2 & He2 & Hr2 & _).
    rewrite Hl1 in Hl2. injection Hl2 as <- <-.
    rewrite He1 in He2. injection He2 as <-. now rewrite Hr1, Hr2. }
  subst r0.
  assert (Hvalid : isValidRoomCode (new_code r) = true).
  { rewrite Hj. apply generateRoomCode_valid. intros i _. apply Hdraws. }
  assert (Hd : JoinRoomModal.roomCode d = new_code r) by (now rewrite Hcode, Hc).
  apply nonEmpty_true in Hpw. rewrite Hpw in Hph.
  pose proof (select_created db (roomRow newId createdAt r) Hfree) as Hsel.
  cbn [roomRow room_code] in Hsel. fold (roomRow newId createdAt r) in Hsel.
  subst d1 db'. unfold JoinRoomModal.validateRoomCode.
  rewrite Hd, (valid_code_not_blank _ Hvalid), Hvalid, Hsel. cbn [negb].
  cbn [roomRow expiry_at password_hash room_title room_description].
  assert (Htruthy : truthy (new_password_hash r) = true).
  { rewrite Hph. cbn [truthy]. now apply nonEmpty_true. }
  assert (Hjoin : forall (d2 : JoinRoomModal.State) oRoom oBans now2,
            JoinRoomModal.roomInfoRequiresPassword d2 = true ->
            JoinRoomModal.password d2 = CreateRoomModal.password s ->
            let joined :=
              JoinRoomModal.joinRoom hashString hasOnJoinSuccess
                (withRoom db (roomRow newId createdAt r)) oRoom oBans now2 d2 in
            (forall key v, ~ In (SetItem key v) (snd joined))
            /\ (formatDisplayName (JoinRoomModal.displayName d2) <> "" ->
                snd joined = [Toast "Password required" true])).
  { intros d2 oRoom oBans now2 Hreq Hp2 joined. subst joined.
    unfold JoinRoomModal.joinRoom.
    destruct (nonEmpty (formatDisplayName (JoinRoomModal.displayName d2))) eqn:Hname;
      cbn [negb].
    - rewrite Hreq, Hp2, Hblank. cbn [nonEmpty negb andb snd]. split.
      + intros key v [H|[]]. discriminate.
      + reflexivity.
    - cbn [snd]. split.
      + intros key v [H|[]]. discriminate.
      + intros Hne. apply nonEmpty_true in Hne. congruence. }
  destruct (new_expiry_at r) as [t|] eqn:Hexp.
  - destruct (t <? now1)%Z eqn:Hlt.
    + cbn [fst JoinRoomModal.setIsJoining JoinRoomModal.step]. split.
      * intros Hnot. specialize (Hnot t eq_refl). apply Z.ltb_lt in Hlt. lia.
      * rewrite Hstep. discriminate.
    + cbn [fst JoinRoomModal.setIsJoining JoinRoomModal.setStep JoinRoomModal.setRoomInfo
             JoinRoomModal.step JoinRoomModal.roomInfo JoinRoomModal.roomInfoRequiresPassword
             JoinRoomModal.requiresPassword].
      split; [reflexivity|]. intros _. split; [exact Htruthy|].
      intros d2 oRoom oBans now2 Hinfo Hp2. apply Hjoin; [|exact Hp2].
      unfold JoinRoomModal.roomInfoRequiresPassword. rewrite Hinfo. exact Htruthy.
  - cbn [fst JoinRoomModal.setIsJoining JoinRoomModal.setStep JoinRoomModal.setRoomInfo
           JoinRoomModal.step JoinRoomModal.roomInfo JoinRoomModal.roomInfoRequiresPassword
           JoinRoomModal.requiresPassword].
    split; [reflexivity|]. intros _. split; [exact Htruthy|].
    intros d2 oRoom oBans now2 Hinfo Hp2. apply Hjoin; [|exact Hp2].
    unfold JoinRoomModal.roomInfoRequiresPassword. rewrite Hinfo. exact Htruthy.
Qed.

End CreateRoomFlowFacts.

Section CreateRoomWitnesses.
Import JS RoomUtils Supabase Effects Expiry Spec CreateRoomModal RoomPageView.

Lemma handleCreate_room_wellformed_witness :
  let s := {| CreateRoomModal.title := " Retro "; CreateRoomModal.description := "  ";
              CreateRoomModal.password := "pw"; ephemeral := false; expiry := "never";
              isCreating := false; createdRoom := None |} in
  let db := {| rooms := []; posts := []; comments := []; bans := []; db_now := 0 |} in
  let r := {| new_code := "AAAA-AAAA"; new_title := "Retro"; new_description := None;
              new_owner_token_hash := "h:owner_k3_5"; new_is_ephemeral := false;
              new_expiry_at := None; new_password_hash := Some "h:pw" |} in
  exists s' effects,
    handleCreate (fun x => "h:" +:+ x) (fun _ => 0%Q) (fun _ => Served) Served "k3" 5 7
      "https://site" 1 db s = Some (s', effects)
    /\ isValidRoomCode (new_code r) = true
    /\ new_title r = trim (CreateRoomModal.title s) /\ new_title r <> ""
    /\ new_description r <> Some ""
    /\ (new_description r = None <-> trim (CreateRoomModal.description s) = "")
    /\ (new_password_hash r = None <-> CreateRoomModal.password s = "")
    /\ (forall h, new_password_hash r = Some h ->
          h = (fun x => "h:" +:+ x) (CreateRoomModal.password s))
    /\ new_owner_token_hash r = (fun x => "h:" +:+ x) (generateOwnerToken "k3" 5)
    /\ ((forall k : nat, (fun _ : nat => Served) k = Served) ->
        codeStored db (new_code r) = false)
    /\ (forall r', In (InsertRoom r') effects -> r' = r).
Proof.
  intros s db r. eexists _, _. split; [vm_compute; reflexivity|].
  eapply (handleCreate_room_wellformed (fun x => "h:" +:+ x) (fun _ => 0%Q)
            (fun _ => Served) Served "k3" 5%Z 7%Z "https://site" 1 db s).
  - intros n. split; [apply Qle_refl | reflexivity].
  - vm_compute. reflexivity.
  - vm_compute. right. left. reflexivity.
Defined.

Lemma created_room_opens_as_owner_witness :
  let s := {| CreateRoomModal.title := "Retro"; CreateRoomModal.description := "";
              CreateRoomModal.password := ""; ephemeral := false; expiry := "never";
              isCreating := false; createdRoom := None |} in
  let db := {| rooms := []; posts := []; comments := []; bans := []; db_now := 0 |} in
  let created := {| CreateRoomModal.code := "AAAA-AAAA"; ownerToken := "owner_k3_5";
                    joinUrl := "https://site/#/room/AAAA-AAAA" |} in
  let page0 := {| RoomPage.joinName := ""; RoomPage.joining := false;
                  RoomPage.session := None |} in
  exists s' effects,
    handleCreate (fun x => "h:" +:+ x) (fun _ => 0%Q) (fun _ => Served) Served "k3" 5 7
      "https://site" 1 db s = Some (s', effects)
    /\ let opened := openRoom 9 created in
       let ls' := storageAfter (commonOf effects ++ commonOf opened) ∅ in
       RoomPage.session
         (page (loadSession (fun _ => ParseThrows) (CreateRoomModal.code created) ls' page0))
       = Some {| RoomPage.displayName := "Room Creator"; RoomPage.isOwner := true;
                 RoomPage.ownerToken := Some (generateOwnerToken "k3" 5) |}
       /\ In (Navigate ("https://site" +:+ "/#/room/" +:+ CreateRoomModal.code created))
            opened.
Proof.
  intros s db created page0. eexists _, _. split; [vm_compute; reflexivity|].
  eapply (created_room_opens_as_owner (fun x => "h:" +:+ x) (fun _ => 0%Q)
            (fun _ => Served) Served "k3" 5%Z 7%Z "https://site" (fun _ => ParseThrows)
            1 db s _ _ created 9%Z ∅ page0).
  - vm_compute. reflexivity.
  - reflexivity.
  - reflexivity.
Defined.

Lemma blank_password_locks_room_witness :
  let s := {| CreateRoomModal.title := "Retro"; CreateRoomModal.description := "";
              CreateRoomModal.password := "  "; ephemeral := false; expiry := "never";
              isCreating := false; createdRoom := None |} in
  let db := {| rooms := []; posts := []; comments := []; bans := []; db_now := 0 |} in
  let r := {| new_code := "AAAA-AAAA"; new_title := "Retro"; new_description := None;
              new_owner_token_hash := "h:owner_k3_5"; new_is_ephemeral := false;
              new_expiry_at := None; new_password_hash := Some "h:  " |} in
  let d := {| JoinRoomModal.roomCode := "AAAA-AAAA"; JoinRoomModal.displayName := "";
              JoinRoomModal.password := ""; JoinRoomModal.isJoining := false;
              JoinRoomModal.step := JoinRoomModal.code;
              JoinRoomModal.roomInfo := None |} in
  let db' := withRoom db (roomRow "r1" 8 r) in
  let d1 := fst (JoinRoomModal.validateRoomCode db' Served 10 d) in
  ((forall t, new_expiry_at r = Some t -> (10 <= t)%Z) ->
   JoinRoomModal.step d1 = JoinRoomModal.details)
  /\ (JoinRoomModal.step d1 = JoinRoomModal.details ->
      JoinRoomModal.roomInfoRequiresPassword d1 = true
      /\ forall (d2 : JoinRoomModal.State) (oRoom oBans : Outcome) (now2 : Z),
           JoinRoomModal.roomInfo d2 = JoinRoomModal.roomInfo d1 ->
           JoinRoomModal.password d2 = CreateRoomModal.password s ->
           let joined :=
             JoinRoomModal.joinRoom (fun x => "h:" +:+ x) true db' oRoom oBans now2 d2 in
           (forall key v, ~ In (SetItem key v) (snd joined))
           /\ (formatDisplayName (JoinRoomModal.displayName d2) <> "" ->
               snd joined = [Toast "Password required" true])).
Proof.
  intros s db r d.
  eapply (blank_password_locks_room (fun x => "h:" +:+ x) (fun _ => 0%Q)
            (fun _ => Served) Served "k3" 5%Z 7%Z "https://site" true 1 db s _ _
            {| CreateRoomModal.code := "AAAA-AAAA"; ownerToken := "owner_k3_5";
               joinUrl := "https://site/#/room/AAAA-AAAA" |} r "r1" 8%Z 10%Z d).
  - intros n. split; [apply Qle_refl | reflexivity].
  - vm_compute. reflexivity.
  - reflexivity.
  - reflexivity.
  - vm_compute. right. left. reflexivity.
  - discriminate.
  - reflexivity.
  - discriminate.
  - reflexivity.
  - reflexivity.
Defined.

End CreateRoomWitnesses.
